(** * Keypoint-Labeling-Tools: a shallow embedding of the annotation core

    The repository holds three Tk applications, [keypoint_labeler.py] (V1),
    [keypoint_labelerv2.py] (V2) and [dual_keypoint_labeler.py] (Dual).  This
    development embeds the part of them that is not widget plumbing: path
    matching, the keypoint record model, undo/redo, copy operations, native
    save/load and the COCO and YOLO exporters.

    Conventions of the embedding.
    - Python values that occur inside a keypoint list are [value]s: [None],
      numbers, and (nested) lists.  Numbers are Python ints ([NInt],
      unbounded) or floats ([NFloat]).  A float is an IEEE 754 double, with
      the arithmetic of the machine: sums, products, quotients and square
      roots are rounded to nearest, ties to even, and may be infinite or
      NaN.  Where Python raises instead ([OverflowError] when an int does
      not fit a double, when [x ** 2] leaves the range or when [int] meets
      an infinity; [ValueError] when [int] meets a NaN; [ZeroDivisionError]),
      so does the model.  [x ** 2] is the correctly rounded square.
    - [copy.deepcopy] is the identity on the immutable values of the model.
      What the code shares by reference (a record reachable both from
      [annotations_data] and from [annotation_dict] / [current_annotation])
      is modelled by an index into the record list.
    - A Python exception is a [Raise e]; the handlers that catch
      [Exception] at the operation boundary turn it into an error dialog.
    - [os.path] is modelled on forward-slash paths (posixpath); a folder is
      the list of its components ([Path(...).parts]).
    - A JSON file holds the document value that [json.dump] was given:
      [json.load] after [json.dump] is the identity on the JSON-typed
      documents of the model. *)

From Stdlib Require Import ZArith Floats Ascii String.
From stdpp Require Import base option list strings gmap.

Set Warnings "-register-all".

Local Open Scope string_scope.
Local Open Scope list_scope.

(** ** Python values and exceptions *)

Inductive num : Type :=
| NInt (z : Z)
| NFloat (f : float).

Inductive value : Type :=
| VNone
| VNum (n : num)
| VList (l : list value).

Inductive exn : Type :=
| TypeError
| ValueError
| OverflowError
| ZeroDivisionError
| IndexError
| KeyError
| AttributeError
| OSError.

Inductive result (A : Type) : Type :=
| Ok (a : A)
| Raise (e : exn).
Arguments Ok {A} a.
Arguments Raise {A} e.

(** Sequencing of computations that may raise; stdpp's [x ← r; k] notation
    is used for it. *)
#[global] Instance result_ret : MRet result := fun A a => Ok a.
#[global] Instance result_bind : MBind result := fun A B k r =>
  match r with
  | Ok a => k a
  | Raise e => Raise e
  end.

(** ** Paths (normalize_path, os.path.basename, str.endswith, str.split) *)

Definition slash : ascii := "/"%char.
Definition backslash : ascii := "\"%char.

(** [str(path).replace('\\', '/')] *)
Fixpoint replace_backslash (s : string) : string :=
  match s with
  | EmptyString => EmptyString
  | String c s' =>
      String (if Ascii.eqb c backslash then slash else c) (replace_backslash s')
  end.

(** [normalize_path]: [None] maps to [None]. *)
Definition normalize_path (path : option string) : option string :=
  match path with
  | None => None
  | Some p => Some (replace_backslash p)
  end.

(** [os.path.basename p = p[p.rfind('/') + 1:]]; [cur] is the text after the
    last separator seen so far. *)
Fixpoint basename_from (s cur : string) : string :=
  match s with
  | EmptyString => cur
  | String c s' =>
      if Ascii.eqb c slash then basename_from s' s' else basename_from s' cur
  end.

Definition basename (p : string) : string := basename_from p p.

(** [s.endswith(t)] *)
Fixpoint endswith (s t : string) : bool :=
  if String.eqb s t then true
  else match s with
       | EmptyString => false
       | String _ s' => endswith s' t
       end.

(** [s.split('/')]: never empty, [''.split('/') = ['']]. *)
Fixpoint split_slash (s : string) : list string :=
  match s with
  | EmptyString => [EmptyString]
  | String c s' =>
      if Ascii.eqb c slash then EmptyString :: split_slash s'
      else match split_slash s' with
           | h :: t => String c h :: t
           | [] => [String c EmptyString]
           end
  end.

(** Python truthiness of an optional string: [None] and [''] are falsy. *)
Definition truthy_path (p : option string) : bool :=
  match p with
  | Some (String _ _) => true
  | _ => false
  end.

(** [l[-k:]] for [k >= 1]: the last [k] elements, the whole list when it is
    shorter than [k]. *)
Definition slice_last {A} (k : nat) (l : list A) : list A :=
  drop (length l - k) l.

(** The loop of strategy 4:
    [for i in range(len(img_parts)):
       if img_parts[i:] == ann_parts[-len(img_parts[i:]):]: return True] *)
Definition segment_suffix_match (img_parts ann_parts : list string) : bool :=
  existsb
    (fun i => bool_decide
                (drop i img_parts
                 = slice_last (length (drop i img_parts)) ann_parts))
    (seq 0 (length img_parts)).

(** [match_annotation_path(image_rel_path, annotation_path)]; the same text
    in V1 and V2. *)
Definition match_annotation_path (image_rel_path annotation_path : option string)
  : bool :=
  if negb (truthy_path image_rel_path) || negb (truthy_path annotation_path)
  then false
  else
    match normalize_path image_rel_path, normalize_path annotation_path with
    | Some img_path_norm, Some ann_path_norm =>
        if bool_decide (img_path_norm = ann_path_norm) then true
        else if bool_decide (basename img_path_norm = basename ann_path_norm)
        then true
        else if endswith img_path_norm ann_path_norm
                || endswith ann_path_norm img_path_norm
        then true
        else segment_suffix_match (split_slash img_path_norm)
                                  (split_slash ann_path_norm)
    | _, _ => false
    end.

(** ** The data model *)

(** One record of the [annotations] array.  A record is a Python dict; the
    code reads [image] and [keypoints] only through [.get(key, default)], so
    a missing [image] is [""] and a missing [keypoints] is [[]]; [width] and
    [height] keep the distinction because the exporters use different
    defaults for them. *)
Record annotation : Type := mk_annotation {
  image : string;
  width : option num;
  height : option num;
  keypoints : list value
}.

(** The [info] object: the two counters that saving maintains, and the rest
    of its free-form content by key. *)
Record info_obj : Type := mk_info {
  num_images : option Z;
  num_keypoints : option Z;
  info_rest : list (string * string)
}.

(** The annotation document ([annotations_data]); either key may be absent. *)
Record document : Type := mk_document {
  info : option info_obj;
  annotations : option (list annotation)
}.

(** Truthiness of a document: the empty dict [{}] is falsy. *)
Definition doc_truthy (d : option document) : bool :=
  match d with
  | Some (mk_document None None) => false
  | Some _ => true
  | None => false
  end.

Inductive edit_mode_t : Type := ModeMove | ModeAdd | ModeDelete.
Inductive format_mode_t : Type := Standard | Coco.

(** What [current_annotation] refers to: the [i]-th record of
    [annotations_data['annotations']] (shared with [annotation_dict]), or a
    temporary record that belongs to no document. *)
Inductive annref : Type :=
| InData (i : nat)
| Temp (a : annotation).

(** What an operation shows to the user: nothing, a status line, a message
    box (with the number it mentions, where it mentions one), the error box
    of an [except Exception as e] handler, or an exception that leaves a Tk
    callback. *)
Inductive report : Type :=
| Silent
| Status (msg : string)
| ShowWarning (msg : string)
| ShowInfo (msg : string)
| ShowInfoN (msg : string) (n : nat)
| ShowError (msg : string)
| Failed (msg : string) (e : exn)
| Uncaught (e : exn).

(** The fields of the application object that the embedded operations read
    or write.  [annotation_dict] is an insertion-ordered dict from path keys
    to records, each record given by its index in the document;
    [drag_state_saved] is [hasattr(self, '_drag_state_saved')];
    [current_image_size] is the size of [current_image];
    [format_mode], [default_visibility], [visibility_var] and
    [coco_annotation_file] exist in V2 only. *)
Record state : Type := mk_state {
  annotations_data : option document;
  annotation_dict : list (string * nat);
  annotation_file : option string;
  coco_annotation_file : option string;
  image_folder : list string;
  image_list : list string;
  current_image_index : nat;
  current_image_path : option string;
  current_image_size : option (Z * Z);
  current_annotation : option annref;
  undo_stack : list (list value);
  redo_stack : list (list value);
  selected_keypoint : option nat;
  edit_mode : edit_mode_t;
  format_mode : format_mode_t;
  default_visibility : Z;
  visibility_var : Z;
  drag_state_saved : bool;
  unsaved_changes : bool;
  scale_factor : float
}.

Definition max_history : nat := 50.

(** Field updates. *)
Definition set_annotations_data (x : option document) (st : state) : state :=
  mk_state x (annotation_dict st) (annotation_file st) (coco_annotation_file
    st) (image_folder st) (image_list st) (current_image_index st)
    (current_image_path st) (current_image_size st) (current_annotation st)
    (undo_stack st) (redo_stack st) (selected_keypoint st) (edit_mode st)
    (format_mode st) (default_visibility st) (visibility_var st)
    (drag_state_saved st) (unsaved_changes st) (scale_factor st).

Definition set_annotation_dict (x : list (string * nat)) (st : state) : state :=
  mk_state (annotations_data st) x (annotation_file st)
    (coco_annotation_file st) (image_folder st) (image_list st)
    (current_image_index st) (current_image_path st) (current_image_size st)
    (current_annotation st) (undo_stack st) (redo_stack st)
    (selected_keypoint st) (edit_mode st) (format_mode st)
    (default_visibility st) (visibility_var st) (drag_state_saved st)
    (unsaved_changes st) (scale_factor st).

Definition set_annotation_file (x : option string) (st : state) : state :=
  mk_state (annotations_data st) (annotation_dict st) x
    (coco_annotation_file st) (image_folder st) (image_list st)
    (current_image_index st) (current_image_path st) (current_image_size st)
    (current_annotation st) (undo_stack st) (redo_stack st)
    (selected_keypoint st) (edit_mode st) (format_mode st)
    (default_visibility st) (visibility_var st) (drag_state_saved st)
    (unsaved_changes st) (scale_factor st).

Definition set_coco_annotation_file (x : option string) (st : state) : state :=
  mk_state (annotations_data st) (annotation_dict st) (annotation_file st) x
    (image_folder st) (image_list st) (current_image_index st)
    (current_image_path st) (current_image_size st) (current_annotation st)
    (undo_stack st) (redo_stack st) (selected_keypoint st) (edit_mode st)
    (format_mode st) (default_visibility st) (visibility_var st)
    (drag_state_saved st) (unsaved_changes st) (scale_factor st).

Definition set_current_image_path (x : option string) (st : state) : state :=
  mk_state (annotations_data st) (annotation_dict st) (annotation_file st)
    (coco_annotation_file st) (image_folder st) (image_list st)
    (current_image_index st) x (current_image_size st) (current_annotation
    st) (undo_stack st) (redo_stack st) (selected_keypoint st) (edit_mode
    st) (format_mode st) (default_visibility st) (visibility_var st)
    (drag_state_saved st) (unsaved_changes st) (scale_factor st).

Definition set_current_image_size (x : option (Z * Z)) (st : state) : state :=
  mk_state (annotations_data st) (annotation_dict st) (annotation_file st)
    (coco_annotation_file st) (image_folder st) (image_list st)
    (current_image_index st) (current_image_path st) x (current_annotation
    st) (undo_stack st) (redo_stack st) (selected_keypoint st) (edit_mode
    st) (format_mode st) (default_visibility st) (visibility_var st)
    (drag_state_saved st) (unsaved_changes st) (scale_factor st).

Definition set_current_annotation (x : option annref) (st : state) : state :=
  mk_state (annotations_data st) (annotation_dict st) (annotation_file st)
    (coco_annotation_file st) (image_folder st) (image_list st)
    (current_image_index st) (current_image_path st) (current_image_size st)
    x (undo_stack st) (redo_stack st) (selected_keypoint st) (edit_mode st)
    (format_mode st) (default_visibility st) (visibility_var st)
    (drag_state_saved st) (unsaved_changes st) (scale_factor st).

Definition set_undo_stack (x : list (list value)) (st : state) : state :=
  mk_state (annotations_data st) (annotation_dict st) (annotation_file st)
    (coco_annotation_file st) (image_folder st) (image_list st)
    (current_image_index st) (current_image_path st) (current_image_size st)
    (current_annotation st) x (redo_stack st) (selected_keypoint st)
    (edit_mode st) (format_mode st) (default_visibility st) (visibility_var
    st) (drag_state_saved st) (unsaved_changes st) (scale_factor st).

Definition set_redo_stack (x : list (list value)) (st : state) : state :=
  mk_state (annotations_data st) (annotation_dict st) (annotation_file st)
    (coco_annotation_file st) (image_folder st) (image_list st)
    (current_image_index st) (current_image_path st) (current_image_size st)
    (current_annotation st) (undo_stack st) x (selected_keypoint st)
    (edit_mode st) (format_mode st) (default_visibility st) (visibility_var
    st) (drag_state_saved st) (unsaved_changes st) (scale_factor st).

Definition set_selected_keypoint (x : option nat) (st : state) : state :=
  mk_state (annotations_data st) (annotation_dict st) (annotation_file st)
    (coco_annotation_file st) (image_folder st) (image_list st)
    (current_image_index st) (current_image_path st) (current_image_size st)
    (current_annotation st) (undo_stack st) (redo_stack st) x (edit_mode st)
    (format_mode st) (default_visibility st) (visibility_var st)
    (drag_state_saved st) (unsaved_changes st) (scale_factor st).

Definition set_edit_mode (x : edit_mode_t) (st : state) : state :=
  mk_state (annotations_data st) (annotation_dict st) (annotation_file st)
    (coco_annotation_file st) (image_folder st) (image_list st)
    (current_image_index st) (current_image_path st) (current_image_size st)
    (current_annotation st) (undo_stack st) (redo_stack st)
    (selected_keypoint st) x (format_mode st) (default_visibility st)
    (visibility_var st) (drag_state_saved st) (unsaved_changes st)
    (scale_factor st).

Definition set_drag_state_saved (x : bool) (st : state) : state :=
  mk_state (annotations_data st) (annotation_dict st) (annotation_file st)
    (coco_annotation_file st) (image_folder st) (image_list st)
    (current_image_index st) (current_image_path st) (current_image_size st)
    (current_annotation st) (undo_stack st) (redo_stack st)
    (selected_keypoint st) (edit_mode st) (format_mode st)
    (default_visibility st) (visibility_var st) x (unsaved_changes st)
    (scale_factor st).

Definition set_unsaved_changes (x : bool) (st : state) : state :=
  mk_state (annotations_data st) (annotation_dict st) (annotation_file st)
    (coco_annotation_file st) (image_folder st) (image_list st)
    (current_image_index st) (current_image_path st) (current_image_size st)
    (current_annotation st) (undo_stack st) (redo_stack st)
    (selected_keypoint st) (edit_mode st) (format_mode st)
    (default_visibility st) (visibility_var st) (drag_state_saved st) x
    (scale_factor st).

(** [self.annotations_data.get('annotations', [])] *)
Definition doc_annotations (d : option document) : list annotation :=
  match d with
  | Some (mk_document _ (Some l)) => l
  | _ => []
  end.

(** The record that [current_annotation] refers to; [None] when there is no
    current annotation. *)
Definition cur_record (st : state) : option annotation :=
  match current_annotation st with
  | None => None
  | Some (Temp a) => Some a
  | Some (InData i) => doc_annotations (annotations_data st) !! i
  end.

(** [self.current_annotation.get('keypoints', [])] *)
Definition get_keypoints (st : state) : list value :=
  match cur_record st with
  | Some a => keypoints a
  | None => []
  end.

Definition with_keypoints (kps : list value) (a : annotation) : annotation :=
  mk_annotation (image a) (width a) (height a) kps.

(** [ann['keypoints'] = kps] for the [i]-th record of the document. *)
Definition set_record_keypoints (i : nat) (kps : list value) (st : state)
  : state :=
  match annotations_data st with
  | Some (mk_document inf (Some l)) =>
      set_annotations_data
        (Some (mk_document inf (Some (alter (with_keypoints kps) i l)))) st
  | _ => st
  end.

(** [self.current_annotation['keypoints'] = kps]: the write goes to the
    shared record when the current annotation is a record of the document. *)
Definition set_keypoints (kps : list value) (st : state) : state :=
  match current_annotation st with
  | None => st
  | Some (Temp a) => set_current_annotation (Some (Temp (with_keypoints kps a))) st
  | Some (InData i) => set_record_keypoints i kps st
  end.

(** ** Python primitives on values *)

(** A Python float is an IEEE 754 double: the arithmetic is the machine's,
    with its rounding, its infinities and its NaN. *)

(** [float(z)] for an int: the nearest double, ties to even;
    [OverflowError] when the int is beyond the range of a double. *)
Definition float_of_int (z : Z) : result float :=
  let f := SF2Prim (SpecFloat.binary_normalize prec emax z 0 false) in
  if PrimFloat.is_infinity f then Raise OverflowError else Ok f.

(** The operand of a float operation: an int is converted first. *)
Definition to_float (n : num) : result float :=
  match n with
  | NInt z => float_of_int z
  | NFloat f => Ok f
  end.

(** [int(f)] for a float: truncation toward zero; [ValueError] on a NaN,
    [OverflowError] on an infinity. *)
Definition int_of_float (f : float) : result Z :=
  match Prim2SF f with
  | S754_zero _ => Ok 0%Z
  | S754_infinity _ => Raise OverflowError
  | S754_nan => Raise ValueError
  | S754_finite s m e =>
      let a := if (0 <=? e)%Z then Z.shiftl (Zpos m) e
               else Z.shiftr (Zpos m) (- e) in
      Ok (if s then (- a)%Z else a)
  end.

(** [x ** 2] for a float: [OverflowError] when the square of a finite
    number is beyond the range of a double. *)
Definition float_square (x : float) : result float :=
  let r := (x * x)%float in
  if PrimFloat.is_infinity r && negb (PrimFloat.is_infinity x)
  then Raise OverflowError else Ok r.

(** [a / b] on two ints: [ZeroDivisionError] on a zero divisor, else the
    correctly rounded quotient, [OverflowError] when it is beyond the range
    of a double.  The quotient is taken with 66 bits more than the divisor
    has, and a sticky bit for the remainder, before the one rounding. *)
Definition int_true_divide (a b : Z) : result float :=
  if (b =? 0)%Z then Raise ZeroDivisionError
  else
    let negate := xorb (a <? 0)%Z (b <? 0)%Z in
    let k := (Z.log2 (Z.abs b) + 66)%Z in
    let n := (Z.abs a * 2 ^ k)%Z in
    let q := (n / Z.abs b)%Z in
    let sticky := if (n mod Z.abs b =? 0)%Z then 0%Z else 1%Z in
    let m := (2 * q + sticky)%Z in
    let f := SF2Prim (SpecFloat.binary_normalize prec emax
                        (if negate then (- m)%Z else m) (- (k + 1)) negate) in
    if PrimFloat.is_infinity f then Raise OverflowError else Ok f.

(** [x / y] on floats: [ZeroDivisionError] on a zero divisor. *)
Definition float_true_divide (x y : float) : result float :=
  if PrimFloat.eqb y 0 then Raise ZeroDivisionError else Ok (x / y)%float.

(** [len(v)]: defined on lists only; [len(None)] and [len(5)] raise
    [TypeError]. *)
Definition py_len (v : value) : result nat :=
  match v with
  | VList l => Ok (length l)
  | _ => Raise TypeError
  end.

(** [float(v)] *)
Definition py_float (v : value) : result float :=
  match v with
  | VNum n => to_float n
  | _ => Raise TypeError
  end.

(** [int(v)]: a float is truncated toward zero. *)
Definition py_int (v : value) : result Z :=
  match v with
  | VNum (NInt z) => Ok z
  | VNum (NFloat f) => int_of_float f
  | _ => Raise TypeError
  end.

(** [x - v] for a float [x]: [TypeError] when [v] is no number; an int is
    converted to a float first. *)
Definition float_sub (x : float) (v : value) : result float :=
  y ← py_float v;
  Ok (x - y)%float.

(** [v / d]: [TypeError] when [v] is no number.  Two ints are divided as
    ints; otherwise both operands are converted to floats, the left one
    first, and a zero divisor raises [ZeroDivisionError] after that. *)
Definition py_div (v : value) (d : num) : result float :=
  match v with
  | VNum (NInt a) =>
      match d with
      | NInt b => int_true_divide a b
      | NFloat y => x ← float_of_int a; float_true_divide x y
      end
  | VNum (NFloat x) =>
      y ← to_float d;
      float_true_divide x y
  | _ => Raise TypeError
  end.

(** [bool(v)] *)
Definition py_truthy (v : value) : bool :=
  match v with
  | VNone => false
  | VNum (NInt z) => negb (z =? 0)%Z
  | VNum (NFloat f) => negb (PrimFloat.eqb f 0)
  | VList [] => false
  | VList (_ :: _) => true
  end.

Definition vfloat (f : float) : value := VNum (NFloat f).
Definition vint (z : Z) : value := VNum (NInt z).

(** ** The lookup dict *)

(** [key in d] / [d[key]] *)
Fixpoint dict_get {V} (d : list (string * V)) (key : string) : option V :=
  match d with
  | [] => None
  | (k, v) :: d' => if String.eqb k key then Some v else dict_get d' key
  end.

(** [d[key] = v]: an existing key keeps its position. *)
Fixpoint dict_set {V} (d : list (string * V)) (key : string) (v : V)
  : list (string * V) :=
  match d with
  | [] => [(key, v)]
  | (k, w) :: d' =>
      if String.eqb k key then (k, v) :: d' else (k, w) :: dict_set d' key v
  end.

(** [for ann_path, ann in d.items(): if match(p, ann_path): ...; break] *)
Definition dict_find_match {V} (p : option string) (d : list (string * V))
  : option (string * V) :=
  find (fun kv => match_annotation_path p (Some (fst kv))) d.

(** [p and p in d], then [d[p]]: the lookup under a path that may be [None]
    or empty. *)
Definition dict_key {V} (d : list (string * V)) (p : option string) : option V :=
  if truthy_path p then p ≫= dict_get d else None.

(** ** Locating the paths of an image *)

(** [get_relative_path(os.path.join(folder, p), folder)] for an entry [p] of
    [image_list]: [os.path.relpath] gives [p] back, which is then
    normalized. *)
Definition get_relative_path (p : string) : option string :=
  normalize_path (Some p).

(** [get_base_images_path]: the folder up to and including its first
    component named [images], the folder itself when there is none. *)
Definition get_base_images_path (image_folder : list string) : list string :=
  match list_find (fun part => part = "images") image_folder with
  | Some (images_idx, _) => take (S images_idx) image_folder
  | None => image_folder
  end.

Fixpoint join_path (parts : list string) : string :=
  match parts with
  | [] => ""
  | [p] => p
  | p :: rest => p +:+ "/" +:+ join_path rest
  end.

(** [get_annotation_match_path(os.path.join(folder, p), folder)]: the path
    of the image relative to the base images directory. *)
Definition get_annotation_match_path (p : string) (image_folder : list string)
  : option string :=
  let base_images := get_base_images_path image_folder in
  normalize_path
    (Some (join_path (drop (length base_images) image_folder ++ [p]))).

(** ** Undo / redo (save_state, undo_action, redo_action) *)

(** [save_state]: push a copy of the current keypoints, evict the oldest
    entry beyond [max_history], clear the redo stack. *)
Definition save_state (st : state) : state :=
  match cur_record st with
  | None => st
  | Some a =>
      let current_keypoints := keypoints a in
      let undo := undo_stack st ++ [current_keypoints] in
      let undo := if (max_history <? length undo)%nat then drop 1 undo else undo in
      set_redo_stack [] (set_undo_stack undo st)
  end.

(** [l.pop()] on a non-empty list: the remaining list and the last entry. *)
Definition pop_last {A} (l : list A) : option (list A * A) :=
  match last l with
  | Some x => Some (removelast l, x)
  | None => None
  end.

Definition undo_action (st : state) : state * report :=
  match pop_last (undo_stack st), cur_record st with
  | Some (undo', previous_keypoints), Some a =>
      let st := set_redo_stack (redo_stack st ++ [keypoints a]) st in
      let st := set_undo_stack undo' st in
      (set_keypoints previous_keypoints st,
       Status "Undo: Restored previous keypoint state")
  | _, _ => (st, Status "Nothing to undo")
  end.

Definition redo_action (st : state) : state * report :=
  match pop_last (redo_stack st), cur_record st with
  | Some (redo', next_keypoints), Some a =>
      let st := set_undo_stack (undo_stack st ++ [keypoints a]) st in
      let st := set_redo_stack redo' st in
      (set_keypoints next_keypoints st,
       Status "Redo: Restored next keypoint state")
  | _, _ => (st, Status "Nothing to redo")
  end.

(** ** The nearest-keypoint scan of the click handlers (V1 and V2)

    The accumulator is the pair of [min_dist] and [nearest_idx];
    [dist = math.sqrt((img_x - kp_x)**2 + (img_y - kp_y)**2)] is evaluated
    from left to right. *)
Definition scan_step (img_x img_y : float) (idx : nat) (kp : value)
    (acc : float * option nat) : result (float * option nat) :=
  n ← py_len kp;
  if (2 <=? n)%nat then
    match kp with
    | VList (kp_x :: kp_y :: _) =>
        dx ← float_sub img_x kp_x;
        dx2 ← float_square dx;
        dy ← float_sub img_y kp_y;
        dy2 ← float_square dy;
        let dist := PrimFloat.sqrt (dx2 + dy2) in
        if PrimFloat.ltb dist (fst acc) && PrimFloat.ltb dist 30
        then Ok (dist, Some idx)
        else Ok acc
    | _ => Ok acc
    end
  else Ok acc.

Fixpoint nearest_scan (img_x img_y : float) (kps : list value) (idx : nat)
    (acc : float * option nat) : result (option nat) :=
  match kps with
  | [] => Ok (snd acc)
  | kp :: rest =>
      acc' ← scan_step img_x img_y idx kp acc;
      nearest_scan img_x img_y rest (S idx) acc'
  end.

(** [min_dist = float('inf')], [nearest_idx = None] *)
Definition find_nearest_click (img_x img_y : float) (kps : list value)
  : result (option nat) :=
  nearest_scan img_x img_y kps 0 (infinity, None).

(** ** Edit handlers shared by V1 and V2

    The handlers take canvas coordinates, as the Tk events give them, and
    divide by [scale_factor] themselves. *)

Definition to_image (canvas : float) (st : state) : float :=
  (canvas / scale_factor st)%float.

(** The [move] and [delete] branches of [on_canvas_click], which are the
    same text in V1 and V2; an exception of the scan leaves the handler
    before anything is written. *)
Definition click_move (img_x img_y : float) (st : state) : state * report :=
  match find_nearest_click img_x img_y (get_keypoints st) with
  | Ok nearest_idx => (set_selected_keypoint nearest_idx st, Silent)
  | Raise e => (st, Uncaught e)
  end.

Definition click_delete (img_x img_y : float) (st : state) : state * report :=
  match find_nearest_click img_x img_y (get_keypoints st) with
  | Ok (Some nearest_idx) =>
      let st := save_state st in
      let st := set_keypoints (delete nearest_idx (get_keypoints st)) st in
      (set_unsaved_changes true (set_selected_keypoint None st), Silent)
  | Ok None => (st, Silent)
  | Raise e => (st, Uncaught e)
  end.

(** [on_canvas_drag]: V1 and V2 replace the whole entry by [[img_x, img_y]]. *)
Definition on_canvas_drag (canvas_x canvas_y : float) (st : state) : state * report :=
  match selected_keypoint st, edit_mode st with
  | Some sel, ModeMove =>
      if PrimFloat.leb (scale_factor st) 0 then (st, Silent)
      else
        let st := if drag_state_saved st then st
                  else set_drag_state_saved true (save_state st) in
        let img_x := to_image canvas_x st in
        let img_y := to_image canvas_y st in
        match cur_record st with
        | None => (st, Uncaught AttributeError)
        | Some a =>
            if (sel <? length (keypoints a))%nat then
              let st :=
                set_keypoints
                  (<[sel := VList [vfloat img_x; vfloat img_y]]> (keypoints a))
                  st in
              (set_unsaved_changes true st, Silent)
            else (st, Silent)
        end
  | _, _ => (st, Silent)
  end.

Definition on_canvas_release (st : state) : state * report :=
  (set_selected_keypoint None (set_drag_state_saved false st), Silent).

Definition clear_keypoints (st : state) : state * report :=
  match cur_record st with
  | None => (st, Silent)
  | Some _ =>
      let st := save_state st in
      (set_unsaved_changes true (set_keypoints [] st), Silent)
  end.

Definition set_mode (mode : edit_mode_t) (st : state) : state * report :=
  (set_edit_mode mode st, Silent).

(** The record a dict entry refers to. *)
Definition record_at (st : state) (i : nat) : option annotation :=
  doc_annotations (annotations_data st) !! i.

(** The five lookup strategies, first hit wins: exact match on the
    [images/]-relative path, exact match on the folder-relative path, file
    name, then the [match_annotation_path] cascade against either path.  The
    same text in [load_current_image] of V1 and V2 and in V2's
    [copy_from_previous_frame]. *)
Definition resolve_annotation (image_path : string) (st : state) : option nat :=
  let d := annotation_dict st in
  let image_rel_path := get_relative_path image_path in
  let annotation_match_path :=
    get_annotation_match_path image_path (image_folder st) in
  let s1 := dict_key d annotation_match_path in
  let s2 := if s1 is Some _ then s1 else dict_key d image_rel_path in
  let s3 :=
    if s2 is Some _ then s2
    else dict_get d (basename (if truthy_path image_rel_path
                               then default "" image_rel_path
                               else image_path)) in
  let s4 :=
    if s3 is Some _ then s3
    else if truthy_path annotation_match_path
         then snd <$> dict_find_match annotation_match_path d
         else None in
  if s4 is Some _ then s4
  else if truthy_path image_rel_path
       then snd <$> dict_find_match image_rel_path d
       else None.

(** ** Files

    What a path of the file system holds: a native annotation document, a
    COCO document, or a YOLO label file (each line kept as the list of its
    numbers; the six-digit formatting of the f-string is not modelled). *)
Record coco_image : Type := mk_coco_image {
  ci_id : nat;
  ci_file_name : string;
  ci_width : num;
  ci_height : num
}.

Record coco_annotation : Type := mk_coco_annotation {
  ca_id : nat;
  ca_image_id : nat;
  ca_keypoints : list num;
  ca_num_keypoints : nat;
  ca_bbox : num * num * num * num;
  ca_area : num
}.

Record coco_data : Type := mk_coco_data {
  coco_images : list coco_image;
  coco_annotations : list coco_annotation
}.

Inductive file_content : Type :=
| NativeJson (d : document)
| CocoJson (c : coco_data)
| YoloLabel (lines : list (list float)).

Abbreviation filesystem := (gmap string file_content).

(** [json.load(open(file))] for a native document. *)
Definition json_load (fs : filesystem) (file : string) : result document :=
  match fs !! file with
  | Some (NativeJson d) => Ok d
  | Some _ => Raise ValueError
  | None => Raise OSError
  end.

(** What the disk holds at an image path, as far as [load_current_image]
    looks: nothing, a file that [Image.open] rejects, or an image of the
    given size. *)
Inductive image_file : Type :=
| Missing
| Unreadable
| Readable (w h : Z).

(** ** os.path.splitext *)

Fixpoint span_dots (s : string) : string * string :=
  match s with
  | String c s' =>
      if Ascii.eqb c "."%char
      then let '(d, r) := span_dots s' in (String c d, r)
      else (EmptyString, s)
  | EmptyString => (EmptyString, EmptyString)
  end.

Fixpoint cut_last_dot (s : string) : option string :=
  match s with
  | EmptyString => None
  | String c s' =>
      match cut_last_dot s' with
      | Some r => Some (String c r)
      | None => if Ascii.eqb c "."%char then Some EmptyString else None
      end
  end.

(** [os.path.splitext(p)[0]]: [p] without the extension of its last
    component; leading dots of that component do not start an extension. *)
Definition splitext_root (p : string) : string :=
  let b := basename p in
  let dir := substring 0 (String.length p - String.length b) p in
  let '(dots, rest) := span_dots b in
  match cut_last_dot rest with
  | Some r => dir +:+ dots +:+ r
  | None => p
  end.

(** ** Python numbers: ints stay ints, anything mixed with a float is a
    float. *)

(** An int against a float: the comparison is exact, no operand is
    rounded; [None] when the float is a NaN. *)
Definition compare_int_float (z : Z) (f : float) : option comparison :=
  match Prim2SF f with
  | S754_nan => None
  | S754_infinity s => Some (if s then Gt else Lt)
  | S754_zero _ => Some (z ?= 0)%Z
  | S754_finite s m e =>
      let fm := if s then Zneg m else Zpos m in
      Some (if (0 <=? e)%Z then (z ?= fm * 2 ^ e)%Z
            else (z * 2 ^ (- e) ?= fm)%Z)
  end.

(** [a < b] *)
Definition num_ltb (a b : num) : bool :=
  match a, b with
  | NInt x, NInt y => (x <? y)%Z
  | NFloat x, NFloat y => PrimFloat.ltb x y
  | NInt x, NFloat y => bool_decide (compare_int_float x y = Some Lt)
  | NFloat x, NInt y => bool_decide (compare_int_float y x = Some Gt)
  end.

(** [a + b], [a - b] and [a * b]: on two ints the result is exact; else
    both operands are converted to floats, the left one first. *)
Definition num_op (int_op : Z -> Z -> Z) (float_op : float -> float -> float)
    (a b : num) : result num :=
  match a, b with
  | NInt x, NInt y => Ok (NInt (int_op x y))
  | _, _ =>
      x ← to_float a;
      y ← to_float b;
      Ok (NFloat (float_op x y))
  end.

Definition num_add : num -> num -> result num := num_op Z.add PrimFloat.add.
Definition num_sub : num -> num -> result num := num_op Z.sub PrimFloat.sub.
Definition num_mul : num -> num -> result num := num_op Z.mul PrimFloat.mul.

(** [min(a, b)] and [max(a, b)] return the first argument on a tie. *)
Definition py_min (a b : num) : num := if num_ltb b a then b else a.
Definition py_max (a b : num) : num := if num_ltb a b then b else a.

(** [min(xs)] and [max(xs)] of a non-empty list ([None] stands for the
    [ValueError] of an empty one, which the callers exclude). *)
Definition py_min_list (xs : list num) : option num :=
  match xs with
  | [] => None
  | x :: rest => Some (fold_left py_min rest x)
  end.

Definition py_max_list (xs : list num) : option num :=
  match xs with
  | [] => None
  | x :: rest => Some (fold_left py_max rest x)
  end.

(** ** load_current_image and the lookup dict (V1 and V2) *)

Definition with_image (p : string) (a : annotation) : annotation :=
  mk_annotation p (width a) (height a) (keypoints a).

(** [self.annotations_data['annotations'].append(ann)], creating the list
    when the key is missing; the index of the new record is returned. *)
Definition append_record (ann : annotation) (st : state) : state * nat :=
  let l := doc_annotations (annotations_data st) in
  let inf := annotations_data st ≫= info in
  (set_annotations_data (Some (mk_document inf (Some (l ++ [ann])))) st,
   length l).

(** [if key not in d: d[key] = v] *)
Definition dict_setdefault {V} (d : list (string * V)) (key : string) (v : V)
  : list (string * V) :=
  match dict_get d key with
  | Some _ => d
  | None => dict_set d key v
  end.

(** [load_current_image]; [disk] tells what lies at the path of an image. *)
Definition load_current_image (disk : string -> image_file) (st : state)
  : state * report :=
  match image_list st !! current_image_index st with
  | None => (st, Silent)
  | Some image_path =>
      match image_folder st with
      | [] => (st, Silent)
      | _ =>
          match disk image_path with
          | Missing => (st, Status "Image not found")
          | Unreadable =>
              (set_current_image_path (Some image_path) st,
               Failed "Failed to load image" OSError)
          | Readable w h =>
              let st := set_current_image_path (Some image_path) st in
              let st := set_current_image_size (Some (w, h)) st in
              let image_rel_path := get_relative_path image_path in
              let rel := default "" image_rel_path in
              let new_record :=
                mk_annotation (if truthy_path image_rel_path then rel
                               else image_path)
                  (Some (NInt w)) (Some (NInt h)) [] in
              let st :=
                if doc_truthy (annotations_data st) then
                  match resolve_annotation image_path st with
                  | Some i =>
                      (* migrate the stored path to the current one *)
                      let st := set_current_annotation (Some (InData i)) st in
                      match annotations_data st with
                      | Some (mk_document inf (Some l)) =>
                          set_annotations_data
                            (Some (mk_document inf
                                     (Some (alter (with_image rel) i l)))) st
                      | _ => st
                      end
                  | None =>
                      let '(st, i) := append_record new_record st in
                      let st := set_current_annotation (Some (InData i)) st in
                      let d := annotation_dict st in
                      let d := if truthy_path image_rel_path
                               then dict_set d rel i else d in
                      let filename :=
                        basename (if truthy_path image_rel_path then rel
                                  else image_path) in
                      set_annotation_dict (dict_setdefault d filename i) st
                  end
                else set_current_annotation (Some (Temp new_record)) st in
              let st := set_selected_keypoint None st in
              (set_redo_stack [] (set_undo_stack [] st), Silent)
          end
      end
  end.

(** Replacing the document leaves [current_annotation] pointing at the
    record object of the old document, which no longer belongs to any. *)
Definition detach_current (st : state) : state :=
  match current_annotation st with
  | Some (InData _) =>
      set_current_annotation (Temp <$> cur_record st) st
  | _ => st
  end.

(** The loop of [import_annotations] that rebuilds the lookup dict: every
    record under its normalized path, and under its file name unless that
    key is taken. *)
Fixpoint build_annotation_dict (anns : list annotation) (i : nat)
    (d : list (string * nat)) : list (string * nat) :=
  match anns with
  | [] => d
  | ann :: rest =>
      let d :=
        match image ann with
        | EmptyString => d
        | ann_path =>
            let normalized := replace_backslash ann_path in
            dict_setdefault (dict_set d normalized i) (basename normalized) i
        end in
      build_annotation_dict rest (S i) d
  end.

(** ** Native save: the info counters (V1 and V2)

    [if 'info' in data:
       data['info']['num_images'] = len(data['annotations'])
       if data['annotations']:
         data['info']['num_keypoints'] = max(len(ann.get('keypoints', [])) ...)]
    A document with an [info] object and no [annotations] key raises
    [KeyError]. *)
Definition max_keypoints (anns : list annotation) : nat :=
  foldr Nat.max 0%nat ((fun ann => length (keypoints ann)) <$> anns).

Definition update_info (d : document) : result document :=
  match info d with
  | None => Ok d
  | Some inf =>
      match annotations d with
      | None => Raise KeyError
      | Some anns =>
          let n_kp :=
            match anns with
            | [] => num_keypoints inf
            | _ => Some (Z.of_nat (max_keypoints anns))
            end in
          Ok (mk_document
                (Some (mk_info (Some (Z.of_nat (length anns))) n_kp
                         (info_rest inf)))
                (Some anns))
      end
  end.

(** ** COCO export (V1 and V2) *)

(** The loop that flattens one record's keypoints to
    [[x1, y1, v1, x2, y2, v2, ...]]; [len(kp)] is taken of every entry. *)
Fixpoint coco_flatten (keypoints : list value) : result (list num) :=
  match keypoints with
  | [] => Ok []
  | kp :: rest =>
      n ← py_len kp;
      here ← (if (2 <=? n)%nat then
                 match kp with
                 | VList (kp0 :: kp1 :: more) =>
                     x ← py_float kp0;
                     y ← py_float kp1;
                     v ← match more with
                         | kp2 :: _ => py_int kp2
                         | [] => Ok 2%Z
                         end;
                     Ok [NFloat x; NFloat y; NInt v]
                 | _ => Ok []
                 end
               else Ok []);
      tail ← coco_flatten rest;
      Ok (here ++ tail)
  end.

(** [[kp[i] for kp in keypoints if len(kp) >= 2]] for [i] = 0, 1; the values
    are compared by [min] and [max] afterwards, which needs numbers. *)
Fixpoint coco_coords (i : nat) (keypoints : list value) : result (list num) :=
  match keypoints with
  | [] => Ok []
  | kp :: rest =>
      n ← py_len kp;
      here ← (if (2 <=? n)%nat then
                 match kp with
                 | VList l =>
                     match l !! i with
                     | Some (VNum c) => Ok [c]
                     | _ => Raise TypeError
                     end
                 | _ => Ok []
                 end
               else Ok []);
      tail ← coco_coords i rest;
      Ok (here ++ tail)
  end.

Definition coco_padding : num := NInt 10.

(** The annotation entry of one record; [None] when the record has no
    flattened keypoint. *)
Definition coco_annotation_of (ann : annotation) (annotation_id img_id : nat)
  : result (option coco_annotation) :=
  coco_keypoints ← coco_flatten (keypoints ann);
  match coco_keypoints with
  | [] => Ok None
  | _ =>
      xs ← coco_coords 0 (keypoints ann);
      ys ← coco_coords 1 (keypoints ann);
      match py_min_list xs, py_max_list xs, py_min_list ys, py_max_list ys with
      | Some x_min, Some x_max, Some y_min, Some y_max =>
          bbox_width ← num_sub x_max x_min;
          bbox_height ← num_sub y_max y_min;
          x_padded ← num_sub x_min coco_padding;
          let x_min := py_max (NInt 0) x_padded in
          y_padded ← num_sub y_min coco_padding;
          let y_min := py_max (NInt 0) y_padded in
          width_left ← num_sub (default (NInt 0) (width ann)) x_min;
          two_padding ← num_mul (NInt 2) coco_padding;
          width_padded ← num_add bbox_width two_padding;
          let bbox_width := py_min width_left width_padded in
          height_left ← num_sub (default (NInt 0) (height ann)) y_min;
          two_padding ← num_mul (NInt 2) coco_padding;
          height_padded ← num_add bbox_height two_padding;
          let bbox_height := py_min height_left height_padded in
          area ← num_mul bbox_width bbox_height;
          Ok (Some (mk_coco_annotation annotation_id img_id coco_keypoints
                      (length (keypoints ann))
                      (x_min, y_min, bbox_width, bbox_height)
                      area))
      | _, _, _, _ => Ok None
      end
  end.

(** The loop over the records: [image_id_map], the next image id, the next
    annotation id and the two output lists are threaded through. *)
Fixpoint coco_records (anns : list annotation)
    (image_id_map : list (string * nat)) (image_id annotation_id : nat)
    (out : coco_data) : result coco_data :=
  match anns with
  | [] => Ok out
  | ann :: rest =>
      match image ann with
      | EmptyString => coco_records rest image_id_map image_id annotation_id out
      | img_path =>
          let '(image_id_map, image_id, images) :=
            match dict_get image_id_map img_path with
            | Some _ => (image_id_map, image_id, coco_images out)
            | None =>
                (dict_set image_id_map img_path image_id, S image_id,
                 coco_images out ++
                   [mk_coco_image image_id img_path
                      (default (NInt 0) (width ann))
                      (default (NInt 0) (height ann))])
            end in
          let img_id := default 0%nat (dict_get image_id_map img_path) in
          entry ← coco_annotation_of ann annotation_id img_id;
          match entry with
          | Some e =>
              coco_records rest image_id_map image_id (S annotation_id)
                (mk_coco_data images (coco_annotations out ++ [e]))
          | None =>
              coco_records rest image_id_map image_id annotation_id
                (mk_coco_data images (coco_annotations out))
          end
      end
  end.

(** [export_to_coco]; [file_path] is what the save dialog returned.  The
    whole conversion runs inside [try ... except Exception], and the file is
    written only after the loop. *)
Definition export_to_coco (file_path : option string) (st : state)
    (fs : filesystem) : filesystem * report :=
  if negb (doc_truthy (annotations_data st)) then
    (fs, ShowWarning "No annotations to export")
  else
    match file_path with
    | Some (String _ _ as path) =>
        match coco_records (doc_annotations (annotations_data st)) [] 1 1
                (mk_coco_data [] []) with
        | Ok coco =>
            (<[path := CocoJson coco]> fs,
             ShowInfoN "Exported to COCO format!"
               (length (coco_annotations coco)))
        | Raise e => (fs, Failed "Failed to export to COCO format" e)
        end
    | _ => (fs, Silent)
    end.

(** ** YOLO export (V1 and V2) *)

(** [s.startswith('/')] and [s.endswith('/')] *)
Definition starts_with_slash (s : string) : bool :=
  match s with
  | String c _ => Ascii.eqb c slash
  | EmptyString => false
  end.

Fixpoint ends_with_slash (s : string) : bool :=
  match s with
  | EmptyString => false
  | String c EmptyString => Ascii.eqb c slash
  | String _ s' => ends_with_slash s'
  end.

(** [os.path.join(a, b)]: an absolute [b] replaces [a]; the separator is
    added unless [a] is empty or ends with one. *)
Definition os_path_join (a b : string) : string :=
  if starts_with_slash b then b
  else if String.eqb a "" || ends_with_slash a then a +:+ b
  else a +:+ "/" +:+ b.

(** The numbers of one label line: every entry with [len(kp) >= 2]
    contributes [kp[0] / width] and [kp[1] / height]. *)
Fixpoint yolo_line (keypoints : list value) (width height : num)
  : result (list float) :=
  match keypoints with
  | [] => Ok []
  | kp :: rest =>
      n ← py_len kp;
      here ← (if (2 <=? n)%nat then
                 match kp with
                 | VList (kp0 :: kp1 :: _) =>
                     x_norm ← py_div kp0 width;
                     y_norm ← py_div kp1 height;
                     Ok [x_norm; y_norm]
                 | _ => Ok []
                 end
               else Ok []);
      tail ← yolo_line rest width height;
      Ok (here ++ tail)
  end.

(** [os.path.join(labels_dir, f"{filename}.txt")] *)
Definition yolo_label_file (labels_dir img_path : string) : string :=
  os_path_join labels_dir (splitext_root (basename img_path) +:+ ".txt").

(** The loop over the records.  [open(label_file, 'w')] truncates the file
    before the line is computed, so a record that raises leaves an empty
    label file behind. *)
Fixpoint yolo_records (labels_dir : string) (anns : list annotation)
    (fs : filesystem) (exported : nat) : filesystem * result nat :=
  match anns with
  | [] => (fs, Ok exported)
  | ann :: rest =>
      match image ann, keypoints ann with
      | EmptyString, _ => yolo_records labels_dir rest fs exported
      | _, [] => yolo_records labels_dir rest fs exported
      | img_path, kps =>
          let width := default (NInt 1) (width ann) in
          let height := default (NInt 1) (height ann) in
          let label_file := yolo_label_file labels_dir img_path in
          let fs := <[label_file := YoloLabel []]> fs in
          match yolo_line kps width height with
          | Raise e => (fs, Raise e)
          | Ok line =>
              yolo_records labels_dir rest
                (<[label_file := YoloLabel [line]]> fs) (S exported)
          end
      end
  end.

Definition export_to_yolo (output_dir : option string) (st : state)
    (fs : filesystem) : filesystem * report :=
  if negb (doc_truthy (annotations_data st)) then
    (fs, ShowWarning "No annotations to export")
  else
    match output_dir with
    | Some (String _ _ as dir) =>
        let labels_dir := os_path_join dir "labels" in
        match yolo_records labels_dir (doc_annotations (annotations_data st))
                fs 0 with
        | (fs, Ok exported) =>
            (fs, ShowInfoN "Exported to YOLO format!" exported)
        | (fs, Raise e) => (fs, Failed "Failed to export to YOLO format" e)
        end
    | _ => (fs, Silent)
    end.

(** ** Batch copy (V1 and V2) *)

(** The lookup of [copy_batch]: the record under the [images/]-relative
    path, else the record under the folder-relative path. *)
Definition batch_find (img_path : string) (st : state) : option nat :=
  let image_rel_path := get_relative_path img_path in
  let annotation_match_path :=
    get_annotation_match_path img_path (image_folder st) in
  match dict_key (annotation_dict st) annotation_match_path with
  | Some i => Some i
  | None => dict_key (annotation_dict st) image_rel_path
  end.

(** The [else] branch of the lookup: a new record is appended to the
    document and entered in the dict under both paths. *)
Definition batch_create (img_path : string) (st : state) : state * nat :=
  let image_rel_path := get_relative_path img_path in
  let annotation_match_path :=
    get_annotation_match_path img_path (image_folder st) in
  let '(w, h) := default (1280, 720)%Z (current_image_size st) in
  let ann :=
    mk_annotation
      (default "" (if truthy_path annotation_match_path
                   then annotation_match_path else image_rel_path))
      (Some (NInt w)) (Some (NInt h)) [] in
  let '(st, i) := append_record ann st in
  let d := annotation_dict st in
  let d := if truthy_path annotation_match_path
           then dict_set d (default "" annotation_match_path) i
           else d in
  let d := if truthy_path image_rel_path
           then dict_set d (default "" image_rel_path) i
           else d in
  (set_annotation_dict d st, i).

(** One round of the loop of [copy_batch] for the image at [idx]: find or
    create the record, then overwrite its keypoints. *)
Definition batch_copy_to (current_keypoints : list value) (img_path : string)
    (st : state) : state :=
  let '(st, i) :=
    match batch_find img_path st with
    | Some i => (st, i)
    | None => batch_create img_path st
    end in
  set_record_keypoints i current_keypoints st.

(** [for i in range(1, n + 1)]: [todo] rounds remain, [i] is the loop
    variable; the loop breaks at the end of [image_list]. *)
Fixpoint copy_batch_loop (current_keypoints : list value) (todo i : nat)
    (st : state) (copied : nat) : state * nat :=
  match todo with
  | O => (st, copied)
  | S todo' =>
      match image_list st !! (current_image_index st + i)%nat with
      | None => (st, copied)
      | Some img_path =>
          copy_batch_loop current_keypoints todo' (S i)
            (batch_copy_to current_keypoints img_path st) (S copied)
      end
  end.

(** [copy_batch], the handler of the dialog's button; [entry] is
    [int(entry_var.get())], [None] when the text is not a number. *)
Definition copy_batch (current_keypoints : list value) (entry : option Z)
    (st : state) : state * report :=
  match entry with
  | None => (st, ShowError "Please enter a valid number")
  | Some n =>
      let max_frames :=
        (Z.of_nat (length (image_list st))
         - Z.of_nat (current_image_index st) - 1)%Z in
      if (n <=? 0)%Z then (st, ShowError "Number must be greater than 0")
      else
        let n := if (max_frames <? n)%Z then max_frames else n in
        let '(st, copied) :=
          copy_batch_loop current_keypoints (Z.to_nat n) 1 st 0 in
        (set_unsaved_changes true st, ShowInfoN "Copied keypoints to frame(s)" copied)
  end.

(** [batch_copy_keypoints]: the guards that precede the dialog, then the
    dialog's button. *)
Definition batch_copy_keypoints (entry : option Z) (st : state)
  : state * report :=
  match cur_record st with
  | None => (st, ShowWarning "No keypoints to copy")
  | Some a =>
      if negb (doc_truthy (annotations_data st)) then
        (st, ShowWarning "No annotation data loaded")
      else
        match keypoints a with
        | [] => (st, ShowWarning "Current image has no keypoints")
        | current_keypoints => copy_batch current_keypoints entry st
        end
  end.

(** ** Further field updates *)

Definition set_format_mode (x : format_mode_t) (st : state) : state :=
  mk_state (annotations_data st) (annotation_dict st) (annotation_file st)
    (coco_annotation_file st) (image_folder st) (image_list st)
    (current_image_index st) (current_image_path st) (current_image_size st)
    (current_annotation st) (undo_stack st) (redo_stack st)
    (selected_keypoint st) (edit_mode st) x (default_visibility st)
    (visibility_var st) (drag_state_saved st) (unsaved_changes st)
    (scale_factor st).

Definition set_current_image_index (x : nat) (st : state) : state :=
  mk_state (annotations_data st) (annotation_dict st) (annotation_file st)
    (coco_annotation_file st) (image_folder st) (image_list st) x
    (current_image_path st) (current_image_size st) (current_annotation st)
    (undo_stack st) (redo_stack st) (selected_keypoint st) (edit_mode st)
    (format_mode st) (default_visibility st) (visibility_var st)
    (drag_state_saved st) (unsaved_changes st) (scale_factor st).

(** ** Valid entries and the rows of the keypoint list box (V2)

    [kp is not None and isinstance(kp, (list, tuple)) and len(kp) >= 2] *)
Definition valid_keypoint (kp : value) : bool :=
  match kp with
  | VList (_ :: _ :: _) => true
  | _ => false
  end.

(** [valid_indices = []; for i, kp in enumerate(keypoints): if valid:
    valid_indices.append(i)], with the enumeration starting at [i]. *)
Fixpoint valid_indices_from (i : nat) (keypoints : list value) : list nat :=
  match keypoints with
  | [] => []
  | kp :: rest =>
      if valid_keypoint kp then i :: valid_indices_from (S i) rest
      else valid_indices_from (S i) rest
  end.

Definition valid_indices (keypoints : list value) : list nat :=
  valid_indices_from 0 keypoints.

(** ** Navigation (V1 and V2)

    [previous_image], [next_image] and the [jump] handler of [go_to_image];
    [entry] is [int(entry_var.get())], [None] when the text is not a
    number. *)
Definition previous_image (disk : string -> image_file) (st : state)
  : state * report :=
  match image_list st with
  | [] => (st, Silent)
  | _ =>
      if (0 <? current_image_index st)%nat then
        load_current_image disk
          (set_current_image_index (current_image_index st - 1) st)
      else (st, Silent)
  end.

Definition next_image (disk : string -> image_file) (st : state)
  : state * report :=
  match image_list st with
  | [] => (st, Silent)
  | _ =>
      if (current_image_index st <? length (image_list st) - 1)%nat then
        load_current_image disk
          (set_current_image_index (current_image_index st + 1) st)
      else (st, Silent)
  end.

Definition jump (entry : option Z) (disk : string -> image_file) (st : state)
  : state * report :=
  match entry with
  | None => (st, ShowError "Please enter a valid number")
  | Some num =>
      if (1 <=? num)%Z && (num <=? Z.of_nat (length (image_list st)))%Z then
        load_current_image disk
          (set_current_image_index (Z.to_nat (num - 1)) st)
      else (st, ShowError "Number must be between 1 and the number of images")
  end.

Definition go_to_image (entry : option Z) (disk : string -> image_file)
    (st : state) : state * report :=
  match image_list st with
  | [] => (st, ShowInfo "No images loaded")
  | _ => jump entry disk st
  end.

(** * V1: keypoint_labeler.py *)
Module V1.

Definition on_canvas_click (canvas_x canvas_y : float) (st : state)
  : state * report :=
  match cur_record st with
  | None => (st, Silent)
  | Some _ =>
      if PrimFloat.leb (scale_factor st) 0 then (st, Silent)
      else
        let img_x := to_image canvas_x st in
        let img_y := to_image canvas_y st in
        match edit_mode st with
        | ModeMove => click_move img_x img_y st
        | ModeAdd =>
            let st := save_state st in
            let st :=
              set_keypoints
                (get_keypoints st ++ [VList [vfloat img_x; vfloat img_y]]) st in
            (set_unsaved_changes true st, Silent)
        | ModeDelete => click_delete img_x img_y st
        end
  end.

(** The lookup of the previous image's record: exact path, else file name,
    else the first dict entry that [match_annotation_path] accepts. *)
Definition find_prev_annotation (prev_image_path : string) (st : state)
  : option nat :=
  let prev_rel_path := get_relative_path prev_image_path in
  match prev_rel_path with
  | Some (String _ _ as p) =>
      match dict_get (annotation_dict st) p with
      | Some ann => Some ann
      | None =>
          match dict_get (annotation_dict st) (basename p) with
          | Some ann => Some ann
          | None => snd <$> dict_find_match prev_rel_path (annotation_dict st)
          end
      end
  | _ =>
      (* prev_rel_path is falsy: only the file name of the list entry is tried *)
      dict_get (annotation_dict st) (basename prev_image_path)
  end.

(** [copy_from_previous_frame] of V1: the keypoints of the previous record
    are copied as they are, and no undo snapshot is taken. *)
Definition copy_from_previous_frame (st : state) : state * report :=
  match cur_record st with
  | None => (st, ShowWarning "No current annotation to copy to")
  | Some _ =>
      if (current_image_index st =? 0)%nat then
        (st, ShowWarning "This is the first image. No previous frame to copy from.")
      else if negb (doc_truthy (annotations_data st)) then
        (st, ShowWarning "No annotation data loaded")
      else
        match image_list st !! (current_image_index st - 1)%nat with
        | None => (st, Uncaught IndexError)
        | Some prev_image_path =>
            match find_prev_annotation prev_image_path st
                    ≫= record_at st with
            | None => (st, ShowWarning "No annotation found for previous image")
            | Some prev_annotation =>
                match keypoints prev_annotation with
                | [] => (st, ShowInfo "Previous image has no keypoints to copy")
                | prev_keypoints =>
                    let st := set_keypoints prev_keypoints st in
                    (set_unsaved_changes true st,
                     Status "Copied keypoints from previous frame")
                end
            end
        end
  end.

(** [import_annotations] of V1; [file] is what the open dialog returned. *)
Definition import_annotations (file : option string) (fs : filesystem)
    (disk : string -> image_file) (st : state) : state * report :=
  match file with
  | Some (String _ _ as file) =>
      match json_load fs file with
      | Raise e => (st, Failed "Failed to load annotations" e)
      | Ok data =>
          let st := set_annotations_data (Some data) (detach_current st) in
          let st := set_annotation_file (Some file) st in
          let st :=
            set_annotation_dict
              (build_annotation_dict (doc_annotations (Some data)) 0 []) st in
          match current_image_path st with
          | Some (String _ _) => (fst (load_current_image disk st), Silent)
          | _ => (st, Silent)
          end
      end
  | _ => (st, Silent)
  end.

(** [save_annotations] of V1; [dialog] is what the save dialog would return
    when no annotation file is known yet. *)
Definition save_annotations (dialog : option string) (st : state)
    (fs : filesystem) : state * filesystem * report :=
  match annotations_data st with
  | Some data =>
      if negb (doc_truthy (Some data)) then
        (st, fs, ShowWarning "No annotations to save")
      else
        let file_path :=
          if truthy_path (annotation_file st) then annotation_file st
          else dialog in
        match file_path with
        | Some (String _ _ as file_path) =>
            match update_info data with
            | Raise e => (st, fs, Failed "Failed to save annotations" e)
            | Ok data =>
                let st := set_annotations_data (Some data) st in
                let fs := <[file_path := NativeJson data]> fs in
                let st := set_annotation_file (Some file_path) st in
                (set_unsaved_changes false st, fs,
                 ShowInfo "Annotations saved successfully!")
            end
        | _ => (st, fs, Silent)
        end
  | None => (st, fs, ShowWarning "No annotations to save")
  end.

(** [auto_save] of V1: the document is written as it is in memory, without
    the counter update of [save_annotations].  The time stamp and the
    indicator label that it also sets are not part of the state. *)
Definition auto_save (st : state) (fs : filesystem) : state * filesystem :=
  match annotations_data st, annotation_file st with
  | Some data, Some (String _ _ as file_path) =>
      if doc_truthy (Some data) then
        (set_unsaved_changes false st, <[file_path := NativeJson data]> fs)
      else (st, fs)
  | _, _ => (st, fs)
  end.

(** [check_auto_save]; [due] is
    [current_time - last_save_time >= auto_save_interval]. *)
Definition check_auto_save (due : bool) (st : state) (fs : filesystem)
  : state * filesystem :=
  if unsaved_changes st && truthy_path (annotation_file st) then
    if due then auto_save st fs else (st, fs)
  else (st, fs).

End V1.

(** * V2: keypoint_labelerv2.py *)
Module V2.

Definition on_canvas_click (canvas_x canvas_y : float) (st : state)
  : state * report :=
  match cur_record st with
  | None => (st, Silent)
  | Some _ =>
      if PrimFloat.leb (scale_factor st) 0 then (st, Silent)
      else
        let img_x := to_image canvas_x st in
        let img_y := to_image canvas_y st in
        match edit_mode st with
        | ModeMove => click_move img_x img_y st
        | ModeAdd =>
            let st := save_state st in
            let kp :=
              match format_mode st with
              | Coco => VList [vfloat img_x; vfloat img_y; vint (visibility_var st)]
              | Standard => VList [vfloat img_x; vfloat img_y]
              end in
            let st := set_keypoints (get_keypoints st ++ [kp]) st in
            (set_unsaved_changes true st, Silent)
        | ModeDelete => click_delete img_x img_y st
        end
  end.

(** V2 looks the previous record up with the five strategies of
    [load_current_image]. *)
Definition find_prev_annotation (prev_image_path : string) (st : state)
  : option nat :=
  resolve_annotation prev_image_path st.

(** The body of the validation loop for one copied entry.  The two [float]
    calls and the [int] call sit inside [try ... except (ValueError,
    TypeError)], which appends [None]; any other exception leaves the
    handler. *)
Definition clean_keypoint (st : state) (kp : value) : result value :=
  match kp with
  | VNone => Ok VNone
  | VList (kp0 :: kp1 :: rest) =>
      let attempt : result value :=
        x ← py_float kp0;
        y ← py_float kp1;
        match rest with
        | kp2 :: _ =>
            v ← py_int kp2;
            Ok (VList [vfloat x; vfloat y; vint v])
        | [] =>
            match format_mode st with
            | Coco => Ok (VList [vfloat x; vfloat y; vint (default_visibility st)])
            | Standard => Ok (VList [vfloat x; vfloat y])
            end
        end in
      match attempt with
      | Ok v => Ok v
      | Raise ValueError | Raise TypeError => Ok VNone
      | Raise e => Raise e
      end
  | _ => Ok VNone
  end.

Fixpoint clean_keypoints (st : state) (copied_keypoints : list value)
  : result (list value) :=
  match copied_keypoints with
  | [] => Ok []
  | kp :: rest =>
      c ← clean_keypoint st kp;
      cs ← clean_keypoints st rest;
      Ok (c :: cs)
  end.

(** [sum(1 for kp in copied_keypoints if kp and len(kp) >= 2)], which runs
    over the entries as they were copied, before the validation: a number
    other than zero among them is truthy and has no [len]. *)
Fixpoint count_valid (copied_keypoints : list value) : result nat :=
  match copied_keypoints with
  | [] => Ok 0%nat
  | kp :: rest =>
      here ← (if py_truthy kp then
                 n ← py_len kp;
                 Ok (if (2 <=? n)%nat then 1%nat else 0%nat)
               else Ok 0%nat);
      tail ← count_valid rest;
      Ok (here + tail)%nat
  end.

(** [copy_from_previous_frame] of V2: [save_state] runs right after the
    three guards, before the previous record is looked up; the count for
    the status line is taken after the list has been stored. *)
Definition copy_from_previous_frame (st : state) : state * report :=
  match cur_record st with
  | None => (st, ShowWarning "No current annotation to copy to")
  | Some _ =>
      if (current_image_index st =? 0)%nat then
        (st, ShowWarning "This is the first image. No previous frame to copy from.")
      else if negb (doc_truthy (annotations_data st)) then
        (st, ShowWarning "No annotation data loaded")
      else
        let st := save_state st in
        match image_list st !! (current_image_index st - 1)%nat with
        | None => (st, Uncaught IndexError)
        | Some prev_image_path =>
            match find_prev_annotation prev_image_path st
                    ≫= record_at st with
            | None => (st, ShowWarning "No annotation found for previous image")
            | Some prev_annotation =>
                match keypoints prev_annotation with
                | [] => (st, ShowInfo "Previous image has no keypoints to copy")
                | prev_keypoints =>
                    match clean_keypoints st prev_keypoints with
                    | Raise e => (st, Uncaught e)
                    | Ok cleaned_keypoints =>
                        let st := set_keypoints cleaned_keypoints st in
                        let st := set_unsaved_changes true st in
                        match count_valid prev_keypoints with
                        | Raise e => (st, Uncaught e)
                        | Ok _ =>
                            (st, Status "Copied keypoints from previous frame")
                        end
                    end
                end
            end
        end
  end.

(** [import_annotations] of V2: as in V1, and the COCO file name is derived
    from the imported file. *)
Definition import_annotations (file : option string) (fs : filesystem)
    (disk : string -> image_file) (st : state) : state * report :=
  match file with
  | Some (String _ _ as file) =>
      match json_load fs file with
      | Raise e => (st, Failed "Failed to load annotations" e)
      | Ok data =>
          let st := set_annotations_data (Some data) (detach_current st) in
          let st := set_annotation_file (Some file) st in
          let st :=
            set_coco_annotation_file
              (Some (splitext_root file +:+ "_coco.json")) st in
          let st :=
            set_annotation_dict
              (build_annotation_dict (doc_annotations (Some data)) 0 []) st in
          match current_image_path st with
          | Some (String _ _) => (fst (load_current_image disk st), Silent)
          | _ => (st, Silent)
          end
      end
  | _ => (st, Silent)
  end.

(** [save_annotations] of V2: in COCO mode the same document is written to
    the standard file and to the COCO file; in standard mode as in V1. *)
Definition save_annotations (dialog : option string) (st : state)
    (fs : filesystem) : state * filesystem * report :=
  match annotations_data st with
  | Some data =>
      if negb (doc_truthy (Some data)) then
        (st, fs, ShowWarning "No annotations to save")
      else
        match format_mode st with
        | Coco =>
            match annotation_file st with
            | Some (String _ _ as standard_file) =>
                let coco_file_path :=
                  if truthy_path (coco_annotation_file st)
                  then default "" (coco_annotation_file st)
                  else splitext_root standard_file +:+ "_coco.json" in
                let st := set_coco_annotation_file (Some coco_file_path) st in
                match update_info data with
                | Raise e => (st, fs, Failed "Failed to save annotations" e)
                | Ok data =>
                    let st := set_annotations_data (Some data) st in
                    let fs := <[standard_file := NativeJson data]> fs in
                    let fs := <[coco_file_path := NativeJson data]> fs in
                    (set_unsaved_changes false st, fs,
                     ShowInfo "Saved to both files")
                end
            | _ =>
                (st, fs,
                 ShowWarning "No standard annotation file loaded. Please import annotations first.")
            end
        | Standard =>
            let file_path :=
              if truthy_path (annotation_file st) then annotation_file st
              else dialog in
            match file_path with
            | Some (String _ _ as file_path) =>
                let st := set_annotation_file (Some file_path) st in
                match update_info data with
                | Raise e => (st, fs, Failed "Failed to save annotations" e)
                | Ok data =>
                    let st := set_annotations_data (Some data) st in
                    let fs := <[file_path := NativeJson data]> fs in
                    (set_unsaved_changes false st, fs,
                     ShowInfo "Standard annotations saved successfully!")
                end
            | _ => (st, fs, Silent)
            end
        end
  | None => (st, fs, ShowWarning "No annotations to save")
  end.

(** [set_keypoint_visibility(keypoint_idx, visibility)]: [save_state] runs
    before the entry is inspected; a valid entry becomes
    [[kp[0], kp[1], visibility]]. *)
Definition set_keypoint_visibility (keypoint_idx : nat) (visibility : Z)
    (st : state) : state * report :=
  match cur_record st with
  | None => (st, Silent)
  | Some a =>
      let keypoints := keypoints a in
      if (length keypoints <=? keypoint_idx)%nat then (st, Silent)
      else
        let st := save_state st in
        match keypoints !! keypoint_idx with
        | Some (VList (kp0 :: kp1 :: _)) =>
            let st :=
              set_keypoints
                (<[keypoint_idx := VList [kp0; kp1; vint visibility]]> keypoints)
                st in
            (set_unsaved_changes true st, Status "Set keypoint visibility")
        | _ => (st, Silent)
        end
  end.

(** [set_selected_keypoint_visibility(visibility)]; [selection] is the row
    selected in the keypoint list box, which shows the valid entries only. *)
Definition set_selected_keypoint_visibility (selection : option nat)
    (visibility : Z) (st : state) : state * report :=
  match cur_record st, format_mode st with
  | Some a, Coco =>
      match selection with
      | None =>
          (st, ShowInfo "Please select a keypoint from the list first")
      | Some idx =>
          match valid_indices (keypoints a) !! idx with
          | None => (st, Silent)
          | Some actual_idx => set_keypoint_visibility actual_idx visibility st
          end
      end
  | _, _ => (st, Silent)
  end.

(** The body of the conversion loop of [on_format_mode_change] for one
    entry: [Some] of the entry that replaces it, [None] when the entry is
    left alone.  [int(kp[2])] sits inside [try ... except (ValueError,
    TypeError)]. *)
Definition visible_entry (kp : value) : result (option value) :=
  match kp with
  | VList [kp0; kp1] => Ok (Some (VList [kp0; kp1; vint 2]))
  | VList (kp0 :: kp1 :: kp2 :: _) =>
      match py_int kp2 with
      | Ok vis =>
          if bool_decide (vis ∈ [0; 1; 2]%Z) then Ok None
          else Ok (Some (VList [kp0; kp1; vint 2]))
      | Raise ValueError | Raise TypeError =>
          Ok (Some (VList [kp0; kp1; vint 2]))
      | Raise e => Raise e
      end
  | _ => Ok None
  end.

(** The loop over the entries, which writes into the list as it goes: the
    list as far as it was converted, whether an entry was replaced, and the
    exception that stopped the loop, if any. *)
Fixpoint make_visible (keypoints : list value)
  : list value * bool * option exn :=
  match keypoints with
  | [] => ([], false, None)
  | kp :: rest =>
      match visible_entry kp with
      | Raise e => (kp :: rest, false, Some e)
      | Ok new =>
          let '(rest', updated, e) := make_visible rest in
          (default kp new :: rest', bool_decide (is_Some new) || updated, e)
      end
  end.

(** [on_format_mode_change]; [new_mode] is the value of the radio buttons
    ([format_mode_var.get()]). *)
Definition on_format_mode_change (new_mode : format_mode_t) (st : state)
  : state * report :=
  let old_mode := format_mode st in
  let st := set_format_mode new_mode st in
  match new_mode with
  | Coco =>
      let '(st, e) :=
        match old_mode, cur_record st with
        | Standard, Some a =>
            let '(keypoints, updated, e) := make_visible (keypoints a) in
            let st := if updated then set_keypoints keypoints st else st in
            match e with
            | Some e => (st, Some e)
            | None =>
                (if updated then set_unsaved_changes true st else st, None)
            end
        | _, _ => (st, None)
        end in
      match e with
      | Some e => (st, Uncaught e)
      | None =>
          let st :=
            match annotation_file st with
            | Some (String _ _ as file) =>
                if truthy_path (coco_annotation_file st) then st
                else set_coco_annotation_file
                       (Some (splitext_root file +:+ "_coco.json")) st
            | _ => st
            end in
          (st, Status "COCO mode: Keypoints will include visibility")
      end
  | Standard => (st, Status "Standard mode: Keypoints without visibility")
  end.

(** [auto_save] of V2: the document is written as it is in memory to the
    COCO file in COCO mode and to the standard file otherwise. *)
Definition auto_save (st : state) (fs : filesystem) : state * filesystem :=
  match annotations_data st with
  | Some data =>
      if doc_truthy (Some data) then
        let target :=
          match format_mode st with
          | Coco => coco_annotation_file st
          | Standard => annotation_file st
          end in
        match target with
        | Some (String _ _ as file_path) =>
            (set_unsaved_changes false st,
             <[file_path := NativeJson data]> fs)
        | _ => (st, fs)
        end
      else (st, fs)
  | None => (st, fs)
  end.

(** [check_auto_save]; [due] is
    [current_time - last_save_time >= auto_save_interval]. *)
Definition check_auto_save (due : bool) (st : state) (fs : filesystem)
  : state * filesystem :=
  let has_file :=
    match format_mode st with
    | Coco => truthy_path (coco_annotation_file st)
    | Standard => truthy_path (annotation_file st)
    end in
  if unsaved_changes st && has_file then
    if due then auto_save st fs else (st, fs)
  else (st, fs).

End V2.

(** * Dual: dual_keypoint_labeler.py

    Every function of the dual-view application takes the side it works on;
    the embedding gives the state of that side. *)
Module Dual.




(** [on_canvas_drag(event, side)]: in COCO mode an entry that carries a
    visibility keeps it. *)
Definition on_canvas_drag (canvas_x canvas_y : float) (st : state) : state * report :=
  match selected_keypoint st, edit_mode st with
  | Some sel, ModeMove =>
      if PrimFloat.leb (scale_factor st) 0 then (st, Silent)
      else
        let st := if drag_state_saved st then st
                  else set_drag_state_saved true (save_state st) in
        let img_x := to_image canvas_x st in
        let img_y := to_image canvas_y st in
        match cur_record st with
        | None => (st, Uncaught AttributeError)
        | Some a =>
            match keypoints a !! sel with
            | Some old_kp =>
                let moved : result value :=
                  match format_mode st, old_kp with
                  | Coco, VList (_ :: _ :: old2 :: _) =>
                      v ← py_int old2;
                      Ok (VList [vfloat img_x; vfloat img_y; vint v])
                  | _, _ => Ok (VList [vfloat img_x; vfloat img_y])
                  end in
                match moved with
                | Ok kp =>
                    let st := set_keypoints (<[sel := kp]> (keypoints a)) st in
                    (set_unsaved_changes true st, Silent)
                | Raise e => (st, Uncaught e)
                end
            | None => (st, Silent)
            end
        end
  | _, _ => (st, Silent)
  end.

End Dual.

(** ** Auxiliary definitions used by the proofs *)

(** Whether a path contains a separator. *)
Fixpoint has_slash (s : string) : bool :=
  match s with
  | EmptyString => false
  | String c s' => Ascii.eqb c slash || has_slash s'
  end.


(** ** Concrete scenarios used by the properties *)

(** A state of the single-view applications with one document loaded and
    its first record on display. *)
Definition state_of (doc : document) (imgs : list string) (idx : nat)
    (cur : option annref) (mode : edit_mode_t) (fmt : format_mode_t) : state :=
  mk_state (Some doc) (build_annotation_dict (doc_annotations (Some doc)) 0 [])
    (Some "ann.json") None ["data"; "images"] imgs idx
    (imgs !! idx) (Some (100, 100)%Z) cur [] [] None mode fmt 2 2 false false 1.

Definition record_of (path : string) (kps : list value) : annotation :=
  mk_annotation path (Some (NInt 100)) (Some (NInt 100)) kps.

(** E2E scenario E: keypoints [[[1,1,2], null, [3,3,0]]]. *)
Definition scenario_E_keypoints : list value :=
  [VList [vint 1; vint 1; vint 2]; VNone; VList [vint 3; vint 3; vint 0]].

Definition scenario_E_state : state :=
  state_of (mk_document None (Some [record_of "a.jpg" scenario_E_keypoints]))
    ["a.jpg"] 0 (Some (InData 0)) ModeMove Standard.

(** A keypoint whose distance from any click near the origin has a square
    beyond the range of a double, in front of a [null]; [1e200] is the
    double [0x1.4e718d7d7625ap+664]. *)
Definition overflow_before_null : list value :=
  [VList [vfloat 0x1.4e718d7d7625ap+664; vint 0]; VNone].

(** A keypoint with an int coordinate beyond the range of a double, in
    front of a [null]. *)
Definition huge_int_before_null : list value :=
  [VList [vint (10 ^ 400); vint 0]; VNone].

Definition overflow_state (kps : list value) : state :=
  state_of (mk_document None (Some [record_of "a.jpg" kps]))
    ["a.jpg"] 0 (Some (InData 0)) ModeMove Standard.

(** The same record with an empty list in place of [null]. *)
Definition scenario_E_short_entry : list value :=
  [VList [vint 1; vint 1; vint 2]; VList []; VList [vint 3; vint 3; vint 0]].

(** An entry the loops of the exporters pass over: a list with fewer than
    two elements. *)
Definition short_entry (kp : value) : bool :=
  match kp with
  | VList [] | VList [_] => true
  | _ => false
  end.

(** A present keypoint in the sense of the exporters: [len(kp) >= 2]. *)
Definition present_entry (kp : value) : bool :=
  match kp with
  | VList (_ :: _ :: _) => true
  | _ => false
  end.

(** A number that is zero: the int [0], the floats [0.0] and [-0.0]. *)
Definition zero_num (n : num) : bool :=
  match n with
  | NInt z => (z =? 0)%Z
  | NFloat f => PrimFloat.eqb f 0
  end.

(** A stored size that is zero. *)
Definition zero_size (o : option num) : bool :=
  match o with
  | Some n => zero_num n
  | None => false
  end.

(** A number that [float] accepts: a float, or an int within the range of
    a double. *)
Definition in_float_range (n : num) : bool :=
  match to_float n with
  | Ok _ => true
  | Raise _ => false
  end.

(** A dividend with which a division by a zero [d] gets as far as the test
    of the divisor: a number, and not an int beyond the range of a double
    when the zero is a float (the conversion of the dividend comes first
    then). *)
Definition reaches_zero_test (v : value) (d : num) : bool :=
  match v, d with
  | VNum (NInt a), NFloat _ => in_float_range (NInt a)
  | VNum _, _ => true
  | _, _ => false
  end.

(** The two divisions of a keypoint [[kp0, kp1, ...]] end in a division by
    zero: by the width, or by the height after the division by the width
    went through. *)
Definition zero_division (kp0 kp1 : value) (width height : num) : bool :=
  if zero_num width then reaches_zero_test kp0 width
  else
    match py_div kp0 width with
    | Ok _ => zero_num height && reaches_zero_test kp1 height
    | Raise _ => false
    end.

(** A record of width 0 whose first entry is [null]. *)
Definition zero_width_null_first : state :=
  state_of
    (mk_document None
       (Some [mk_annotation "a.jpg" (Some (NInt 0)) (Some (NInt 100))
                [VNone; VList [vint 1; vint 1]]]))
    ["a.jpg"] 0 (Some (InData 0)) ModeMove Standard.

(** A record of width 0 between two sound records: an empty entry, a
    keypoint whose [y] is [null], and a [null] entry behind it. *)
Definition zero_width_middle : list annotation :=
  [record_of "a.jpg" [VList [vint 50; vint 50]];
   mk_annotation "b.jpg" (Some (NInt 0)) (Some (NInt 100))
     [VList []; VList [vint 1; VNone]; VNone];
   record_of "c.jpg" [VList [vint 10; vint 20]]].

(** The double nearest to a number. *)
Definition as_float (n : num) : float :=
  match n with
  | NInt z => SF2Prim (SpecFloat.binary_normalize prec emax z 0 false)
  | NFloat f => f
  end.

(** The kinds of float that [int] does not truncate. *)
Definition infinite_float (f : float) : bool :=
  match Prim2SF f with
  | S754_infinity _ => true
  | _ => false
  end.

Definition nan_float (f : float) : bool :=
  match Prim2SF f with
  | S754_nan => true
  | _ => false
  end.

(** The truncation of a finite float toward zero. *)
Definition truncate (f : float) : Z :=
  match int_of_float f with
  | Ok z => z
  | Raise _ => 0%Z
  end.

(** What validation of one copied entry amounts to, case by case: an entry
    with two numeric coordinates is kept, with the coordinates as floats,
    with its third element (when it has one) as an int, and otherwise with
    the default visibility in COCO mode and as a bare pair in standard
    mode; every other entry becomes [None], among them the entry whose
    third element is a NaN. *)
Definition validated_entry (fmt : format_mode_t) (dv : Z) (kp : value) : value :=
  match kp with
  | VList (VNum x :: VNum y :: rest) =>
      let fx := vfloat (as_float x) in
      let fy := vfloat (as_float y) in
      match rest with
      | [] =>
          match fmt with
          | Coco => VList [fx; fy; vint dv]
          | Standard => VList [fx; fy]
          end
      | VNum (NInt v) :: _ => VList [fx; fy; vint v]
      | VNum (NFloat f) :: _ =>
          if nan_float f then VNone else VList [fx; fy; vint (truncate f)]
      | _ :: _ => VNone
      end
  | _ => VNone
  end.

(** The entries on which the validation does not come to an end: a
    coordinate that is an int beyond the range of a double (looked at from
    left to right, as long as what comes before is a number), or, behind
    two coordinates that convert, a third element that is an infinite
    float.  [float] and [int] raise [OverflowError] on them. *)
Definition copy_overflows (kp : value) : bool :=
  match kp with
  | VList (VNum x :: VNum y :: rest) =>
      negb (in_float_range x) || negb (in_float_range y)
      || match rest with
         | VNum (NFloat f) :: _ => infinite_float f
         | _ => false
         end
  | VList (VNum x :: _ :: _) => negb (in_float_range x)
  | _ => false
  end.

(** The record of the image before the current one, as
    [copy_from_previous_frame] looks it up. *)
Definition previous_record (find : string -> state -> option nat)
    (st : state) : option annotation :=
  prev_image_path ← image_list st !! (current_image_index st - 1)%nat;
  find prev_image_path st ≫= record_at st.

(** Two images, the first one annotated with [prev]; the second image is on
    display with the keypoints [cur]. *)
Definition two_frames (prev cur : list value) (fmt : format_mode_t) : state :=
  state_of
    (mk_document None
       (Some [record_of "f1.jpg" prev; record_of "f2.jpg" cur]))
    ["f1.jpg"; "f2.jpg"] 1 (Some (InData 1)) ModeMove fmt.

(** A previous frame with a negative coordinate, a [null], an entry whose
    [y] is no number, an entry with a float visibility and an entry that is
    too short. *)
Definition copy_source : list value :=
  [VList [vint (-5); vint 3]; VNone; VList [vint 1; VNone];
   VList [vint 2; vfloat 2.5; vfloat 1.5]; VList [vint 4]].

Definition copy_frames (fmt : format_mode_t) : state :=
  two_frames copy_source [] fmt.

(** Two images of which only the second has a record; one undone edit is
    waiting on the redo stack. *)
Definition no_previous_record : state :=
  set_redo_stack [[VList [vint 7; vint 7]]]
    (state_of (mk_document None (Some [record_of "f2.jpg" []]))
       ["f1.jpg"; "f2.jpg"] 1 (Some (InData 0)) ModeMove Standard).

(** A keypoint with visibility 1 (occluded), selected for a move in COCO
    mode. *)
Definition occluded_selected : state :=
  set_selected_keypoint (Some 0%nat)
    (state_of
       (mk_document None
          (Some [record_of "f1.jpg" [VList [vint 10; vint 10; vint 1];
                                     VList [vint 20; vint 20; vint 2]]]))
       ["f1.jpg"] 0 (Some (InData 0)) ModeMove Coco).

(** The document with the two counters of its [info] object brought up to
    date: [num_images] is the number of records and, when there is a record,
    [num_keypoints] is the largest keypoint-list length.  A document
    without an [info] object is left as it is. *)
Definition refresh_info (d : document) : document :=
  match info d, annotations d with
  | Some inf, Some anns =>
      mk_document
        (Some (mk_info (Some (Z.of_nat (length anns)))
                 (match anns with
                  | [] => num_keypoints inf
                  | _ => Some (Z.of_nat (max_keypoints anns))
                  end)
                 (info_rest inf)))
        (Some anns)
  | _, _ => d
  end.

(** Saving raises [KeyError] exactly on a document that has an [info]
    object and no [annotations] key. *)
Definition saveable (d : document) : bool :=
  match info d, annotations d with
  | Some _, None => false
  | _, _ => true
  end.

(** A freshly started application: nothing loaded, no image on display. *)
Definition fresh_state : state :=
  mk_state None [] None None [] [] 0 None None None [] [] None ModeMove
    Standard 2 2 false false 1.

(** A document whose counters are out of date: one record with a present, an
    absent and a visibility-tagged keypoint, and [num_images] still 0. *)
Definition stale_document : document :=
  mk_document (Some (mk_info (Some 0%Z) (Some 0%Z) []))
    (Some [record_of "a.jpg"
             [VList [vint 1; vint 2]; VNone; VList [vint 3; vint 4; vint 1]]]).

Definition stale_state : state :=
  state_of stale_document ["a.jpg"] 0 (Some (InData 0)) ModeMove Standard.

(** Every entry of the lookup dict refers to a record of the document. *)
Definition dict_wf (st : state) : Prop :=
  forall key i,
    dict_get (annotation_dict st) key = Some i ->
    (i < length (doc_annotations (annotations_data st)))%nat.

(** E2E scenario D: five images, the third one on display with two
    keypoints; the first three images have records. *)
Definition scenario_D_keypoints : list value :=
  [VList [vint 10; vint 20]; VList [vint 30; vint 40]].

Definition scenario_D_state : state :=
  state_of
    (mk_document None
       (Some [record_of "f0.jpg" []; record_of "f1.jpg" [];
              record_of "f2.jpg" scenario_D_keypoints]))
    ["f0.jpg"; "f1.jpg"; "f2.jpg"; "f3.jpg"; "f4.jpg"] 2 (Some (InData 2))
    ModeMove Standard.

(** The dict after the [else] branch of the batch lookup has entered the new
    record [n] under the two paths of its image. *)
Definition batch_dict (d : list (string * nat)) (amp irp : option string)
    (n : nat) : list (string * nat) :=
  let d := if truthy_path amp then dict_set d (default "" amp) n else d in
  if truthy_path irp then dict_set d (default "" irp) n else d.



(** ** Edit sessions (for the undo/redo properties)

    One discrete user action of V2: a click in add or delete mode, a move
    gesture (a click in move mode, the drag events, the release), the clear
    command, the copy-from-previous command. *)
Inductive edit_op : Type :=
| OpAdd (canvas_x canvas_y : float)
| OpDelete (canvas_x canvas_y : float)
| OpMove (canvas_x canvas_y : float) (drags : list (float * float))
| OpClear
| OpCopyFromPrevious.

Definition drag_all (drags : list (float * float)) (st : state) : state :=
  foldl (fun s d => fst (on_canvas_drag (fst d) (snd d) s)) st drags.

Definition v2_apply (op : edit_op) (st : state) : state :=
  match op with
  | OpAdd x y => fst (V2.on_canvas_click x y (fst (set_mode ModeAdd st)))
  | OpDelete x y => fst (V2.on_canvas_click x y (fst (set_mode ModeDelete st)))
  | OpMove x y drags =>
      fst (on_canvas_release
             (drag_all drags
                (fst (V2.on_canvas_click x y (fst (set_mode ModeMove st))))))
  | OpClear => fst (clear_keypoints st)
  | OpCopyFromPrevious => fst (V2.copy_from_previous_frame st)
  end.

Definition v2_run (ops : list edit_op) (st : state) : state :=
  foldl (fun s op => v2_apply op s) st ops.

Definition undo_times (n : nat) (st : state) : state :=
  Nat.iter n (fun s => fst (undo_action s)) st.

Definition redo_times (n : nat) (st : state) : state :=
  Nat.iter n (fun s => fst (redo_action s)) st.

(** The undo stack after [save_state] has pushed [k]. *)
Definition pushed (undo : list (list value)) (k : list value)
  : list (list value) :=
  if (max_history <? length (undo ++ [k]))%nat then drop 1 (undo ++ [k])
  else undo ++ [k].

(** An action left keypoints and both stacks alone. *)
Definition untouched (s s' : state) : Prop :=
  cur_record s' = cur_record s
  /\ undo_stack s' = undo_stack s
  /\ redo_stack s' = redo_stack s.

(** An action pushed exactly one snapshot, of the keypoints it found, and
    then possibly replaced the keypoints. *)
Definition snapshot_taken (s s' : state) : Prop :=
  exists a k',
    cur_record s = Some a
    /\ cur_record s' = Some (with_keypoints k' a)
    /\ undo_stack s' = pushed (undo_stack s) (keypoints a)
    /\ redo_stack s' = [].

(** The keypoints, the undo stack and the redo stack, with the two
    history commands acting on them. *)
Definition history : Type := list value * list (list value) * list (list value).

Definition history_of (st : state) : history :=
  (get_keypoints st, undo_stack st, redo_stack st).

Definition h_undo (h : history) : history :=
  let '(k, u, r) := h in
  match pop_last u with
  | Some (u', previous) => (previous, u', r ++ [k])
  | None => h
  end.

Definition h_redo (h : history) : history :=
  let '(k, u, r) := h in
  match pop_last r with
  | Some (r', next) => (next, u ++ [k], r')
  | None => h
  end.

(** What the edit session relies on between two actions: a current record,
    and no drag in progress. *)
Definition at_rest (st : state) : Prop :=
  is_Some (cur_record st) /\ drag_state_saved st = false.

(** Whether a path contains a backslash. *)
Fixpoint has_backslash (s : string) : bool :=
  match s with
  | EmptyString => false
  | String c s' => Ascii.eqb c backslash || has_backslash s'
  end.

(** The two history stacks hold at most [max_history] snapshots between
    them. *)
Definition history_bounded (st : state) : Prop :=
  (length (undo_stack st) + length (redo_stack st) <= max_history)%nat.

(** An entry that needs no conversion for COCO mode: one that is not a
    valid keypoint, or whose third element converts to 0, 1 or 2. *)
Definition coco_ready (kp : value) : bool :=
  match kp with
  | VList [_; _] => false
  | VList (_ :: _ :: kp2 :: _) =>
      match py_int kp2 with
      | Ok vis => bool_decide (vis ∈ [0; 1; 2]%Z)
      | Raise _ => false
      end
  | _ => true
  end.

(** An entry whose third element is an infinite float: [int] raises
    [OverflowError] on it, which no handler of the conversions catches. *)
Definition infinite_visibility (kp : value) : bool :=
  match kp with
  | VList (_ :: _ :: VNum (NFloat f) :: _) => infinite_float f
  | _ => false
  end.

(** The entry as the switch to COCO mode leaves it. *)
Definition made_visible (kp : value) : value :=
  if coco_ready kp then kp
  else match kp with
       | VList (kp0 :: kp1 :: _) => VList [kp0; kp1; vint 2]
       | _ => kp
       end.





(** One image in COCO mode whose record holds an absent entry between two
    keypoints, the last one with a visibility out of range. *)
Definition sparse_keypoints : list value :=
  [VList [vint 10; vint 10]; VNone; VList [vint 40; vint 40; vint 7]].

Definition sparse_state (mode : edit_mode_t) (fmt : format_mode_t) : state :=
  state_of (mk_document None (Some [record_of "f1.jpg" sparse_keypoints]))
    ["f1.jpg"] 0 (Some (InData 0)) mode fmt.

(** The lookup dict after [load_current_image] has entered a new record. *)
Definition created_dict (d : list (string * nat)) (image_path : string)
    (i : nat) : list (string * nat) :=
  let image_rel_path := get_relative_path image_path in
  let rel := default "" image_rel_path in
  let d := if truthy_path image_rel_path then dict_set d rel i else d in
  dict_setdefault d
    (basename (if truthy_path image_rel_path then rel else image_path)) i.

(** The state after [load_current_image] has read the image [image_path]
    of size [w] x [h]. *)
Definition loaded (image_path : string) (w h : Z) (st : state) : state :=
  let st := set_current_image_path (Some image_path) st in
  let st := set_current_image_size (Some (w, h)) st in
  let image_rel_path := get_relative_path image_path in
  let rel := default "" image_rel_path in
  let new_record :=
    mk_annotation (if truthy_path image_rel_path then rel else image_path)
      (Some (NInt w)) (Some (NInt h)) [] in
  let st :=
    if doc_truthy (annotations_data st) then
      match resolve_annotation image_path st with
      | Some i =>
          let st := set_current_annotation (Some (InData i)) st in
          match annotations_data st with
          | Some (mk_document inf (Some l)) =>
              set_annotations_data
                (Some (mk_document inf (Some (alter (with_image rel) i l)))) st
          | _ => st
          end
      | None =>
          let '(st, i) := append_record new_record st in
          let st := set_current_annotation (Some (InData i)) st in
          set_annotation_dict (created_dict (annotation_dict st) image_path i) st
      end
    else set_current_annotation (Some (Temp new_record)) st in
  let st := set_selected_keypoint None st in
  set_redo_stack [] (set_undo_stack [] st).

(** The record carries the path [key] (after normalization), or a path
    whose file name is [key]; a record without a path carries neither. *)
Definition has_path (key : string) (ann : annotation) : bool :=
  match image ann with
  | EmptyString => false
  | ann_path => String.eqb (replace_backslash ann_path) key
  end.

Definition has_file_name (key : string) (ann : annotation) : bool :=
  match image ann with
  | EmptyString => false
  | ann_path => String.eqb (basename (replace_backslash ann_path)) key
  end.

(** The index of the first and of the last element that satisfies [P]. *)
Fixpoint first_index {A} (P : A -> bool) (l : list A) : option nat :=
  match l with
  | [] => None
  | x :: rest => if P x then Some 0%nat else S <$> first_index P rest
  end.

Fixpoint last_index {A} (P : A -> bool) (l : list A) : option nat :=
  match l with
  | [] => None
  | x :: rest =>
      match last_index P rest with
      | Some k => Some (S k)
      | None => if P x then Some 0%nat else None
      end
  end.

(** * Part II: properties of the embedded code *)

(** ** Path matching: proofs *)

Lemma split_slash_nonempty s : split_slash s <> [].
Proof.
  destruct s as [|c s]; simpl; [done|].
  destruct (Ascii.eqb c slash); [done|].
  destruct (split_slash s); done.
Qed.

Lemma split_slash_no_slash s :
  has_slash s = false -> split_slash s = [s].
Proof.
  induction s as [|c s IH]; simpl; [done|].
  intros [Hc Hs]%orb_false_iff. rewrite Hc, (IH Hs). done.
Qed.

Lemma basename_from_no_slash s cur :
  has_slash s = false -> basename_from s cur = cur.
Proof.
  induction s as [|c s IH]; simpl; [done|].
  intros [Hc Hs]%orb_false_iff. rewrite Hc. auto.
Qed.

Lemma basename_from_slash s : forall cur,
  has_slash s = true ->
  exists h t, split_slash s = h :: t /\ t <> [] /\
              last t = Some (basename_from s cur).
Proof.
  induction s as [|c s IH]; simpl; intros cur Hs; [done|].
  destruct (Ascii.eqb c slash) eqn:Hc; simpl in Hs.
  - exists EmptyString, (split_slash s).
    split; [done|]. split; [apply split_slash_nonempty|].
    destruct (has_slash s) eqn:Hs'.
    + destruct (IH s eq_refl) as (h & t & -> & Ht & Hl).
      rewrite <- Hl. destruct t; [done|]. apply last_cons_cons.
    + rewrite split_slash_no_slash, basename_from_no_slash by done. done.
  - destruct (IH cur Hs) as (h & t & -> & Ht & Hl). eauto.
Qed.

(** The basename is the last segment of the split path. *)
Lemma last_split_slash s : last (split_slash s) = Some (basename s).
Proof.
  unfold basename. destruct (has_slash s) eqn:Hs.
  - destruct (basename_from_slash s s Hs) as (h & t & -> & Ht & Hl).
    rewrite <- Hl. destruct t; [done|]. apply last_cons_cons.
  - rewrite split_slash_no_slash, basename_from_no_slash by done. done.
Qed.

Lemma last_drop_nonempty {A} (l : list A) n :
  drop n l <> [] -> last (drop n l) = last l.
Proof.
  revert n. induction l as [|x l IH]; intros [|n]; simpl; try done.
  intros Hne. rewrite (IH n Hne).
  destruct l as [|y l]; [by destruct n|]. by rewrite last_cons_cons.
Qed.

(** Strategy 4 can only succeed when the final segments agree, that is,
    when strategy 2 (equal basenames) has already succeeded. *)
Lemma segment_suffix_match_last ip ap :
  segment_suffix_match ip ap = true -> last ip = last ap.
Proof.
  unfold segment_suffix_match. rewrite existsb_exists.
  intros (i & Hi & Heq). apply in_seq in Hi.
  apply bool_decide_eq_true in Heq.
  assert (Hne : drop i ip <> []).
  { intros H%drop_nil_inv. lia. }
  rewrite <- (last_drop_nonempty ip i Hne), Heq.
  unfold slice_last. apply last_drop_nonempty.
  unfold slice_last in Heq. by rewrite <- Heq.
Qed.

Lemma segment_suffix_match_basename a b :
  segment_suffix_match (split_slash a) (split_slash b) = true ->
  basename a = basename b.
Proof.
  intros H%segment_suffix_match_last.
  rewrite !last_split_slash in H. congruence.
Qed.

Lemma match_annotation_path_sym a b :
  match_annotation_path a b = match_annotation_path b a.
Proof.
  unfold match_annotation_path.
  destruct (truthy_path a) eqn:Ha, (truthy_path b) eqn:Hb; simpl; try done.
  destruct a as [a|]; [|done]. destruct b as [b|]; [|done]. simpl.
  set (na := replace_backslash a). set (nb := replace_backslash b).
  destruct (decide (na = nb)) as [Heq|Hne].
  - rewrite !bool_decide_eq_true_2 by done. done.
  - rewrite (bool_decide_eq_false_2 (na = nb)),
      (bool_decide_eq_false_2 (nb = na)) by congruence.
    destruct (decide (basename na = basename nb)) as [Hb'|Hb'].
    + rewrite !bool_decide_eq_true_2 by done. done.
    + rewrite (bool_decide_eq_false_2 (basename na = basename nb)),
        (bool_decide_eq_false_2 (basename nb = basename na)) by congruence.
      rewrite (orb_comm (endswith nb na)).
      destruct (endswith na nb || endswith nb na); [done|].
      destruct (segment_suffix_match (split_slash na) (split_slash nb)) eqn:E1;
        [by apply segment_suffix_match_basename in E1|].
      destruct (segment_suffix_match (split_slash nb) (split_slash na)) eqn:E2;
        [by apply segment_suffix_match_basename in E2|].
      done.
Qed.

(** C6 (P1): [match_annotation_path] is symmetric in its two arguments,
    whichever rule (exact, basename, suffix, segment-suffix) decides, and the
    two paths of the spec's example match in both directions. *)
Theorem C6_match_annotation_path_symmetric :
  (forall a b : option string,
      match_annotation_path a b = match_annotation_path b a)
  /\ match_annotation_path (Some "frames/x/f1.jpg") (Some "DL/frames/x/f1.jpg")
     = true
  /\ match_annotation_path (Some "DL/frames/x/f1.jpg") (Some "frames/x/f1.jpg")
     = true.
Proof.
  split; [exact match_annotation_path_sym|]. split; vm_compute; reflexivity.
Qed.

(** ** COCO export *)

(** C1 (E2E scenario E), evaluated on the code: exporting the record with
    keypoints [[[1,1,2], null, [3,3,0]]] takes [len(None)], the [TypeError]
    is caught at the operation boundary, an error box is shown and no file
    is written; no flattened array and no [num_keypoints] are emitted. *)
Theorem C1_export_to_coco_null_entry :
  coco_flatten scenario_E_keypoints = Raise TypeError
  /\ forall fs : filesystem,
       export_to_coco (Some "out.json") scenario_E_state fs
       = (fs, Failed "Failed to export to COCO format" TypeError).
Proof. split; [reflexivity|]. intros fs. reflexivity. Qed.

(** With an empty list in place of [null] the entry is skipped and the
    flattened array is the one of the scenario, but [num_keypoints] is
    [len(keypoints)], which counts the skipped entry too. *)
Lemma coco_annotation_short_entry :
  exists e,
    coco_annotation_of (record_of "a.jpg" scenario_E_short_entry) 1 1
    = Ok (Some e)
    /\ ca_keypoints e
       = [NFloat 1; NFloat 1; NInt 2; NFloat 3; NFloat 3; NInt 0]
    /\ ca_num_keypoints e = 3%nat.
Proof. eexists. split; [reflexivity|]. split; reflexivity. Qed.

(** [num_keypoints] is the length of the stored list for every record that
    is exported. *)
Lemma coco_num_keypoints_is_len ann aid iid e :
  coco_annotation_of ann aid iid = Ok (Some e) ->
  ca_num_keypoints e = length (keypoints ann).
Proof.
  unfold coco_annotation_of. intros H.
  destruct (coco_flatten (keypoints ann)) as [[|k ks]|]; simpl in H; try done.
  destruct (coco_coords 0 (keypoints ann)) as [xs|]; simpl in H; try done.
  destruct (coco_coords 1 (keypoints ann)) as [ys|]; simpl in H; try done.
  destruct (py_min_list xs), (py_max_list xs), (py_min_list ys),
    (py_max_list ys); simpl in H; try done.
  repeat match type of H with
         | mbind _ ?r = _ => destruct r; simpl in H; try done
         end.
  by inversion H.
Qed.

(** ** The nearest-keypoint scan of the click handlers *)

Lemma to_float_raises n e : to_float n = Raise e -> e = OverflowError.
Proof.
  destruct n as [z|f]; [|done]. unfold to_float, float_of_int.
  destruct (PrimFloat.is_infinity _); congruence.
Qed.

Lemma py_float_raises v e :
  py_float v = Raise e -> e = TypeError \/ e = OverflowError.
Proof.
  destruct v as [|n|l]; simpl; [intros [= <-]; by left| |intros [= <-]; by left].
  intros H. right. by apply (to_float_raises n).
Qed.

Lemma float_sub_raises x v e :
  float_sub x v = Raise e -> e = TypeError \/ e = OverflowError.
Proof.
  unfold float_sub. destruct (py_float v) as [y|e'] eqn:Hv; [done|].
  simpl. intros [= <-]. by apply (py_float_raises v).
Qed.

Lemma float_square_raises x e :
  float_square x = Raise e -> e = OverflowError.
Proof. unfold float_square. destruct (_ && _); congruence. Qed.

(** The scan raises nothing but [TypeError] and [OverflowError]. *)
Lemma scan_step_raises img_x img_y idx kp acc e :
  scan_step img_x img_y idx kp acc = Raise e ->
  e = TypeError \/ e = OverflowError.
Proof.
  unfold scan_step.
  destruct kp as [|n|[|kp_x [|kp_y l]]]; simpl;
    try (intros [= <-]; by left); try done.
  destruct (float_sub img_x kp_x) as [dx|e1] eqn:Hx; simpl;
    [|intros [= <-]; by apply (float_sub_raises img_x kp_x)].
  destruct (float_square dx) as [dx2|e2] eqn:Hx2; simpl;
    [|intros [= <-]; right; by apply (float_square_raises dx)].
  destruct (float_sub img_y kp_y) as [dy|e3] eqn:Hy; simpl;
    [|intros [= <-]; by apply (float_sub_raises img_y kp_y)].
  destruct (float_square dy) as [dy2|e4] eqn:Hy2; simpl;
    [|intros [= <-]; right; by apply (float_square_raises dy)].
  by destruct (_ && _).
Qed.

Lemma nearest_scan_raises img_x img_y kps : forall idx acc e,
  nearest_scan img_x img_y kps idx acc = Raise e ->
  e = TypeError \/ e = OverflowError.
Proof.
  induction kps as [|kp kps IH]; intros idx acc e; [done|].
  simpl. destruct (scan_step img_x img_y idx kp acc) as [acc'|e'] eqn:Hstep;
    simpl.
  - apply IH.
  - intros [= <-]. by apply (scan_step_raises _ _ _ _ _ _ Hstep).
Qed.

(** The scan has no [break]: with a [None] in the list it does not
    return. *)
Lemma nearest_scan_null img_x img_y kps : forall idx acc,
  VNone ∈ kps ->
  exists e, nearest_scan img_x img_y kps idx acc = Raise e.
Proof.
  induction kps as [|kp kps IH]; intros idx acc Hin.
  - by apply elem_of_nil in Hin.
  - simpl. destruct (scan_step img_x img_y idx kp acc) as [acc'|e] eqn:Hstep.
    + simpl. apply IH. apply elem_of_cons in Hin as [<-|Hin]; [done|done].
    + by exists e.
Qed.

(** When the entries in front of a [None] are scanned without an
    exception, [len(None)] is evaluated. *)
Lemma nearest_scan_reaches_null img_x img_y before after : forall idx acc r,
  nearest_scan img_x img_y before idx acc = Ok r ->
  nearest_scan img_x img_y (before ++ VNone :: after) idx acc
  = Raise TypeError.
Proof.
  induction before as [|kp before IH]; intros idx acc r; [done|].
  simpl. destruct (scan_step img_x img_y idx kp acc) as [acc'|e]; [|done].
  simpl. apply IH.
Qed.

(** C9, as the code has it: on a record whose keypoint list holds a [None]
    entry, a click in move mode or in delete mode does not come back from
    the scan: an exception leaves the handler, in V1 and in V2 alike, and
    nothing is selected or deleted.  The exception is a [TypeError] or an
    [OverflowError]; it is the [TypeError] of [len(None)] whenever the
    entries in front of the first [None] are scanned without an
    exception. *)
Theorem C9_click_scan_raises_on_null (st : state) (a : annotation)
    (canvas_x canvas_y : float) :
  cur_record st = Some a ->
  VNone ∈ keypoints a ->
  PrimFloat.leb (scale_factor st) 0 = false ->
  edit_mode st = ModeMove \/ edit_mode st = ModeDelete ->
  exists e : exn,
    V1.on_canvas_click canvas_x canvas_y st = (st, Uncaught e)
    /\ V2.on_canvas_click canvas_x canvas_y st = (st, Uncaught e)
    /\ (e = TypeError \/ e = OverflowError)
    /\ (forall (before after : list value) (r : option nat),
          keypoints a = before ++ VNone :: after ->
          find_nearest_click (to_image canvas_x st) (to_image canvas_y st)
            before = Ok r ->
          e = TypeError).
Proof.
  intros Hcur Hin Hscale Hmode.
  destruct (nearest_scan_null (to_image canvas_x st) (to_image canvas_y st)
              (keypoints a) 0 (infinity, None) Hin) as [e He].
  exists e.
  unfold V1.on_canvas_click, V2.on_canvas_click, click_move, click_delete,
    find_nearest_click, get_keypoints.
  rewrite Hcur, Hscale.
  split; [|split; [|split]].
  - destruct Hmode as [-> | ->]; by rewrite He.
  - destruct Hmode as [-> | ->]; by rewrite He.
  - by apply (nearest_scan_raises _ _ _ _ _ _ He).
  - intros before after r Hk Hbefore. rewrite Hk in He.
    rewrite (nearest_scan_reaches_null _ _ _ _ _ _ _ Hbefore) in He.
    congruence.
Qed.

Lemma C9_click_scan_raises_on_null_witness :
  V1.on_canvas_click 3 4 scenario_E_state
  = (scenario_E_state, Uncaught TypeError)
  /\ V2.on_canvas_click 3 4 scenario_E_state
     = (scenario_E_state, Uncaught TypeError).
Proof.
  destruct (C9_click_scan_raises_on_null scenario_E_state
              (record_of "a.jpg" scenario_E_keypoints) 3 4)
    as (e & H1 & H2 & _ & He).
  - reflexivity.
  - simpl. do 2 constructor.
  - reflexivity.
  - left. reflexivity.
  - rewrite (He [VList [vint 1; vint 1; vint 2]]
               [VList [vint 3; vint 3; vint 0]] (Some 0%nat))
      in H1, H2 by reflexivity.
    exact (conj H1 H2).
Defined.

(** The claim as stated does not hold for every such record: the scan can
    stop before it gets to [len(None)].  With the keypoints
    [[[1e200, 0], None]] the square of the difference is beyond the range of
    a double, and with [[[10**400, 0], None]] the int cannot be converted;
    both clicks end in [OverflowError], not in [TypeError]. *)
Lemma C9_counterexample_overflow_before_null :
  VNone ∈ overflow_before_null
  /\ V1.on_canvas_click 0 0 (overflow_state overflow_before_null)
     = (overflow_state overflow_before_null, Uncaught OverflowError)
  /\ V2.on_canvas_click 0 0 (overflow_state overflow_before_null)
     = (overflow_state overflow_before_null, Uncaught OverflowError)
  /\ VNone ∈ huge_int_before_null
  /\ V1.on_canvas_click 0 0 (overflow_state huge_int_before_null)
     = (overflow_state huge_int_before_null, Uncaught OverflowError)
  /\ V2.on_canvas_click 0 0 (overflow_state huge_int_before_null)
     = (overflow_state huge_int_before_null, Uncaught OverflowError)
  /\ Uncaught OverflowError <> Uncaught TypeError.
Proof.
  split; [do 2 constructor|]. split; [reflexivity|]. split; [reflexivity|].
  split; [do 2 constructor|]. split; [reflexivity|]. split; [reflexivity|].
  discriminate.
Qed.

(** ** YOLO export *)

Lemma yolo_records_app labels_dir before : forall rest fs exported,
  yolo_records labels_dir (before ++ rest) fs exported
  = match yolo_records labels_dir before fs exported with
    | (fs1, Ok n1) => yolo_records labels_dir rest fs1 n1
    | (fs1, Raise e) => (fs1, Raise e)
    end.
Proof.
  induction before as [|ann before IH]; intros rest fs exported; [done|].
  rewrite <- app_comm_cons. cbn [yolo_records].
  destruct (image ann) as [|c s]; [apply IH|].
  destruct (keypoints ann) as [|kp kps]; [apply IH|].
  match goal with
  | |- context [yolo_line ?k ?w ?h] => destruct (yolo_line k w h)
  end; [apply IH|done].
Qed.

(** The arithmetic of the model on inputs whose Python results are known:
    [1 / 3], [-7 / 2], [0 / -5], [10**400 / 10**399], [10**400 / 5],
    [1 / 10**400], [5 / 0], [10**400 / 0.0], [float(2**53 + 1)],
    [float(10**400)], [int(-2.5)], [int(float('inf'))], [int(float('nan'))],
    [1e200 ** 2] and [2**53 + 1 > float(2**53)]. *)
Lemma python_arithmetic_examples :
  int_true_divide 1 3 = Ok 0x1.5555555555555p-2%float
  /\ int_true_divide (-7) 2 = Ok (-3.5)%float
  /\ int_true_divide 0 (-5) = Ok (-0)%float
  /\ int_true_divide (10 ^ 400) (10 ^ 399) = Ok 10%float
  /\ int_true_divide (10 ^ 400) 5 = Raise OverflowError
  /\ int_true_divide 1 (10 ^ 400) = Ok 0%float
  /\ py_div (vint 5) (NInt 0) = Raise ZeroDivisionError
  /\ py_div (vint (10 ^ 400)) (NFloat 0) = Raise OverflowError
  /\ float_of_int (2 ^ 53 + 1) = Ok 9007199254740992%float
  /\ float_of_int (10 ^ 400) = Raise OverflowError
  /\ int_of_float (-2.5)%float = Ok (-2)%Z
  /\ int_of_float infinity = Raise OverflowError
  /\ int_of_float nan = Raise ValueError
  /\ float_square 0x1.4e718d7d7625ap+664%float = Raise OverflowError
  /\ num_ltb (NFloat 9007199254740992) (NInt (2 ^ 53 + 1)) = true.
Proof. repeat split; reflexivity. Qed.

Lemma float_true_divide_zero x y :
  PrimFloat.eqb y 0 = true ->
  float_true_divide x y = Raise ZeroDivisionError.
Proof. unfold float_true_divide. by intros ->. Qed.

(** A division by a zero raises [ZeroDivisionError] as soon as its
    dividend gets to the test of the divisor. *)
Lemma py_div_zero v d :
  zero_num d = true ->
  reaches_zero_test v d = true ->
  py_div v d = Raise ZeroDivisionError.
Proof.
  destruct v as [|[a|x]|l], d as [b|y]; simpl; try done.
  - intros Hz _. unfold int_true_divide. by rewrite Hz.
  - intros Hz Hr. unfold in_float_range in Hr. simpl in Hr.
    destruct (float_of_int a) as [fa|]; [|done]. simpl.
    by apply float_true_divide_zero.
  - intros Hz _. apply Z.eqb_eq in Hz as ->. reflexivity.
  - intros Hz _. by apply float_true_divide_zero.
Qed.

Lemma zero_division_raises kp0 kp1 w h :
  zero_division kp0 kp1 w h = true ->
  (x_norm ← py_div kp0 w; y_norm ← py_div kp1 h; Ok [x_norm; y_norm])
  = Raise ZeroDivisionError.
Proof.
  unfold zero_division. destruct (zero_num w) eqn:Hw.
  - intros Hr. by rewrite (py_div_zero kp0 w).
  - destruct (py_div kp0 w) as [x_norm|]; [|done]. simpl.
    intros [Hh Hr]%andb_true_iff. by rewrite (py_div_zero kp1 h).
Qed.

(** With a zero width or height the label line fails at the first keypoint
    of two or more elements, provided the loop gets that far. *)
Lemma yolo_line_zero skipped kp0 kp1 more rest w h :
  forallb short_entry skipped = true ->
  zero_division kp0 kp1 w h = true ->
  yolo_line (skipped ++ VList (kp0 :: kp1 :: more) :: rest) w h
  = Raise ZeroDivisionError.
Proof.
  intros Hshort Hz. induction skipped as [|kp skipped IH].
  - cbn [app yolo_line py_len length]. cbn [mbind result_bind Nat.leb].
    by rewrite (zero_division_raises kp0 kp1 w h Hz).
  - simpl in Hshort. apply andb_true_iff in Hshort as [Hkp Hshort].
    rewrite <- app_comm_cons. cbn [yolo_line].
    destruct kp as [|n|[|k0 [|k1 l]]]; try done; simpl; by rewrite IH.
Qed.

(** C10, as the code has it: when the records before it are exported
    without an exception, a record with a file path whose label loop gets
    to a division by a zero width or height makes [export_to_yolo] fail
    with [ZeroDivisionError].  The loop gets there when the entries in front
    of the record's first keypoint of two or more elements are lists, and
    the division of that keypoint ends at the zero ([zero_division]).  The
    error is caught at the operation boundary; the label files of the
    earlier records stay written, the record's own label file is left
    empty, and no later record is looked at. *)
Theorem C10_yolo_zero_size_aborts (st : state) (fs fs1 : filesystem)
    (dir : string) (before after : list annotation) (r : annotation)
    (n1 : nat) (skipped : list value) (kp0 kp1 : value)
    (more rest : list value) :
  doc_truthy (annotations_data st) = true ->
  doc_annotations (annotations_data st) = before ++ r :: after ->
  dir <> "" ->
  yolo_records (os_path_join dir "labels") before fs 0 = (fs1, Ok n1) ->
  image r <> "" ->
  keypoints r = skipped ++ VList (kp0 :: kp1 :: more) :: rest ->
  forallb short_entry skipped = true ->
  zero_division kp0 kp1 (default (NInt 1) (width r))
    (default (NInt 1) (height r)) = true ->
  export_to_yolo (Some dir) st fs
  = (<[yolo_label_file (os_path_join dir "labels") (image r)
       := YoloLabel []]> fs1,
     Failed "Failed to export to YOLO format" ZeroDivisionError).
Proof.
  intros Hdoc Hanns Hdir Hbefore Himg Hkps Hshort Hzero.
  pose proof (yolo_line_zero skipped kp0 kp1 more rest _ _ Hshort Hzero)
    as Hline.
  rewrite <- Hkps in Hline.
  unfold export_to_yolo. rewrite Hdoc. cbn [negb].
  destruct dir as [|c dir]; [done|].
  rewrite Hanns, yolo_records_app, Hbefore. cbn [yolo_records].
  destruct (image r) as [|ci si] eqn:Hi; [done|].
  destruct (keypoints r) as [|kp kps] eqn:Hk.
  { by destruct skipped. }
  by rewrite Hline.
Qed.

Lemma C10_yolo_zero_size_aborts_witness :
  export_to_yolo (Some "out")
    (state_of (mk_document None (Some zero_width_middle))
       ["a.jpg"; "b.jpg"; "c.jpg"] 0 (Some (InData 0)) ModeMove Standard) ∅
  = (<[ "out/labels/b.txt" := YoloLabel [] ]>
       (<[ "out/labels/a.txt" := YoloLabel [[0.5; 0.5]%float] ]> ∅),
     Failed "Failed to export to YOLO format" ZeroDivisionError).
Proof.
  apply (C10_yolo_zero_size_aborts _ ∅ _ "out"
           [record_of "a.jpg" [VList [vint 50; vint 50]]]
           [record_of "c.jpg" [VList [vint 10; vint 20]]]
           (mk_annotation "b.jpg" (Some (NInt 0)) (Some (NInt 100))
              [VList []; VList [vint 1; VNone]; VNone]) 1
           [VList []] (vint 1) VNone [] [VNone]);
    try reflexivity; discriminate.
Defined.

(** The claim as stated does not hold for every such document: with a
    [null] entry in front of the present keypoint the export fails with
    [TypeError], before any division is attempted. *)
Lemma C10_counterexample_null_before_division :
  zero_size (width (mk_annotation "a.jpg" (Some (NInt 0)) (Some (NInt 100))
                      [VNone; VList [vint 1; vint 1]])) = true
  /\ snd (export_to_yolo (Some "out") zero_width_null_first ∅)
     = Failed "Failed to export to YOLO format" TypeError
  /\ snd (export_to_yolo (Some "out") zero_width_null_first ∅)
     <> Failed "Failed to export to YOLO format" ZeroDivisionError.
Proof. split; [reflexivity|]. split; [reflexivity|discriminate]. Qed.

(** ** The current record and its keypoints *)

Lemma cur_record_set_record_keypoints i j kps st :
  doc_annotations (annotations_data (set_record_keypoints i kps st)) !! j
  = (if decide (i = j) then with_keypoints kps else id)
      <$> doc_annotations (annotations_data st) !! j.
Proof.
  unfold set_record_keypoints.
  destruct (annotations_data st) as [[inf [l|]]|] eqn:Hd; simpl;
    rewrite ?Hd; simpl.
  - rewrite list_lookup_alter. case_decide; [by subst|]. by rewrite option_fmap_id.
  - done.
  - done.
Qed.

Lemma cur_record_set_keypoints kps st :
  cur_record (set_keypoints kps st) = with_keypoints kps <$> cur_record st.
Proof.
  unfold cur_record, set_keypoints.
  destruct (current_annotation st) as [[i|a]|] eqn:Hc; simpl.
  - replace (current_annotation (set_record_keypoints i kps st))
      with (Some (InData i)).
    + rewrite cur_record_set_record_keypoints. by rewrite decide_True.
    + unfold set_record_keypoints.
      by destruct (annotations_data st) as [[inf [l|]]|].
  - done.
  - by rewrite Hc.
Qed.

Lemma get_keypoints_set_keypoints kps st :
  is_Some (cur_record st) ->
  get_keypoints (set_keypoints kps st) = kps.
Proof.
  intros [a Ha]. unfold get_keypoints.
  by rewrite cur_record_set_keypoints, Ha.
Qed.

Lemma stacks_set_keypoints kps st :
  undo_stack (set_keypoints kps st) = undo_stack st
  /\ redo_stack (set_keypoints kps st) = redo_stack st.
Proof.
  unfold set_keypoints, set_record_keypoints.
  destruct (current_annotation st) as [[i|a]|]; try done.
  by destruct (annotations_data st) as [[inf [l|]]|].
Qed.

(** ** Moving a keypoint *)

(** C4, evaluated on the code: in COCO mode, dragging a keypoint stored as
    [[10, 10, 1]] to (5, 5) leaves the bare pair [[5.0, 5.0]] in V1 and V2,
    so the visibility 1 is lost; the entry next to it is untouched.  The
    handler of the dual-view application keeps the visibility on the same
    input. *)
Theorem C4_drag_drops_visibility :
  get_keypoints (fst (on_canvas_drag 5 5 occluded_selected))
  = [VList [vfloat 5; vfloat 5]; VList [vint 20; vint 20; vint 2]]
  /\ get_keypoints (fst (Dual.on_canvas_drag 5 5 occluded_selected))
     = [VList [vfloat 5; vfloat 5; vint 1]; VList [vint 20; vint 20; vint 2]].
Proof. split; reflexivity. Qed.

(** What does hold of the move in V1 and V2: the list keeps its length and
    every entry other than the selected one. *)
Lemma on_canvas_drag_frame canvas_x canvas_y st sel j :
  selected_keypoint st = Some sel ->
  j <> sel ->
  get_keypoints (fst (on_canvas_drag canvas_x canvas_y st)) !! j
  = get_keypoints st !! j.
Proof.
  intros Hsel Hj. unfold on_canvas_drag. rewrite Hsel.
  destruct (edit_mode st); try done.
  destruct (PrimFloat.leb (scale_factor st) 0); [done|].
  set (st1 := if drag_state_saved st then st
              else set_drag_state_saved true (save_state st)).
  assert (Hcur : cur_record st1 = cur_record st).
  { unfold st1, save_state. destruct (drag_state_saved st); [done|].
    by destruct (cur_record st) eqn:E. }
  unfold get_keypoints at 2. rewrite <- Hcur.
  destruct (cur_record st1) as [a|] eqn:Ha; [|simpl; unfold get_keypoints; by rewrite Ha].
  destruct (sel <? length (keypoints a))%nat; simpl.
  - unfold get_keypoints.
    replace (cur_record (set_unsaved_changes true (set_keypoints
               (<[sel:=VList [vfloat (to_image canvas_x st1);
                              vfloat (to_image canvas_y st1)]]> (keypoints a))
               st1)))
      with (cur_record (set_keypoints
               (<[sel:=VList [vfloat (to_image canvas_x st1);
                              vfloat (to_image canvas_y st1)]]> (keypoints a))
               st1)) by done.
    rewrite cur_record_set_keypoints, Ha. simpl.
    by rewrite list_lookup_insert_ne.
  - unfold get_keypoints. by rewrite Ha.
Qed.

(** ** Copy from the previous frame *)

(** C3, evaluated on the code: with no record for the previous image, V2's
    [copy_from_previous_frame] shows the warning and leaves the keypoints
    alone, but it has already called [save_state]: the undo stack has grown
    by a snapshot and the redo stack has been emptied.  V1 leaves the whole
    state as it was. *)
Theorem C3_failed_copy_touches_history :
  snd (V2.copy_from_previous_frame no_previous_record)
  = ShowWarning "No annotation found for previous image"
  /\ get_keypoints (fst (V2.copy_from_previous_frame no_previous_record))
     = get_keypoints no_previous_record
  /\ undo_stack no_previous_record = []
  /\ undo_stack (fst (V2.copy_from_previous_frame no_previous_record)) = [[]]
  /\ redo_stack no_previous_record = [[VList [vint 7; vint 7]]]
  /\ redo_stack (fst (V2.copy_from_previous_frame no_previous_record)) = []
  /\ V1.copy_from_previous_frame no_previous_record
     = (no_previous_record,
        ShowWarning "No annotation found for previous image").
Proof. repeat split; reflexivity. Qed.

(** In V1 every failing path of the copy returns the state it was given. *)
Lemma V1_copy_failure_unchanged st st' msg :
  V1.copy_from_previous_frame st = (st', ShowWarning msg)
  \/ V1.copy_from_previous_frame st = (st', ShowInfo msg) ->
  st' = st.
Proof.
  unfold V1.copy_from_previous_frame.
  destruct (cur_record st); [|intros [H|H]; by inversion H].
  destruct (current_image_index st =? 0)%nat;
    [intros [H|H]; by inversion H|].
  destruct (negb (doc_truthy (annotations_data st)));
    [intros [H|H]; by inversion H|].
  destruct (image_list st !! _); [|intros [H|H]; by inversion H].
  destruct (_ ≫= record_at st) as [prev|]; [|intros [H|H]; by inversion H].
  destruct (keypoints prev); intros [H|H]; by inversion H.
Qed.

(** V2 evaluates every entry on its own: an entry is validated, or its
    conversion overflows. *)
Lemma int_of_float_cases f :
  (infinite_float f = true /\ int_of_float f = Raise OverflowError)
  \/ (nan_float f = true /\ infinite_float f = false
      /\ int_of_float f = Raise ValueError)
  \/ (nan_float f = false /\ infinite_float f = false
      /\ int_of_float f = Ok (truncate f)).
Proof.
  unfold infinite_float, nan_float, truncate, int_of_float.
  destruct (Prim2SF f) as [s|s| |s m e]; auto.
Qed.

Lemma in_float_range_as_float n :
  in_float_range n = true -> to_float n = Ok (as_float n).
Proof.
  unfold in_float_range. destruct n as [z|f]; [|done].
  unfold to_float, float_of_int, as_float.
  by destruct (PrimFloat.is_infinity _).
Qed.

Lemma out_of_float_range n :
  in_float_range n = false -> to_float n = Raise OverflowError.
Proof.
  unfold in_float_range. destruct (to_float n) as [f|e] eqn:Hn; [done|].
  intros _. by rewrite (to_float_raises n e Hn).
Qed.

Lemma clean_keypoint_validated st kp :
  copy_overflows kp = false ->
  V2.clean_keypoint st kp
  = Ok (validated_entry (format_mode st) (default_visibility st) kp).
Proof.
  destruct kp as [|n|[|[|x|l0] [|k1 rest]]]; try reflexivity.
  unfold V2.clean_keypoint. cbn [py_float].
  destruct k1 as [|y|l1]; cbn [copy_overflows].
  - intros Hx%negb_false_iff.
    by rewrite (in_float_range_as_float x Hx).
  - intros [[Hx%negb_false_iff Hy%negb_false_iff]%orb_false_iff Hv]%orb_false_iff.
    unfold validated_entry. cbn [py_float].
    rewrite (in_float_range_as_float x Hx), (in_float_range_as_float y Hy).
    cbn [mbind result_bind].
    destruct rest as [|[|[v|f]|l2] rest].
    + by destruct (format_mode st).
    + done.
    + done.
    + cbn [py_int].
      destruct (int_of_float_cases f)
        as [[Hi _]|[(Hn & _ & ->)|(Hn & _ & ->)]]; [congruence| |];
        by rewrite Hn.
    + done.
  - intros Hx%negb_false_iff.
    by rewrite (in_float_range_as_float x Hx).
Qed.

Lemma clean_keypoint_overflows st kp :
  copy_overflows kp = true ->
  V2.clean_keypoint st kp = Raise OverflowError.
Proof.
  destruct kp as [|n|[|[|x|l0] [|k1 rest]]]; try done.
  unfold V2.clean_keypoint. cbn [py_float].
  destruct (in_float_range x) eqn:Hx.
  2:{ intros _. by rewrite (out_of_float_range x Hx). }
  rewrite (in_float_range_as_float x Hx). cbn [mbind result_bind].
  destruct k1 as [|y|l1]; cbn [copy_overflows]; rewrite ?Hx; try done.
  cbn [negb orb py_float].
  destruct (in_float_range y) eqn:Hy.
  2:{ intros _. by rewrite (out_of_float_range y Hy). }
  rewrite (in_float_range_as_float y Hy). cbn [mbind result_bind negb orb].
  destruct rest as [|[|[v|f]|l2] rest]; try done.
  intros Hf. cbn [py_int].
  destruct (int_of_float_cases f)
    as [[_ ->]|[(_ & Hi & _)|(_ & Hi & _)]]; [done| |]; congruence.
Qed.

Lemma clean_keypoints_validated st kps :
  Forall (fun kp => copy_overflows kp = false) kps ->
  V2.clean_keypoints st kps
  = Ok (validated_entry (format_mode st) (default_visibility st) <$> kps).
Proof.
  induction 1 as [|kp kps Hkp _ IH]; [done|].
  simpl. by rewrite (clean_keypoint_validated st kp Hkp), IH.
Qed.

Lemma clean_keypoints_overflows st kps :
  Exists (fun kp => copy_overflows kp = true) kps ->
  V2.clean_keypoints st kps = Raise OverflowError.
Proof.
  induction 1 as [kp kps Hkp|kp kps _ IH].
  - simpl. by rewrite (clean_keypoint_overflows st kp Hkp).
  - simpl. destruct (copy_overflows kp) eqn:Hkp.
    + by rewrite (clean_keypoint_overflows st kp Hkp).
    + rewrite (clean_keypoint_validated st kp Hkp). simpl. by rewrite IH.
Qed.

Lemma save_state_cur st a :
  cur_record st = Some a ->
  cur_record (save_state st) = Some a
  /\ format_mode (save_state st) = format_mode st
  /\ default_visibility (save_state st) = default_visibility st.
Proof.
  intros Ha. unfold save_state. rewrite Ha. done.
Qed.

Lemma previous_record_save_state find st :
  (forall p, find p (save_state st) = find p st) ->
  previous_record find (save_state st) = previous_record find st.
Proof.
  intros Hfind. unfold previous_record.
  replace (image_list (save_state st)) with (image_list st)
    by (unfold save_state; by destruct (cur_record st)).
  replace (current_image_index (save_state st)) with (current_image_index st)
    by (unfold save_state; by destruct (cur_record st)).
  destruct (image_list st !! _) as [p|]; [|done]. simpl.
  rewrite Hfind.
  replace (record_at (save_state st)) with (record_at st); [done|].
  unfold record_at, save_state. by destruct (cur_record st).
Qed.

Lemma V2_find_prev_save_state st p :
  V2.find_prev_annotation p (save_state st) = V2.find_prev_annotation p st.
Proof. unfold save_state. by destruct (cur_record st). Qed.

(** What V2's copy does once its guards have passed and the previous record
    has keypoints. *)
Lemma V2_copy_unfold st a prev :
  cur_record st = Some a ->
  current_image_index st <> 0%nat ->
  doc_truthy (annotations_data st) = true ->
  previous_record V2.find_prev_annotation st = Some prev ->
  keypoints prev <> [] ->
  V2.copy_from_previous_frame st
  = match V2.clean_keypoints (save_state st) (keypoints prev) with
    | Raise e => (save_state st, Uncaught e)
    | Ok cleaned_keypoints =>
        let st' :=
          set_unsaved_changes true
            (set_keypoints cleaned_keypoints (save_state st)) in
        match V2.count_valid (keypoints prev) with
        | Raise e => (st', Uncaught e)
        | Ok _ => (st', Status "Copied keypoints from previous frame")
        end
    end.
Proof.
  intros Ha Hidx Hdoc Hprev Hk.
  rewrite <- (previous_record_save_state _ st (V2_find_prev_save_state st))
    in Hprev.
  unfold V2.copy_from_previous_frame. rewrite Ha.
  apply Nat.eqb_neq in Hidx. rewrite Hidx, Hdoc. cbn [negb].
  unfold previous_record in Hprev.
  destruct (image_list (save_state st) !! _) as [p|]; [|done].
  cbn [mbind option_bind] in Hprev.
  rewrite Hprev.
  by destruct (keypoints prev).
Qed.

(** C5, as the code has it.  Once the guards of the copy have passed and
    the record of the previous image has keypoints, V2 validates every
    copied entry on its own: the destination list is the entry-wise
    validation of the previous list.  An entry that is [None], not a list,
    shorter than two, or whose coordinates (or third element) are not
    numbers becomes [None]; an entry with numeric coordinates is kept
    whatever their sign, with its visibility when it has one, with the
    default visibility when it has none and the mode is COCO, and as a bare
    pair in standard mode.  The validation does not come to an end on an int
    coordinate beyond the range of a double or on an infinite third
    element: the [OverflowError] leaves the handler after the undo snapshot
    and before anything is copied.  V1 copies the list as it is. *)
Theorem C5_copy_validates_entries (st : state) (a prev : annotation) :
  cur_record st = Some a ->
  current_image_index st <> 0%nat ->
  doc_truthy (annotations_data st) = true ->
  keypoints prev <> [] ->
  (previous_record V2.find_prev_annotation st = Some prev ->
   Forall (fun kp => copy_overflows kp = false) (keypoints prev) ->
   get_keypoints (fst (V2.copy_from_previous_frame st))
   = validated_entry (format_mode st) (default_visibility st)
       <$> keypoints prev)
  /\ (previous_record V2.find_prev_annotation st = Some prev ->
      Exists (fun kp => copy_overflows kp = true) (keypoints prev) ->
      V2.copy_from_previous_frame st
      = (save_state st, Uncaught OverflowError))
  /\ (previous_record V1.find_prev_annotation st = Some prev ->
      get_keypoints (fst (V1.copy_from_previous_frame st)) = keypoints prev)
  /\ (forall x y : num,
        validated_entry Coco (default_visibility st) (VList [VNum x; VNum y])
        = VList [vfloat (as_float x); vfloat (as_float y);
                 vint (default_visibility st)]
        /\ validated_entry Standard (default_visibility st)
             (VList [VNum x; VNum y])
           = VList [vfloat (as_float x); vfloat (as_float y)])
  /\ (forall (fmt : format_mode_t) (n : num) (c : value),
        validated_entry fmt (default_visibility st) VNone = VNone
        /\ validated_entry fmt (default_visibility st) (VNum n) = VNone
        /\ validated_entry fmt (default_visibility st) (VList []) = VNone
        /\ validated_entry fmt (default_visibility st) (VList [c]) = VNone)
  /\ (forall (fmt : format_mode_t) (c : value) (rest : list value),
        (forall n, c <> VNum n) ->
        validated_entry fmt (default_visibility st)
          (VList (c :: vint 0 :: rest)) = VNone
        /\ validated_entry fmt (default_visibility st)
             (VList (vint 0 :: c :: rest)) = VNone
        /\ validated_entry fmt (default_visibility st)
             (VList [vint 0; vint 0; c]) = VNone).
Proof.
  intros Ha Hidx Hdoc Hk.
  destruct (save_state_cur st a Ha) as [Hc [Hfmt Hdv]].
  split; [|split; [|split; [|split; [|split]]]].
  - intros Hprev Hall.
    rewrite (V2_copy_unfold st a prev Ha Hidx Hdoc Hprev Hk).
    rewrite (clean_keypoints_validated _ _ Hall), Hfmt, Hdv. cbv zeta.
    assert (get_keypoints
              (set_unsaved_changes true
                 (set_keypoints
                    (validated_entry (format_mode st) (default_visibility st)
                       <$> keypoints prev) (save_state st)))
            = validated_entry (format_mode st) (default_visibility st)
                <$> keypoints prev) as Hget.
    { change (get_keypoints (set_unsaved_changes true ?x))
        with (get_keypoints x).
      apply get_keypoints_set_keypoints. rewrite Hc. by eexists. }
    by destruct (V2.count_valid (keypoints prev)).
  - intros Hprev Hex.
    rewrite (V2_copy_unfold st a prev Ha Hidx Hdoc Hprev Hk).
    by rewrite (clean_keypoints_overflows _ _ Hex).
  - intros Hprev. unfold V1.copy_from_previous_frame. rewrite Ha.
    apply Nat.eqb_neq in Hidx. rewrite Hidx, Hdoc. cbn [negb].
    unfold previous_record in Hprev.
    destruct (image_list st !! _) as [p|]; [|done].
    simpl in Hprev. rewrite Hprev.
    destruct (keypoints prev) as [|kp kps] eqn:Hkps; [done|].
    cbn [fst].
    change (get_keypoints (set_unsaved_changes true ?x))
      with (get_keypoints x).
    apply get_keypoints_set_keypoints. rewrite Ha. by eexists.
  - done.
  - intros fmt n c. by destruct c as [|m|l].
  - intros fmt c rest Hc'.
    destruct c as [|n|l]; try done. by destruct (Hc' n).
Qed.

Lemma C5_copy_validates_entries_witness :
  get_keypoints (fst (V2.copy_from_previous_frame (copy_frames Coco)))
  = [VList [vfloat (-5); vfloat 3; vint 2]; VNone; VNone;
     VList [vfloat 2; vfloat 2.5; vint 1]; VNone]
  /\ get_keypoints (fst (V1.copy_from_previous_frame (copy_frames Coco)))
     = copy_source.
Proof.
  destruct (C5_copy_validates_entries (copy_frames Coco)
              (record_of "f2.jpg" []) (record_of "f1.jpg" copy_source))
    as (H2 & _ & H1 & _);
    [reflexivity|discriminate|reflexivity|discriminate|].
  split.
  - rewrite H2; [reflexivity|reflexivity|].
    repeat constructor.
  - rewrite H1; reflexivity.
Defined.

(** The claim as stated fails on an entry with a negative coordinate: V2
    copies [[-5, 3]] as [[-5.0, 3.0]] in standard mode, it does not make it
    [None]; V1 copies the entry as it is. *)
Lemma C5_counterexample_negative_kept :
  get_keypoints
    (fst (V2.copy_from_previous_frame
            (two_frames [VList [vint (-5); vint 3]] [] Standard)))
  = [VList [vfloat (-5); vfloat 3]]
  /\ get_keypoints
       (fst (V1.copy_from_previous_frame
               (two_frames [VList [vint (-5); vint 3]] [] Standard)))
     = [VList [vint (-5); vint 3]].
Proof. split; reflexivity. Qed.

(** ** Undo and redo *)

(** C2, evaluated on the code: V1's [copy_from_previous_frame] overwrites
    the keypoints without a call of [save_state].  After the copy the undo
    stack is still empty, [undo_action] reports that there is nothing to
    undo, and the list is the copied one, not the original [[9, 9]].  V2
    takes the snapshot, and one undo restores the original. *)
Theorem C2_v1_copy_is_not_undoable :
  let st := two_frames [VList [vint 1; vint 1]] [VList [vint 9; vint 9]]
              Standard in
  let v1 := fst (V1.copy_from_previous_frame st) in
  let v2 := fst (V2.copy_from_previous_frame st) in
  get_keypoints st = [VList [vint 9; vint 9]]
  /\ get_keypoints v1 = [VList [vint 1; vint 1]]
  /\ undo_stack v1 = []
  /\ undo_action v1 = (v1, Status "Nothing to undo")
  /\ undo_stack v2 = [[VList [vint 9; vint 9]]]
  /\ get_keypoints (fst (undo_action v2)) = [VList [vint 9; vint 9]].
Proof. repeat split; reflexivity. Qed.

(** ** Native save and load *)

Lemma update_info_refresh d :
  saveable d = true -> update_info d = Ok (refresh_info d).
Proof.
  unfold saveable, update_info, refresh_info.
  destruct d as [[inf|] [anns|]]; simpl; try done.
Qed.

Lemma refresh_info_annotations d : annotations (refresh_info d) = annotations d.
Proof. unfold refresh_info. by destruct d as [[inf|] [anns|]]. Qed.

Lemma refresh_info_idem d : refresh_info (refresh_info d) = refresh_info d.
Proof.
  unfold refresh_info. destruct d as [[inf|] [anns|]]; simpl; try done.
  by destruct anns.
Qed.

Lemma refresh_info_no_info d : info d = None -> refresh_info d = d.
Proof. unfold refresh_info. by intros ->. Qed.

(** C7 (P4), as the code has it: a native save writes the document with the
    counters of its [info] object recomputed, and that is also what it
    leaves in memory; loading the saved file in a freshly started
    application yields exactly this document.  Its records, with every
    present, absent and visibility-tagged keypoint, are those of the
    original; saving it again changes nothing, and a document without an
    [info] object is read back as it was. *)
Theorem C7_save_then_load (st : state) (fs : filesystem) (d : document)
    (path : string) (dialog : option string) (disk : string -> image_file) :
  annotations_data st = Some d ->
  doc_truthy (Some d) = true ->
  saveable d = true ->
  annotation_file st = Some path ->
  path <> "" ->
  let '(st', fs', r) := V1.save_annotations dialog st fs in
  r = ShowInfo "Annotations saved successfully!"
  /\ json_load fs' path = Ok (refresh_info d)
  /\ annotations_data st' = Some (refresh_info d)
  /\ annotations_data
       (fst (V1.import_annotations (Some path) fs' disk fresh_state))
     = Some (refresh_info d)
  /\ annotations (refresh_info d) = annotations d
  /\ refresh_info (refresh_info d) = refresh_info d
  /\ (info d = None -> refresh_info d = d).
Proof.
  intros Hd Htruthy Hsave Hfile Hpath.
  unfold V1.save_annotations. rewrite Hd, Htruthy, Hfile. cbn [negb].
  destruct path as [|c path]; [done|]. cbn [truthy_path].
  rewrite (update_info_refresh d Hsave).
  assert (Hload : json_load (<[String c path := NativeJson (refresh_info d)]> fs)
                    (String c path) = Ok (refresh_info d)).
  { unfold json_load. by rewrite lookup_insert_eq. }
  split; [done|]. split; [done|]. split; [done|]. split.
  - unfold V1.import_annotations. by rewrite Hload.
  - split; [apply refresh_info_annotations|].
    split; [apply refresh_info_idem|apply refresh_info_no_info].
Qed.

Lemma C7_save_then_load_witness :
  let '(st', fs', r) := V1.save_annotations None stale_state ∅ in
  r = ShowInfo "Annotations saved successfully!"
  /\ json_load fs' "ann.json" = Ok (refresh_info stale_document)
  /\ annotations_data st' = Some (refresh_info stale_document)
  /\ annotations_data
       (fst (V1.import_annotations (Some "ann.json") fs' (fun _ => Missing)
               fresh_state))
     = Some (refresh_info stale_document)
  /\ annotations (refresh_info stale_document) = annotations stale_document
  /\ refresh_info (refresh_info stale_document) = refresh_info stale_document
  /\ (info stale_document = None -> refresh_info stale_document = stale_document).
Proof.
  apply (C7_save_then_load stale_state ∅ stale_document "ann.json" None
           (fun _ => Missing)); try reflexivity. discriminate.
Defined.

(** The claim as stated fails when the counters are out of date: the
    document loaded back has [num_images = 1] and [num_keypoints = 3], the
    original has 0 and 0. *)
Lemma C7_counterexample_stale_counters :
  let '(st', fs', _) := V1.save_annotations None stale_state ∅ in
  json_load fs' "ann.json"
  = Ok (mk_document (Some (mk_info (Some 1%Z) (Some 3%Z) []))
          (annotations stale_document))
  /\ json_load fs' "ann.json" <> Ok stale_document.
Proof. split; [reflexivity|]. discriminate. Qed.

(** ** Batch copy *)

Lemma dict_get_set {V} (d : list (string * V)) k v k' :
  dict_get (dict_set d k v) k'
  = if decide (k = k') then Some v else dict_get d k'.
Proof.
  induction d as [|[k0 w] d IH]; simpl.
  - destruct (String.eqb_spec k k'); by case_decide.
  - destruct (String.eqb_spec k0 k) as [->|Hk0]; simpl.
    + destruct (String.eqb_spec k k'); by case_decide.
    + destruct (String.eqb_spec k0 k') as [->|Hk0'].
      * by rewrite decide_False by congruence.
      * apply IH.
Qed.


Lemma dict_key_None {V} (d : list (string * V)) o :
  truthy_path o = true -> dict_key d o = None ->
  dict_get d (default "" o) = None.
Proof.
  unfold dict_key. intros Ht. rewrite Ht. by destruct o.
Qed.

Lemma dict_key_truthy {V} (d : list (string * V)) o :
  truthy_path o = true -> dict_key d o = dict_get d (default "" o).
Proof.
  unfold dict_key. intros Ht. rewrite Ht. by destruct o.
Qed.

Lemma dict_key_Some {V} (d : list (string * V)) o (v : V) :
  dict_key d o = Some v ->
  truthy_path o = true /\ dict_get d (default "" o) = Some v.
Proof.
  unfold dict_key. destruct (truthy_path o); [|done].
  by destruct o.
Qed.


Lemma batch_dict_new d amp irp n k i :
  dict_get (batch_dict d amp irp n) k = Some i ->
  dict_get d k = Some i \/ i = n.
Proof.
  unfold batch_dict.
  destruct (truthy_path irp), (truthy_path amp);
    rewrite ?dict_get_set; repeat case_decide; subst;
    try (intros [= <-]; by right); by left.
Qed.


(** What one round of the batch loop leaves alone. *)
Lemma set_record_keypoints_frame K i st :
  image_list (set_record_keypoints i K st) = image_list st
  /\ current_image_index (set_record_keypoints i K st)
     = current_image_index st
  /\ image_folder (set_record_keypoints i K st) = image_folder st
  /\ annotation_dict (set_record_keypoints i K st) = annotation_dict st.
Proof.
  unfold set_record_keypoints.
  by destruct (annotations_data st) as [[inf [l|]]|].
Qed.

Lemma annotations_set_record_keypoints K i st :
  (i < length (doc_annotations (annotations_data st)))%nat ->
  doc_annotations (annotations_data (set_record_keypoints i K st))
  = alter (with_keypoints K) i (doc_annotations (annotations_data st)).
Proof.
  unfold set_record_keypoints.
  destruct (annotations_data st) as [[inf [l|]]|]; simpl; try done; lia.
Qed.

Lemma batch_create_spec p st :
  let '(st', n) := batch_create p st in
  n = length (doc_annotations (annotations_data st))
  /\ (exists ann, doc_annotations (annotations_data st')
                  = doc_annotations (annotations_data st) ++ [ann])
  /\ annotation_dict st'
     = batch_dict (annotation_dict st)
         (get_annotation_match_path p (image_folder st))
         (get_relative_path p) n
  /\ image_list st' = image_list st
  /\ current_image_index st' = current_image_index st
  /\ image_folder st' = image_folder st.
Proof.
  unfold batch_create, append_record.
  destruct (default _ (current_image_size st)) as [w h].
  split; [done|]. split; [by eexists|]. done.
Qed.


(** The round that finds a record overwrites it in place. *)
Lemma batch_copy_to_found K p st i :
  batch_find p st = Some i ->
  (i < length (doc_annotations (annotations_data st)))%nat ->
  doc_annotations (annotations_data (batch_copy_to K p st))
  = alter (with_keypoints K) i (doc_annotations (annotations_data st))
  /\ annotation_dict (batch_copy_to K p st) = annotation_dict st.
Proof.
  intros Hf Hi. unfold batch_copy_to. rewrite Hf. split.
  - by apply annotations_set_record_keypoints.
  - by destruct (set_record_keypoints_frame K i st) as (_ & _ & _ & ->).
Qed.

(** The round that finds none appends a record with the copied keypoints
    and enters it in the dict. *)
Lemma batch_copy_to_created K p st :
  batch_find p st = None ->
  (exists ann,
      doc_annotations (annotations_data (batch_copy_to K p st))
      = doc_annotations (annotations_data st) ++ [with_keypoints K ann])
  /\ annotation_dict (batch_copy_to K p st)
     = batch_dict (annotation_dict st)
         (get_annotation_match_path p (image_folder st))
         (get_relative_path p)
         (length (doc_annotations (annotations_data st))).
Proof.
  intros Hf. unfold batch_copy_to. rewrite Hf.
  pose proof (batch_create_spec p st) as H.
  destruct (batch_create p st) as [st' n].
  destruct H as (-> & [ann Hann] & Hd & _).
  split.
  - exists ann. rewrite annotations_set_record_keypoints
      by (rewrite Hann, length_app; simpl; lia).
    rewrite Hann.
    replace (length (doc_annotations (annotations_data st)))
      with (length (doc_annotations (annotations_data st)) + 0)%nat at 1
      by lia.
    by rewrite alter_app_r.
  - by destruct (set_record_keypoints_frame K
                   (length (doc_annotations (annotations_data st))) st')
      as (_ & _ & _ & ->).
Qed.

Lemma batch_find_in_dict p st i :
  batch_find p st = Some i ->
  exists k, dict_get (annotation_dict st) k = Some i.
Proof.
  unfold batch_find.
  destruct (dict_key (annotation_dict st) (get_annotation_match_path _ _))
    as [i0|] eqn:Ha.
  - intros [= <-]. apply dict_key_Some in Ha as [_ Ha]. eauto.
  - intros Hi. apply dict_key_Some in Hi as [_ Hi]. eauto.
Qed.


Lemma batch_step_wf K q st :
  dict_wf st -> dict_wf (batch_copy_to K q st).
Proof.
  intros Hwf k i. destruct (batch_find q st) as [j|] eqn:Hq.
  - destruct (batch_find_in_dict q st j Hq) as [kj Hkj].
    destruct (batch_copy_to_found K q st j Hq (Hwf _ _ Hkj)) as [-> ->].
    rewrite length_alter. apply Hwf.
  - destruct (batch_copy_to_created K q st Hq) as [[ann ->] ->].
    rewrite length_app. simpl.
    intros [Hk | ->]%batch_dict_new; [|lia].
    specialize (Hwf _ _ Hk). lia.
Qed.





Lemma batch_fold_wf K targets : forall st,
  dict_wf st -> dict_wf (foldl (fun s p => batch_copy_to K p s) st targets).
Proof.
  induction targets as [|q targets IH]; intros st Hwf; [done|].
  simpl. by apply IH, batch_step_wf.
Qed.







(** E2E scenario D, evaluated: on a list of five images with the third one
    on display, a batch copy of 100 reports 2 copies; the records of the
    first three images are as before and the images 3 and 4 have new records
    with the copied keypoints. *)
Lemma scenario_D_batch_copy :
  let r := batch_copy_keypoints (Some 100%Z) scenario_D_state in
  snd r = ShowInfoN "Copied keypoints to frame(s)" 2
  /\ doc_annotations (annotations_data (fst r))
     = doc_annotations (annotations_data scenario_D_state)
       ++ [record_of "f3.jpg" scenario_D_keypoints;
           record_of "f4.jpg" scenario_D_keypoints].
Proof. split; reflexivity. Qed.

(** ** Undo and redo as inverse walks over the history *)

Lemma pop_last_snoc {A} (l : list A) x : pop_last (l ++ [x]) = Some (l, x).
Proof. unfold pop_last. by rewrite last_snoc, removelast_last. Qed.

(** A redo right after an undo that had something to undo leads back. *)
Lemma h_redo_h_undo k u p r :
  h_redo (h_undo (k, u ++ [p], r)) = (k, u ++ [p], r).
Proof.
  unfold h_undo. rewrite pop_last_snoc. unfold h_redo. by rewrite pop_last_snoc.
Qed.

Lemma iter_h_undo_empty n k r : Nat.iter n h_undo (k, [], r) = (k, [], r).
Proof. induction n as [|n IH]; [done|]. simpl. by rewrite IH. Qed.

Lemma iter_h_redo_empty n k u : Nat.iter n h_redo (k, u, []) = (k, u, []).
Proof. induction n as [|n IH]; [done|]. simpl. by rewrite IH. Qed.

(** Undoing as often as there are snapshots empties the undo stack and
    ends at the oldest one. *)
Lemma iter_h_undo_all u : forall k r,
  exists r',
    Nat.iter (length u) h_undo (k, u, r) = (hd k u, [], r')
    /\ length r' = (length r + length u)%nat.
Proof.
  induction u as [|p u IH] using rev_ind; intros k r.
  - exists r. split; [done|]. simpl. lia.
  - rewrite length_app. simpl. rewrite Nat.add_1_r, Nat.iter_succ_r.
    simpl. rewrite pop_last_snoc.
    destruct (IH p (r ++ [k])) as (r' & -> & Hlen).
    exists r'. split.
    + by destruct u.
    + rewrite Hlen, length_app. simpl. lia.
Qed.

(** As many redos as undos lead back. *)
Lemma iter_h_redo_undo u : forall k r,
  Nat.iter (length u) h_redo (Nat.iter (length u) h_undo (k, u, r))
  = (k, u, r).
Proof.
  induction u as [|p u IH] using rev_ind; intros k r; [done|].
  rewrite length_app. simpl. rewrite Nat.add_1_r.
  rewrite (Nat.iter_succ_r _ h_undo), (Nat.iter_succ _ h_redo).
  replace (h_undo (k, u ++ [p], r)) with (p, u, r ++ [k])
    by (simpl; by rewrite pop_last_snoc).
  rewrite IH. simpl. by rewrite pop_last_snoc.
Qed.

(** With an empty redo stack to start from, [n] undos followed by [n]
    redos are the identity for every [n] that is at least the number of
    snapshots, and the undos end at the oldest snapshot. *)
Lemma undo_redo_walk k u n :
  (length u <= n)%nat ->
  fst (fst (Nat.iter n h_undo (k, u, []))) = hd k u
  /\ Nat.iter n h_redo (Nat.iter n h_undo (k, u, [])) = (k, u, []).
Proof.
  intros Hn.
  replace n with ((n - length u) + length u)%nat by lia.
  rewrite (Nat.iter_add (n - length u) (length u) h_undo).
  destruct (iter_h_undo_all u k []) as (r' & Hall & Hlen).
  split.
  - by rewrite Hall, iter_h_undo_empty.
  - rewrite Hall, iter_h_undo_empty, <- Hall.
    rewrite (Nat.iter_add (n - length u) (length u) h_redo).
    rewrite iter_h_redo_undo. apply iter_h_redo_empty.
Qed.

(** ** Every action takes exactly one snapshot (V2) *)

Lemma with_keypoints_same a : with_keypoints (keypoints a) a = a.
Proof. by destruct a. Qed.

Lemma save_state_spec st a :
  cur_record st = Some a ->
  cur_record (save_state st) = Some a
  /\ undo_stack (save_state st) = pushed (undo_stack st) (keypoints a)
  /\ redo_stack (save_state st) = []
  /\ drag_state_saved (save_state st) = drag_state_saved st.
Proof.
  intros Ha. unfold save_state, pushed. rewrite Ha.
  by destruct (max_history <? _)%nat.
Qed.

Lemma set_keypoints_spec k st a :
  cur_record st = Some a ->
  cur_record (set_keypoints k st) = Some (with_keypoints k a)
  /\ undo_stack (set_keypoints k st) = undo_stack st
  /\ redo_stack (set_keypoints k st) = redo_stack st
  /\ drag_state_saved (set_keypoints k st) = drag_state_saved st.
Proof.
  intros Ha. split; [by rewrite cur_record_set_keypoints, Ha|].
  destruct (stacks_set_keypoints k st) as [-> ->]. split; [done|].
  split; [done|].
  unfold set_keypoints, set_record_keypoints.
  destruct (current_annotation st) as [[i|?]|]; try done.
  by destruct (annotations_data st) as [[inf [l|]]|].
Qed.

Lemma snapshot_only st a :
  cur_record st = Some a -> snapshot_taken st (save_state st).
Proof.
  intros Ha. destruct (save_state_spec st a Ha) as (Hc & Hu & Hr & _).
  exists a, (keypoints a). by rewrite with_keypoints_same.
Qed.

Lemma snapshot_then_set st a k :
  cur_record st = Some a ->
  snapshot_taken st (set_keypoints k (save_state st))
  /\ drag_state_saved (set_keypoints k (save_state st)) = drag_state_saved st.
Proof.
  intros Ha. destruct (save_state_spec st a Ha) as (Hc & Hu & Hr & Hf).
  destruct (set_keypoints_spec k _ a Hc) as (Hc' & Hu' & Hr' & Hf').
  split; [|congruence].
  exists a, k. by rewrite Hu', Hr'.
Qed.

Lemma untouched_then_snapshot s s1 s2 :
  untouched s s1 -> snapshot_taken s1 s2 -> snapshot_taken s s2.
Proof.
  intros (Hc & Hu & Hr) (a & k' & Ha & Ha' & Hu' & Hr').
  exists a, k'. rewrite <- Hc, <- Hu. done.
Qed.

Lemma untouched_trans s s1 s2 :
  untouched s s1 -> untouched s1 s2 -> untouched s s2.
Proof.
  intros (Hc & Hu & Hr) (Hc' & Hu' & Hr'). repeat split; congruence.
Qed.

(** The updates of the selection, the mode, the drag flag and the unsaved
    flag do not touch the record or the stacks. *)
Ltac unwrap :=
  repeat match goal with
    | |- context [cur_record (set_unsaved_changes ?b ?x)] =>
        change (cur_record (set_unsaved_changes b x)) with (cur_record x)
    | |- context [cur_record (set_selected_keypoint ?b ?x)] =>
        change (cur_record (set_selected_keypoint b x)) with (cur_record x)
    | |- context [cur_record (set_edit_mode ?b ?x)] =>
        change (cur_record (set_edit_mode b x)) with (cur_record x)
    | |- context [cur_record (set_drag_state_saved ?b ?x)] =>
        change (cur_record (set_drag_state_saved b x)) with (cur_record x)
    end;
  cbn [set_unsaved_changes set_selected_keypoint set_edit_mode
       set_drag_state_saved drag_state_saved undo_stack redo_stack fst].

(** A click: in move mode nothing but the selection changes; in add mode a
    snapshot is taken and the keypoint appended; in delete mode a snapshot
    is taken when a keypoint is hit. *)
Lemma click_spec x y s :
  at_rest s ->
  at_rest (fst (V2.on_canvas_click x y s))
  /\ (untouched s (fst (V2.on_canvas_click x y s))
      \/ snapshot_taken s (fst (V2.on_canvas_click x y s))).
Proof.
  intros [[a Ha] Hflag]. unfold V2.on_canvas_click. rewrite Ha.
  destruct (PrimFloat.leb (scale_factor s) 0).
  { split; [split; eauto|by left]. }
  destruct (edit_mode s).
  - unfold click_move. destruct (find_nearest_click _ _ _); simpl.
    + split; [split; [by exists a|done]|by left].
    + split; [split; eauto|by left].
  - set (kp := match format_mode (save_state s) with
               | Standard => _ | Coco => _ end).
    destruct (snapshot_then_set s a (get_keypoints (save_state s) ++ [kp]) Ha)
      as [Hsnap Hf].
    split; [|by right]. split; [|by rewrite <- Hflag].
    destruct Hsnap as (a0 & k' & _ & Hc & _). by eexists.
  - unfold click_delete. destruct (find_nearest_click _ _ _) as [[idx|]|]; simpl.
    + destruct (snapshot_then_set s a
                  (delete idx (get_keypoints (save_state s))) Ha)
        as [Hsnap Hf].
      split; [|by right]. split; [|by rewrite <- Hflag].
      destruct Hsnap as (a0 & k' & _ & Hc & _). by eexists.
    + split; [split; eauto|by left].
    + split; [split; eauto|by left].
Qed.

(** A drag event while the gesture's snapshot has been taken: only the
    keypoints change. *)
Lemma drag_saved_spec x y s s' :
  is_Some (cur_record s) -> drag_state_saved s = true ->
  s' = fst (on_canvas_drag x y s) ->
  drag_state_saved s' = true
  /\ undo_stack s' = undo_stack s
  /\ redo_stack s' = redo_stack s
  /\ exists a k', cur_record s = Some a
                  /\ cur_record s' = Some (with_keypoints k' a).
Proof.
  intros [a Ha] Hflag Hs'. unfold on_canvas_drag in Hs'.
  assert (Hsame : drag_state_saved s = true
                  /\ undo_stack s = undo_stack s
                  /\ redo_stack s = redo_stack s
                  /\ exists a0 k', cur_record s = Some a0
                        /\ cur_record s = Some (with_keypoints k' a0)).
  { split; [done|]. split; [done|]. split; [done|].
    exists a, (keypoints a). by rewrite with_keypoints_same. }
  destruct (selected_keypoint s) as [sel|]; [|by subst s'].
  destruct (edit_mode s); try by subst s'.
  destruct (PrimFloat.leb (scale_factor s) 0); [by subst s'|].
  rewrite Hflag, Ha in Hs'.
  destruct (sel <? length (keypoints a))%nat; [|by subst s'].
  cbn [fst] in Hs'. subst s'. unwrap.
  match goal with
  | |- context [set_keypoints ?k s] =>
      destruct (set_keypoints_spec k s a Ha) as (Hc & Hu & Hr & Hf)
  end.
  split; [congruence|]. split; [congruence|]. split; [congruence|].
  exists a. eexists. split; [done|exact Hc].
Qed.

(** A drag event before the gesture's snapshot: either nothing happens, or
    the snapshot is taken and the keypoint moved. *)
Lemma drag_unsaved_spec x y s s' :
  is_Some (cur_record s) -> drag_state_saved s = false ->
  s' = fst (on_canvas_drag x y s) ->
  (untouched s s' /\ drag_state_saved s' = false)
  \/ (snapshot_taken s s' /\ drag_state_saved s' = true).
Proof.
  intros [a Ha] Hflag Hs'. unfold on_canvas_drag in Hs'.
  destruct (selected_keypoint s) as [sel|]; [|subst s'; by left].
  destruct (edit_mode s); try (subst s'; by left).
  destruct (PrimFloat.leb (scale_factor s) 0); [subst s'; by left|].
  rewrite Hflag in Hs'.
  destruct (save_state_spec s a Ha) as (Hc & Hu & Hr & Hf).
  change (cur_record (set_drag_state_saved true (save_state s)))
    with (cur_record (save_state s)) in Hs'.
  rewrite Hc in Hs'. right.
  set (s0 := set_drag_state_saved true (save_state s)) in *.
  assert (Hc0 : cur_record s0 = Some a) by exact Hc.
  destruct (sel <? length (keypoints a))%nat; cbn [fst] in Hs'; subst s'.
  - match goal with
    | |- context [set_keypoints ?k s0] =>
        destruct (set_keypoints_spec k s0 a Hc0) as (Hc' & Hu' & Hr' & Hf')
    end.
    split.
    + exists a. eexists. split; [done|]. split; [exact Hc'|]. split.
      * transitivity (undo_stack s0); [exact Hu'|exact Hu].
      * transitivity (redo_stack s0); [exact Hr'|exact Hr].
    + transitivity (drag_state_saved s0); [exact Hf'|reflexivity].
  - split; [|reflexivity]. exists a, (keypoints a).
    rewrite with_keypoints_same.
    split; [done|]. split; [exact Hc|]. split; [exact Hu|exact Hr].
Qed.

Lemma drag_all_saved drags : forall s,
  is_Some (cur_record s) -> drag_state_saved s = true ->
  drag_state_saved (drag_all drags s) = true
  /\ undo_stack (drag_all drags s) = undo_stack s
  /\ redo_stack (drag_all drags s) = redo_stack s
  /\ exists a k', cur_record s = Some a
                  /\ cur_record (drag_all drags s) = Some (with_keypoints k' a).
Proof.
  induction drags as [|[x y] drags IH]; intros s [a Ha] Hflag.
  - split; [done|]. split; [done|]. split; [done|].
    exists a, (keypoints a). by rewrite with_keypoints_same.
  - destruct (drag_saved_spec x y s _ (ex_intro _ a Ha) Hflag eq_refl)
      as (Hf & Hu & Hr & a0 & k' & Ha0 & Hc).
    assert (a0 = a) as -> by congruence.
    destruct (IH _ (ex_intro _ _ Hc) Hf) as (Hf' & Hu' & Hr' & a1 & k'' & Ha1 & Hc').
    assert (a1 = with_keypoints k' a) as -> by congruence.
    unfold drag_all in *. simpl.
    split; [congruence|]. split; [congruence|]. split; [congruence|].
    exists a, k''. done.
Qed.

Lemma drag_all_spec drags : forall s,
  is_Some (cur_record s) -> drag_state_saved s = false ->
  (untouched s (drag_all drags s)
   /\ drag_state_saved (drag_all drags s) = false)
  \/ snapshot_taken s (drag_all drags s).
Proof.
  induction drags as [|[x y] drags IH]; intros s [a Ha] Hflag; [by left|].
  change (drag_all ((x, y) :: drags) s)
    with (drag_all drags (fst (on_canvas_drag x y s))).
  destruct (drag_unsaved_spec x y s _ (ex_intro _ a Ha) Hflag eq_refl)
    as [[Hun Hf]|[Hsnap Hf]].
  - assert (Hc : is_Some (cur_record (fst (on_canvas_drag x y s)))).
    { destruct Hun as (-> & _). by exists a. }
    destruct (IH _ Hc Hf) as [[Hun' Hf']|Hsnap'].
    + left. split; [by eapply untouched_trans|done].
    + right. by eapply untouched_then_snapshot.
  - right. destruct Hsnap as (a0 & k' & Ha0 & Hc & Hu & Hr).
    destruct (drag_all_saved drags _ (ex_intro _ _ Hc) Hf)
      as (_ & Hu' & Hr' & a1 & k'' & Ha1 & Hc').
    assert (a1 = with_keypoints k' a0) as -> by congruence.
    exists a0, k''. rewrite Hu', Hr'. done.
Qed.

Lemma snapshot_taken_cur s s' :
  snapshot_taken s s' -> is_Some (cur_record s').
Proof. intros (a & k' & _ & Hc & _). by eexists. Qed.

Lemma untouched_cur s s' :
  is_Some (cur_record s) -> untouched s s' -> is_Some (cur_record s').
Proof. intros Hs (-> & _). done. Qed.

Lemma clear_spec s :
  at_rest s ->
  at_rest (fst (clear_keypoints s))
  /\ snapshot_taken s (fst (clear_keypoints s)).
Proof.
  intros [[a Ha] Hflag]. unfold clear_keypoints. rewrite Ha.
  destruct (snapshot_then_set s a [] Ha) as [Hsnap Hf].
  split; [|exact Hsnap].
  split; [exact (snapshot_taken_cur _ _ Hsnap)|].
  transitivity (drag_state_saved s); [exact Hf|exact Hflag].
Qed.

(** V2's copy takes its snapshot once the three guards have passed, whether
    or not it then finds anything to copy. *)
Lemma copy_spec s :
  at_rest s ->
  at_rest (fst (V2.copy_from_previous_frame s))
  /\ (untouched s (fst (V2.copy_from_previous_frame s))
      \/ snapshot_taken s (fst (V2.copy_from_previous_frame s))).
Proof.
  intros [[a Ha] Hflag]. unfold V2.copy_from_previous_frame. rewrite Ha.
  assert (Hrest : at_rest s) by (split; eauto).
  destruct (current_image_index s =? 0)%nat; [by split; [|left]|].
  destruct (negb (doc_truthy (annotations_data s))); [by split; [|left]|].
  clear Hrest.
  destruct (save_state_spec s a Ha) as (Hc & Hu & Hr & Hf).
  assert (Hsaved : at_rest (save_state s)
                   /\ (untouched s (save_state s)
                       \/ snapshot_taken s (save_state s))).
  { split; [split; [by exists a|congruence]|].
    right. exact (snapshot_only s a Ha). }
  destruct (image_list (save_state s) !! _); [|exact Hsaved].
  destruct (_ ≫= record_at (save_state s)) as [prev|]; [|exact Hsaved].
  destruct (keypoints prev) as [|kp kps]; [exact Hsaved|].
  destruct (V2.clean_keypoints (save_state s) (kp :: kps)) as [cleaned|e];
    [|exact Hsaved].
  destruct (snapshot_then_set s a cleaned Ha) as [Hsnap Hf'].
  assert (Hst : forall r : report,
            at_rest
              (fst (set_unsaved_changes true
                      (set_keypoints cleaned (save_state s)), r))
            /\ (untouched s
                  (fst (set_unsaved_changes true
                          (set_keypoints cleaned (save_state s)), r))
                \/ snapshot_taken s
                     (fst (set_unsaved_changes true
                             (set_keypoints cleaned (save_state s)), r)))).
  { intros r. split; [|right; exact Hsnap].
    split; [exact (snapshot_taken_cur _ _ Hsnap)|].
    transitivity (drag_state_saved s); [exact Hf'|exact Hflag]. }
  destruct (V2.count_valid (kp :: kps)); apply Hst.
Qed.

Lemma move_spec x y drags s :
  at_rest s ->
  at_rest (v2_apply (OpMove x y drags) s)
  /\ (untouched s (v2_apply (OpMove x y drags) s)
      \/ snapshot_taken s (v2_apply (OpMove x y drags) s)).
Proof.
  intros Hrest. unfold v2_apply, set_mode, on_canvas_release. cbn [fst].
  set (s0 := set_edit_mode ModeMove s).
  assert (Hrest0 : at_rest s0) by exact Hrest.
  set (s1 := fst (V2.on_canvas_click x y s0)).
  assert (H1 : at_rest s1 /\ untouched s s1).
  { unfold s1, V2.on_canvas_click.
    destruct Hrest0 as [[a Ha] Hflag]. rewrite Ha.
    assert (Hsome : is_Some (cur_record s0)) by by exists a.
    destruct (PrimFloat.leb (scale_factor s0) 0); [by split; [split|]|].
    change (edit_mode s0) with ModeMove. unfold click_move.
    destruct (find_nearest_click _ _ _); by split; [split|]. }
  destruct H1 as [[Hc1 Hf1] Hun1].
  destruct (drag_all_spec drags s1 Hc1 Hf1) as [[Hun Hf]|Hsnap].
  - split; [split; [|done]|left].
    + exact (untouched_cur _ _ Hc1 Hun).
    + exact (untouched_trans _ _ _ Hun1 Hun).
  - split; [split; [|done]|right].
    + exact (snapshot_taken_cur _ _ Hsnap).
    + exact (untouched_then_snapshot _ _ _ Hun1 Hsnap).
Qed.

(** Every action of an edit session either leaves keypoints and stacks
    alone (a click that hits nothing, a copy on the first image) or takes
    exactly one snapshot of the keypoints as they were. *)
Lemma v2_apply_spec op s :
  at_rest s ->
  at_rest (v2_apply op s)
  /\ (untouched s (v2_apply op s) \/ snapshot_taken s (v2_apply op s)).
Proof.
  intros Hrest. destruct op as [x y|x y|x y drags| |].
  - exact (click_spec x y (set_edit_mode ModeAdd s) Hrest).
  - exact (click_spec x y (set_edit_mode ModeDelete s) Hrest).
  - by apply move_spec.
  - destruct (clear_spec s Hrest). by split; [|right].
  - by apply copy_spec.
Qed.

(** ** The history of an edit session *)

Lemma history_of_undo st :
  is_Some (cur_record st) ->
  history_of (fst (undo_action st)) = h_undo (history_of st)
  /\ is_Some (cur_record (fst (undo_action st))).
Proof.
  intros [a Ha]. unfold undo_action, history_of, h_undo, get_keypoints.
  rewrite Ha. destruct (pop_last (undo_stack st)) as [[u' previous]|];
    [|cbn [fst]; rewrite Ha; split; [done|by exists a]].
  cbn [fst].
  match goal with
  | |- context [set_keypoints previous ?s0] =>
      assert (Hc0 : cur_record s0 = Some a) by exact Ha;
      destruct (set_keypoints_spec previous s0 a Hc0) as (-> & -> & -> & _)
  end.
  split; [done|by eexists].
Qed.

Lemma history_of_redo st :
  is_Some (cur_record st) ->
  history_of (fst (redo_action st)) = h_redo (history_of st)
  /\ is_Some (cur_record (fst (redo_action st))).
Proof.
  intros [a Ha]. unfold redo_action, history_of, h_redo, get_keypoints.
  rewrite Ha. destruct (pop_last (redo_stack st)) as [[r' next]|];
    [|cbn [fst]; rewrite Ha; split; [done|by exists a]].
  cbn [fst].
  match goal with
  | |- context [set_keypoints next ?s0] =>
      assert (Hc0 : cur_record s0 = Some a) by exact Ha;
      destruct (set_keypoints_spec next s0 a Hc0) as (-> & -> & -> & _)
  end.
  split; [done|by eexists].
Qed.

Lemma history_of_undo_times n : forall st,
  is_Some (cur_record st) ->
  history_of (undo_times n st) = Nat.iter n h_undo (history_of st)
  /\ is_Some (cur_record (undo_times n st)).
Proof.
  induction n as [|n IH]; intros st Hc; [done|].
  destruct (IH st Hc) as [Hh Hc'].
  destruct (history_of_undo _ Hc') as [Hh' Hc''].
  unfold undo_times in *. simpl. by rewrite Hh', Hh.
Qed.

Lemma history_of_redo_times n : forall st,
  is_Some (cur_record st) ->
  history_of (redo_times n st) = Nat.iter n h_redo (history_of st)
  /\ is_Some (cur_record (redo_times n st)).
Proof.
  induction n as [|n IH]; intros st Hc; [done|].
  destruct (IH st Hc) as [Hh Hc'].
  destruct (history_of_redo _ Hc') as [Hh' Hc''].
  unfold redo_times in *. simpl. by rewrite Hh', Hh.
Qed.

Lemma pushed_below_cap u k :
  (length u < max_history)%nat -> pushed u k = u ++ [k].
Proof.
  intros Hlt. unfold pushed.
  rewrite (proj2 (Nat.ltb_ge max_history (length (u ++ [k])))); [done|].
  rewrite length_app. cbn [length]. lia.
Qed.

(** After [m] actions on empty stacks there are at most [m] snapshots, the
    redo stack is empty and the oldest snapshot is the original list. *)
Lemma v2_run_history ops : forall st m k0,
  at_rest st ->
  (length (undo_stack st) <= m)%nat ->
  redo_stack st = [] ->
  hd (get_keypoints st) (undo_stack st) = k0 ->
  (m + length ops <= max_history)%nat ->
  at_rest (v2_run ops st)
  /\ (length (undo_stack (v2_run ops st)) <= m + length ops)%nat
  /\ redo_stack (v2_run ops st) = []
  /\ hd (get_keypoints (v2_run ops st)) (undo_stack (v2_run ops st)) = k0.
Proof.
  induction ops as [|op ops IH]; intros st m k0 Hrest Hlen Hredo Hhd Hcap.
  - simpl. rewrite Nat.add_0_r. done.
  - simpl in Hcap |- *.
    destruct (v2_apply_spec op st Hrest) as [Hrest' Hstep].
    replace (m + S (length ops))%nat with (S m + length ops)%nat by lia.
    apply IH; try done; try lia.
    + destruct Hstep as [(_ & -> & _)|(a & k' & Ha & _ & -> & _)]; [lia|].
      rewrite pushed_below_cap by lia. rewrite length_app. cbn [length]. lia.
    + by destruct Hstep as [(_ & _ & ->)|(a & k' & _ & _ & _ & ->)].
    + destruct Hstep as [(Hc & -> & _)|(a & k' & Ha & Hc & -> & _)].
      * unfold get_keypoints in *. by rewrite Hc.
      * rewrite pushed_below_cap by lia.
        unfold get_keypoints in Hhd. rewrite Ha in Hhd.
        by destruct (undo_stack st).
Qed.

(** X7 (P3 for V2): after at most 50 edit actions of V2 on a freshly loaded
    image (clicks in add or delete mode, move gestures, clear, copy from the
    previous frame), as many undos restore the original keypoint list, and
    as many redos after them restore the edited one. *)
Theorem V2_undo_redo_inverse (st : state) (ops : list edit_op) :
  at_rest st ->
  undo_stack st = [] ->
  redo_stack st = [] ->
  (length ops <= max_history)%nat ->
  let st' := v2_run ops st in
  let n := length ops in
  get_keypoints (undo_times n st') = get_keypoints st
  /\ get_keypoints (redo_times n (undo_times n st')) = get_keypoints st'.
Proof.
  intros Hrest Hundo Hredo Hcap st' n.
  destruct (v2_run_history ops st 0 (get_keypoints st) Hrest) as
    ([Hc' _] & Hlen & Hredo' & Hhd); rewrite ?Hundo; simpl; try done.
  fold st' in Hc', Hlen, Hredo', Hhd. fold n in Hlen.
  destruct (history_of_undo_times n st' Hc') as [Hu Hcu].
  destruct (history_of_redo_times n _ Hcu) as [Hr _].
  rewrite Hu in Hr. unfold history_of in Hu, Hr. rewrite Hredo' in Hu, Hr.
  destruct (undo_redo_walk (get_keypoints st') (undo_stack st') n Hlen)
    as [Hfirst Hback].
  rewrite <- Hu in Hfirst. rewrite Hback in Hr.
  split.
  - simpl in Hfirst. by rewrite Hfirst.
  - by injection Hr.
Qed.

Lemma V2_undo_redo_inverse_example :
  let st := two_frames [VList [vint 1; vint 1]] [VList [vint 9; vint 9]]
              Standard in
  let ops := [OpAdd 5 5; OpCopyFromPrevious; OpClear; OpDelete 0 0] in
  get_keypoints (undo_times 4 (v2_run ops st)) = get_keypoints st
  /\ get_keypoints (redo_times 4 (undo_times 4 (v2_run ops st)))
     = get_keypoints (v2_run ops st).
Proof.
  apply (V2_undo_redo_inverse
           (two_frames [VList [vint 1; vint 1]] [VList [vint 9; vint 9]]
              Standard)
           [OpAdd 5 5; OpCopyFromPrevious; OpClear; OpDelete 0 0]).
  - split; [by eexists|reflexivity].
  - reflexivity.
  - reflexivity.
  - unfold max_history. simpl. lia.
Defined.

(** * Part III: further properties of the embedded code *)

(** ** Paths *)

Lemma replace_backslash_idem s :
  replace_backslash (replace_backslash s) = replace_backslash s.
Proof.
  induction s as [|c s IH]; simpl; [done|]. rewrite IH. f_equal.
  destruct (Ascii.eqb c backslash) eqn:E; [done|]. by rewrite E.
Qed.

Lemma replace_backslash_clean s : has_backslash (replace_backslash s) = false.
Proof.
  induction s as [|c s IH]; simpl; [done|]. rewrite IH, orb_false_r.
  by destruct (Ascii.eqb c backslash) eqn:E.
Qed.

Lemma replace_backslash_id s :
  has_backslash s = false -> replace_backslash s = s.
Proof.
  induction s as [|c s IH]; simpl; [done|].
  intros [Hc Hs]%orb_false_iff. by rewrite Hc, IH.
Qed.

Lemma truthy_normalize_path p :
  truthy_path (normalize_path p) = truthy_path p.
Proof. by destruct p as [[|c s]|]. Qed.

(** X1: [normalize_path] is idempotent; its result holds no backslash, is
    empty (or [None]) exactly when its argument is, and a path without a
    backslash is returned as it is. *)
Theorem normalize_path_idempotent (p : option string) :
  normalize_path (normalize_path p) = normalize_path p
  /\ from_option has_backslash false (normalize_path p) = false
  /\ truthy_path (normalize_path p) = truthy_path p
  /\ (from_option has_backslash false p = false -> normalize_path p = p).
Proof.
  split; [|split; [|split]].
  - destruct p as [s|]; simpl; [|done]. by rewrite replace_backslash_idem.
  - destruct p as [s|]; simpl; [|done]. apply replace_backslash_clean.
  - apply truthy_normalize_path.
  - destruct p as [s|]; simpl; [|done].
    intros H. by rewrite replace_backslash_id.
Qed.

(** X2: the four strategies of [match_annotation_path] come to this: two
    paths match exactly when both are non-empty and, after normalization,
    they have the same file name or one of them ends with the text of the
    other.  The directories play no part once the file names agree, and
    [None] matches nothing. *)
Theorem match_annotation_path_characterised (a b : string) :
  let na := replace_backslash a in
  let nb := replace_backslash b in
  match_annotation_path (Some a) (Some b)
  = truthy_path (Some a) && truthy_path (Some b)
    && (bool_decide (basename na = basename nb)
        || endswith na nb || endswith nb na)
  /\ match_annotation_path None (Some b) = false
  /\ match_annotation_path (Some a) None = false.
Proof.
  intros na nb. split; [|split; [done|by destruct a]].
  unfold match_annotation_path.
  destruct (truthy_path (Some a)), (truthy_path (Some b)); simpl; try done.
  fold na nb.
  destruct (decide (na = nb)) as [Heq|Hne].
  - rewrite bool_decide_eq_true_2 by done.
    by rewrite (bool_decide_eq_true_2 (basename na = basename nb))
      by congruence.
  - rewrite (bool_decide_eq_false_2 (na = nb)) by done.
    destruct (bool_decide (basename na = basename nb)) eqn:Hb; [done|].
    simpl. destruct (endswith na nb || endswith nb na); [done|].
    destruct (segment_suffix_match _ _) eqn:E; [|done].
    apply segment_suffix_match_basename in E.
    by apply bool_decide_eq_false in Hb.
Qed.

(** X3: [match_annotation_path] does not depend on the separator style of
    its arguments: a path and its normalized form match the same paths. *)
Theorem match_annotation_path_normalized (a b : option string) :
  match_annotation_path (normalize_path a) b = match_annotation_path a b
  /\ match_annotation_path a (normalize_path b) = match_annotation_path a b.
Proof.
  unfold match_annotation_path. rewrite !truthy_normalize_path.
  destruct a as [a|], b as [b|]; simpl; try done.
  by rewrite !replace_backslash_idem.
Qed.

Lemma get_base_images_path_split (pre post : list string) :
  "images" ∉ pre ->
  get_base_images_path (pre ++ "images" :: post) = pre ++ ["images"].
Proof.
  intros Hpre. unfold get_base_images_path.
  assert (H : list_find (fun part => part = "images") (pre ++ "images" :: post)
              = Some (length pre, "images")).
  { apply list_find_Some. split; [|split; [done|]].
    - by rewrite list_lookup_middle.
    - intros j y Hj Hlt ->. rewrite lookup_app_l in Hj by done.
      apply Hpre. eapply list_elem_of_lookup_2. exact Hj. }
  rewrite H. rewrite take_app_ge by lia.
  by replace (S (length pre) - length pre)%nat with 1%nat by lia.
Qed.

Lemma get_base_images_path_none (folder : list string) :
  "images" ∉ folder -> get_base_images_path folder = folder.
Proof.
  intros Hno. unfold get_base_images_path.
  destruct (list_find _ folder) as [[i y]|] eqn:E; [|done].
  apply list_find_Some in E as (Hl & -> & _).
  exfalso. apply Hno. eapply list_elem_of_lookup_2. exact Hl.
Qed.

(** X4: the base images directory ends at the first component named
    [images], and the path used for matching is the image's path below that
    directory; a folder without such a component is its own base, and the
    matching path is then the folder-relative path. *)
Theorem get_annotation_match_path_images (pre post : list string) (p : string) :
  "images" ∉ pre ->
  get_base_images_path (pre ++ "images" :: post) = pre ++ ["images"]
  /\ get_annotation_match_path p (pre ++ "images" :: post)
     = normalize_path (Some (join_path (post ++ [p])))
  /\ get_base_images_path pre = pre
  /\ get_annotation_match_path p pre = get_relative_path p.
Proof.
  intros Hpre. split; [by apply get_base_images_path_split|].
  split; [|split; [by apply get_base_images_path_none|]].
  - unfold get_annotation_match_path.
    rewrite get_base_images_path_split by done.
    rewrite length_app. cbn [length].
    rewrite drop_app_ge by lia.
    by replace (length pre + 1 - length pre)%nat with 1%nat by lia.
  - unfold get_annotation_match_path, get_relative_path.
    rewrite get_base_images_path_none by done.
    by rewrite drop_all.
Qed.

Lemma get_annotation_match_path_images_witness :
  get_annotation_match_path "f.jpg"
    (["C:"; "data"] ++ "images" :: ["DL"; "frames"])
  = Some "DL/frames/f.jpg"
  /\ get_annotation_match_path "f.jpg" ["C:"; "data"] = Some "f.jpg".
Proof.
  assert (H : "images" ∉ ["C:"; "data"]).
  { intros H. apply list_elem_of_In in H. simpl in H.
    destruct H as [H|[H|[]]]; discriminate H. }
  destruct (get_annotation_match_path_images ["C:"; "data"] ["DL"; "frames"]
              "f.jpg" H) as (_ & H2 & _ & H4).
  split; [exact H2|exact H4].
Defined.

(** ** Undo and redo: bounds and round trips *)

Lemma pop_last_Some {A} (l l' : list A) x :
  pop_last l = Some (l', x) -> l = l' ++ [x].
Proof.
  unfold pop_last. destruct (last l) as [y|] eqn:E; [|done].
  intros [= <- <-]. 
  destruct l using rev_ind; [done|].
  rewrite last_snoc in E. injection E as ->.
  by rewrite removelast_last.
Qed.

Lemma pop_last_None {A} (l : list A) : pop_last l = None -> l = [].
Proof.
  unfold pop_last. destruct l using rev_ind; [done|].
  by rewrite last_snoc.
Qed.

Lemma pushed_length u k :
  (length u <= max_history)%nat -> (length (pushed u k) <= max_history)%nat.
Proof.
  intros Hu. unfold pushed. destruct (max_history <? _)%nat eqn:E.
  - rewrite length_drop, length_app. cbn [length]. lia.
  - by apply Nat.ltb_ge in E.
Qed.

(** X5: the undo and the redo stack never hold more than 50 snapshots
    between them: [save_state], [undo_action], [redo_action] and every edit
    action of V2 keep that bound. *)
Theorem history_bounded_invariant (st : state) :
  history_bounded st ->
  history_bounded (save_state st)
  /\ history_bounded (fst (undo_action st))
  /\ history_bounded (fst (redo_action st))
  /\ (at_rest st -> forall op, history_bounded (v2_apply op st)).
Proof.
  unfold history_bounded. intros Hb. split; [|split; [|split]].
  - unfold save_state. destruct (cur_record st); [|done].
    cbn [undo_stack redo_stack set_redo_stack set_undo_stack length].
    rewrite Nat.add_0_r. apply (pushed_length (undo_stack st)). lia.
  - unfold undo_action.
    destruct (pop_last (undo_stack st)) as [[u' previous]|] eqn:E; [|done].
    destruct (cur_record st); [|done]. cbn [fst].
    destruct (stacks_set_keypoints previous
                (set_undo_stack u'
                   (set_redo_stack (redo_stack st ++ [keypoints a]) st)))
      as [-> ->].
    cbn [undo_stack redo_stack set_redo_stack set_undo_stack].
    apply pop_last_Some in E. rewrite E, !length_app in *.
    cbn [length] in *. lia.
  - unfold redo_action.
    destruct (pop_last (redo_stack st)) as [[r' next]|] eqn:E; [|done].
    destruct (cur_record st); [|done]. cbn [fst].
    destruct (stacks_set_keypoints next
                (set_redo_stack r'
                   (set_undo_stack (undo_stack st ++ [keypoints a]) st)))
      as [-> ->].
    cbn [undo_stack redo_stack set_redo_stack set_undo_stack].
    apply pop_last_Some in E. rewrite E, !length_app in *.
    cbn [length] in *. lia.
  - intros Hrest op.
    destruct (v2_apply_spec op st Hrest)
      as [_ [(_ & -> & ->)|(a & k' & _ & _ & -> & ->)]]; [done|].
    cbn [length]. rewrite Nat.add_0_r. apply pushed_length. lia.
Qed.

Lemma history_bounded_invariant_witness :
  let st := two_frames [VList [vint 1; vint 1]] [VList [vint 9; vint 9]]
              Standard in
  history_bounded (save_state st)
  /\ history_bounded (fst (undo_action st))
  /\ history_bounded (fst (redo_action st))
  /\ (at_rest st -> forall op, history_bounded (v2_apply op st)).
Proof.
  apply (history_bounded_invariant
           (two_frames [VList [vint 1; vint 1]] [VList [vint 9; vint 9]]
              Standard)).
  unfold history_bounded, max_history. simpl. lia.
Defined.

Lemma alter_with_keypoints_same (l : list annotation) i a k :
  l !! i = Some a ->
  alter (with_keypoints (keypoints a)) i (alter (with_keypoints k) i l) = l.
Proof.
  intros Hl. apply list_eq. intros j.
  destruct (decide (i = j)) as [<-|Hne].
  - rewrite !list_lookup_alter, !decide_True by done. rewrite Hl. by destruct a.
  - by rewrite !list_lookup_alter, !decide_False by done.
Qed.

(** Writing a list and then the original one back leaves the state as it
    was. *)
Lemma set_keypoints_back st a k :
  cur_record st = Some a ->
  set_keypoints (keypoints a) (set_keypoints k st) = st.
Proof.
  unfold cur_record, set_keypoints.
  destruct st as [ad d f cf ifo il ci cip cis ca u r sel em fm dv vv ds uc sf].
  cbn. destruct ca as [[i|t]|]; [| |done].
  - unfold doc_annotations. destruct ad as [[inf [l|]]|]; try done.
    intros Hl. cbn. unfold set_record_keypoints. cbn.
    unfold set_annotations_data. cbn.
    by rewrite (alter_with_keypoints_same l i a k Hl).
  - intros [= <-]. cbn. unfold set_current_annotation. cbn. by destruct t.
Qed.

Lemma set_keypoints_stacks_comm k u r st :
  set_keypoints k (set_redo_stack r (set_undo_stack u st))
  = set_redo_stack r (set_undo_stack u (set_keypoints k st)).
Proof.
  unfold set_keypoints, set_record_keypoints.
  destruct st as [ad d f cf ifo il ci cip cis ca un re sel em fm dv vv ds uc sf].
  cbn. destruct ca as [[i|t]|]; try done.
  by destruct ad as [[inf [l|]]|].
Qed.

Lemma cur_record_stacks u r st :
  cur_record (set_redo_stack r (set_undo_stack u st)) = cur_record st.
Proof. done. Qed.

Lemma set_stacks_same st :
  set_redo_stack (redo_stack st) (set_undo_stack (undo_stack st) st) = st.
Proof. by destruct st. Qed.

Lemma set_stacks_twice u r u' r' st :
  set_redo_stack r (set_undo_stack u (set_redo_stack r' (set_undo_stack u' st)))
  = set_redo_stack r (set_undo_stack u st).
Proof. done. Qed.

(** X6: an undo that has something to undo is reverted by the redo that
    follows it, and a redo by the undo that follows it: the whole
    application state, not only the keypoint list, is as before. *)
Theorem undo_redo_round_trip (st : state) :
  is_Some (cur_record st) ->
  (undo_stack st <> [] -> fst (redo_action (fst (undo_action st))) = st)
  /\ (redo_stack st <> [] -> fst (undo_action (fst (redo_action st))) = st).
Proof.
  intros [a Ha]. split; intros Hne.
  - unfold undo_action.
    destruct (pop_last (undo_stack st)) as [[u' previous]|] eqn:E;
      [|by apply pop_last_None in E].
    apply pop_last_Some in E. rewrite Ha. cbn [fst].
    change (set_undo_stack u' (set_redo_stack (redo_stack st ++ [keypoints a]) st))
      with (set_redo_stack (redo_stack st ++ [keypoints a]) (set_undo_stack u' st)).
    rewrite set_keypoints_stacks_comm.
    unfold redo_action.
    cbn [redo_stack undo_stack set_redo_stack set_undo_stack].
    rewrite pop_last_snoc.
    rewrite cur_record_stacks, cur_record_set_keypoints, Ha. cbn [fmap option_fmap option_map fst keypoints with_keypoints].
    rewrite set_stacks_twice.
    rewrite set_keypoints_stacks_comm.
    destruct (stacks_set_keypoints previous st) as [Hu Hr].
    rewrite (set_keypoints_back st a previous Ha).
    rewrite <- E. apply set_stacks_same.
  - unfold redo_action.
    destruct (pop_last (redo_stack st)) as [[r' next]|] eqn:E;
      [|by apply pop_last_None in E].
    apply pop_last_Some in E. rewrite Ha. cbn [fst].
    rewrite set_keypoints_stacks_comm.
    unfold undo_action.
    cbn [redo_stack undo_stack set_redo_stack set_undo_stack].
    rewrite pop_last_snoc.
    rewrite cur_record_stacks, cur_record_set_keypoints, Ha. cbn [fmap option_fmap option_map fst keypoints with_keypoints].
    change (set_undo_stack (undo_stack st) (set_redo_stack (r' ++ [next]) (set_redo_stack r' (set_undo_stack (undo_stack st ++ [keypoints a]) (set_keypoints next st)))))
     with (set_redo_stack (r' ++ [next]) (set_undo_stack (undo_stack st) (set_keypoints next st))).
    rewrite set_keypoints_stacks_comm.
    rewrite (set_keypoints_back st a next Ha).
    rewrite <- E. apply set_stacks_same.
Qed.

Lemma undo_redo_round_trip_witness :
  let st := set_undo_stack [[VList [vint 1; vint 1]]]
              (two_frames [] [VList [vint 9; vint 9]] Standard) in
  fst (redo_action (fst (undo_action st))) = st.
Proof.
  apply (proj1 (undo_redo_round_trip
                  (set_undo_stack [[VList [vint 1; vint 1]]]
                     (two_frames [] [VList [vint 9; vint 9]] Standard))
                  (ex_intro _ _ eq_refl))).
  discriminate.
Defined.

(** ** Clicks: adding, finding and deleting a keypoint *)

Lemma edit_after_snapshot st a k :
  cur_record st = Some a ->
  get_keypoints (set_unsaved_changes true (set_keypoints k (save_state st))) = k
  /\ undo_stack (set_unsaved_changes true (set_keypoints k (save_state st)))
     = pushed (undo_stack st) (keypoints a)
  /\ redo_stack (set_unsaved_changes true (set_keypoints k (save_state st)))
     = [].
Proof.
  intros Ha. destruct (save_state_spec st a Ha) as (Hc & Hu & Hr & _).
  destruct (set_keypoints_spec k _ a Hc) as (Hc' & Hu' & Hr' & _).
  split; [|split].
  - change (get_keypoints (set_unsaved_changes true ?x)) with (get_keypoints x).
    unfold get_keypoints. by rewrite Hc'.
  - change (undo_stack (set_unsaved_changes true ?x)) with (undo_stack x).
    by rewrite Hu', Hu.
  - change (redo_stack (set_unsaved_changes true ?x)) with (redo_stack x).
    by rewrite Hr', Hr.
Qed.

(** X8: a click in add mode appends exactly one entry at the end of the
    list, the click position in image coordinates; V2 adds the visibility
    chosen in the panel when it is in COCO mode, V1 never does.  Both take
    one snapshot of the previous list and clear the redo stack. *)
Theorem add_click_appends (st : state) (a : annotation)
    (canvas_x canvas_y : float) :
  cur_record st = Some a ->
  edit_mode st = ModeAdd ->
  PrimFloat.leb (scale_factor st) 0 = false ->
  let img_x := vfloat (to_image canvas_x st) in
  let img_y := vfloat (to_image canvas_y st) in
  let st2 := fst (V2.on_canvas_click canvas_x canvas_y st) in
  let st1 := fst (V1.on_canvas_click canvas_x canvas_y st) in
  get_keypoints st2
  = keypoints a ++ [match format_mode st with
                    | Coco => VList [img_x; img_y; vint (visibility_var st)]
                    | Standard => VList [img_x; img_y]
                    end]
  /\ get_keypoints st1 = keypoints a ++ [VList [img_x; img_y]]
  /\ undo_stack st2 = pushed (undo_stack st) (keypoints a)
  /\ redo_stack st2 = []
  /\ undo_stack st1 = pushed (undo_stack st) (keypoints a)
  /\ redo_stack st1 = [].
Proof.
  intros Ha Hmode Hscale img_x img_y st2 st1.
  destruct (save_state_spec st a Ha) as (Hc & Hu & Hr & _).
  assert (Hk : get_keypoints (save_state st) = keypoints a).
  { unfold get_keypoints. by rewrite Hc. }
  assert (Hfmt : format_mode (save_state st) = format_mode st).
  { unfold save_state. rewrite Ha. by destruct (_ <? _)%nat. }
  assert (Hvis : visibility_var (save_state st) = visibility_var st).
  { unfold save_state. rewrite Ha. by destruct (_ <? _)%nat. }
  unfold st2, st1, V2.on_canvas_click, V1.on_canvas_click.
  rewrite Ha, Hmode, Hscale, Hk, Hfmt, Hvis.
  cbn [fst].
  match goal with
  | |- context [set_keypoints ?k (save_state st)] =>
      destruct (edit_after_snapshot st a k Ha) as (-> & -> & ->)
  end.
  match goal with
  | |- context [set_keypoints ?k (save_state st)] =>
      destruct (edit_after_snapshot st a k Ha) as (-> & -> & ->)
  end.
  done.
Qed.

Lemma add_click_appends_witness :
  let st := sparse_state ModeAdd Coco in
  get_keypoints (fst (V2.on_canvas_click 5 6 st))
  = sparse_keypoints ++ [VList [vfloat 5; vfloat 6; vint 2]]
  /\ get_keypoints (fst (V1.on_canvas_click 5 6 st))
     = sparse_keypoints ++ [VList [vfloat 5; vfloat 6]].
Proof.
  destruct (add_click_appends (sparse_state ModeAdd Coco)
              (record_of "f1.jpg" sparse_keypoints) 5 6
              eq_refl eq_refl eq_refl) as (H1 & H2 & _).
  split; [exact H1|exact H2].
Defined.

(** ** The order of the doubles *)












(** ** The nearest-keypoint scans *)















(** X12: in the dual-view application a drag keeps the visibility of the
    keypoint it moves when the application is in COCO mode, writes a bare
    pair in standard mode, and touches no other entry. *)
Theorem Dual_drag_keeps_visibility (st : state) (a : annotation) (sel : nat)
    (old_kp : value) (canvas_x canvas_y : float) :
  selected_keypoint st = Some sel ->
  edit_mode st = ModeMove ->
  PrimFloat.leb (scale_factor st) 0 = false ->
  cur_record st = Some a ->
  keypoints a !! sel = Some old_kp ->
  let img_x := vfloat (to_image canvas_x st) in
  let img_y := vfloat (to_image canvas_y st) in
  let st' := fst (Dual.on_canvas_drag canvas_x canvas_y st) in
  (forall x y v rest z,
      format_mode st = Coco ->
      old_kp = VList (x :: y :: v :: rest) ->
      py_int v = Ok z ->
      get_keypoints st' = <[sel := VList [img_x; img_y; vint z]]> (keypoints a))
  /\ (format_mode st = Standard ->
      get_keypoints st' = <[sel := VList [img_x; img_y]]> (keypoints a))
  /\ (forall j, j <> sel -> get_keypoints st' !! j = keypoints a !! j).
Proof.
  intros Hsel Hmode Hscale Ha Hold img_x img_y st'.
  set (st1 := if drag_state_saved st then st
              else set_drag_state_saved true (save_state st)).
  assert (H1 : cur_record st1 = Some a /\ format_mode st1 = format_mode st
               /\ scale_factor st1 = scale_factor st).
  { unfold st1, save_state. destruct (drag_state_saved st); [done|].
    rewrite Ha. by destruct (_ <? _)%nat. }
  destruct H1 as (Hc1 & Hf1 & Hs1).
  assert (Hto : forall c, to_image c st1 = to_image c st).
  { intros c. unfold to_image. by rewrite Hs1. }
  assert (Hst' : forall kp moved,
     (match format_mode st, old_kp with
      | Coco, VList (_ :: _ :: old2 :: _) =>
          v ← py_int old2; Ok (VList [img_x; img_y; vint v])
      | _, _ => Ok (VList [img_x; img_y])
      end) = Ok moved -> kp = moved ->
     get_keypoints st' = <[sel := kp]> (keypoints a)).
  { intros kp moved Hm ->. unfold st', Dual.on_canvas_drag.
    rewrite Hsel, Hmode, Hscale.
    fold st1. rewrite Hc1, Hold, Hf1, !Hto. fold img_x img_y. rewrite Hm.
    cbn [fst].
    change (get_keypoints (set_unsaved_changes true ?x)) with (get_keypoints x).
    apply get_keypoints_set_keypoints. by eexists. }
  split; [|split].
  - intros x y v rest z Hfmt -> Hz. eapply Hst'; [|done].
    rewrite Hfmt. by rewrite Hz.
  - intros Hfmt. eapply Hst'; [|done]. by rewrite Hfmt.
  - intros j Hj.
    destruct (match format_mode st, old_kp with
      | Coco, VList (_ :: _ :: old2 :: _) =>
          v ← py_int old2; Ok (VList [img_x; img_y; vint v])
      | _, _ => Ok (VList [img_x; img_y])
      end) as [moved|e] eqn:Hm.
    + rewrite (Hst' moved moved eq_refl eq_refl).
      by rewrite list_lookup_insert_ne.
    + unfold st', Dual.on_canvas_drag.
      rewrite Hsel, Hmode, Hscale.
      fold st1. rewrite Hc1, Hold, Hf1, !Hto. fold img_x img_y. rewrite Hm.
      cbn [fst]. unfold get_keypoints. by rewrite Hc1.
Qed.

Lemma Dual_drag_keeps_visibility_witness :
  get_keypoints (fst (Dual.on_canvas_drag 7 8 occluded_selected))
  = [VList [vfloat 7; vfloat 8; vint 1]; VList [vint 20; vint 20; vint 2]].
Proof.
  destruct (Dual_drag_keeps_visibility occluded_selected
              (record_of "f1.jpg" [VList [vint 10; vint 10; vint 1];
                                   VList [vint 20; vint 20; vint 2]])
              0 (VList [vint 10; vint 10; vint 1]) 7 8
              eq_refl eq_refl eq_refl eq_refl eq_refl) as (H & _).
  exact (H _ _ _ _ 1%Z eq_refl eq_refl eq_refl).
Defined.
(** ** Visibility (V2) *)

Lemma set_keypoint_visibility_valid st a i x y rest v :
  cur_record st = Some a ->
  keypoints a !! i = Some (VList (x :: y :: rest)) ->
  fst (V2.set_keypoint_visibility i v st)
  = set_unsaved_changes true
      (set_keypoints (<[i := VList [x; y; vint v]]> (keypoints a))
         (save_state st)).
Proof.
  intros Ha Hi. unfold V2.set_keypoint_visibility. rewrite Ha.
  pose proof (lookup_lt_Some _ _ _ Hi) as Hlt.
  rewrite (proj2 (Nat.leb_gt _ _) Hlt). by rewrite Hi.
Qed.

(** X13: [set_keypoint_visibility] replaces a valid entry by its two
    coordinates and the new visibility (anything behind the third element
    is dropped) and leaves the other entries alone.  The snapshot is taken
    before the entry is looked at: on an absent or short entry the list
    stays as it is, yet the undo stack has grown and the redo stack is
    empty.  An index behind the end of the list changes nothing. *)
Theorem set_keypoint_visibility_spec (st : state) (a : annotation) (i : nat)
    (v : Z) :
  cur_record st = Some a ->
  let st' := fst (V2.set_keypoint_visibility i v st) in
  ((length (keypoints a) <= i)%nat -> st' = st)
  /\ ((i < length (keypoints a))%nat ->
      undo_stack st' = pushed (undo_stack st) (keypoints a)
      /\ redo_stack st' = [])
  /\ (forall kp, keypoints a !! i = Some kp -> valid_keypoint kp = false ->
      get_keypoints st' = keypoints a)
  /\ (forall x y rest, keypoints a !! i = Some (VList (x :: y :: rest)) ->
      get_keypoints st' = <[i := VList [x; y; vint v]]> (keypoints a)).
Proof.
  intros Ha st'. split; [|split; [|split]].
  - intros Hge. unfold st', V2.set_keypoint_visibility. rewrite Ha.
    by rewrite (proj2 (Nat.leb_le _ _) Hge).
  - intros Hlt. destruct (lookup_lt_is_Some_2 _ _ Hlt) as [kp Hkp].
    destruct (save_state_spec st a Ha) as (Hc & Hu & Hr & _).
    destruct (valid_keypoint kp) eqn:Hv.
    + destruct kp as [| |[|x [|y rest]]]; try done.
      unfold st'.
      rewrite (set_keypoint_visibility_valid st a i x y rest v Ha Hkp).
      by destruct (edit_after_snapshot st a
                     (<[i := VList [x; y; vint v]]> (keypoints a)) Ha)
        as (_ & -> & ->).
    + unfold st', V2.set_keypoint_visibility. rewrite Ha.
      rewrite (proj2 (Nat.leb_gt _ _) Hlt), Hkp.
      by destruct kp as [| |[|x [|y rest]]].
  - intros kp Hkp Hv. pose proof (lookup_lt_Some _ _ _ Hkp) as Hlt.
    unfold st', V2.set_keypoint_visibility. rewrite Ha.
    rewrite (proj2 (Nat.leb_gt _ _) Hlt), Hkp.
    destruct (save_state_spec st a Ha) as (Hc & _).
    destruct kp as [| |[|x [|y rest]]]; try done;
      cbn [fst]; unfold get_keypoints; by rewrite Hc.
  - intros x y rest Hkp. unfold st'.
    rewrite (set_keypoint_visibility_valid st a i x y rest v Ha Hkp).
    by destruct (edit_after_snapshot st a
                   (<[i := VList [x; y; vint v]]> (keypoints a)) Ha)
      as (-> & _).
Qed.

Lemma set_keypoint_visibility_spec_witness :
  let st := sparse_state ModeMove Coco in
  (get_keypoints (fst (V2.set_keypoint_visibility 1 0 st)) = sparse_keypoints
   /\ undo_stack (fst (V2.set_keypoint_visibility 1 0 st)) = [sparse_keypoints])
  /\ get_keypoints (fst (V2.set_keypoint_visibility 2 0 st))
     = [VList [vint 10; vint 10]; VNone; VList [vint 40; vint 40; vint 0]].
Proof.
  split.
  - destruct (set_keypoint_visibility_spec (sparse_state ModeMove Coco)
                (record_of "f1.jpg" sparse_keypoints) 1 0 eq_refl)
      as (_ & H2 & H3 & _).
    split; [exact (H3 VNone eq_refl eq_refl)|].
    apply H2. unfold sparse_keypoints. simpl. lia.
  - destruct (set_keypoint_visibility_spec (sparse_state ModeMove Coco)
                (record_of "f1.jpg" sparse_keypoints) 2 0 eq_refl)
      as (_ & _ & _ & H4).
    exact (H4 _ _ _ eq_refl).
Defined.

Lemma valid_indices_from_spec kps : forall base row i,
  valid_indices_from base kps !! row = Some i ->
  (base <= i)%nat
  /\ (exists kp, kps !! (i - base)%nat = Some kp /\ valid_keypoint kp = true)
  /\ length (filter (fun kp => valid_keypoint kp = true) (take (i - base) kps))
     = row.
Proof.
  induction kps as [|kp kps IH]; intros base row i H; [done|].
  cbn [valid_indices_from] in H.
  destruct (valid_keypoint kp) eqn:Hv.
  - destruct row as [|row].
    + injection H as <-. rewrite Nat.sub_diag. split; [lia|].
      split; [by exists kp|done].
    + cbn in H. destruct (IH _ _ _ H) as (Hle & (kp' & Hkp' & Hv') & Hc).
      split; [lia|].
      replace (i - base)%nat with (S (i - S base)) by lia.
      split; [by exists kp'|].
      cbn [take]. rewrite filter_cons_True by done. cbn [length].
      by rewrite Hc.
  - destruct (IH _ _ _ H) as (Hle & (kp' & Hkp' & Hv') & Hc).
    split; [lia|].
    replace (i - base)%nat with (S (i - S base)) by lia.
    split; [by exists kp'|].
    cbn [take]. by rewrite filter_cons_False by (by rewrite Hv).
Qed.

Lemma valid_indices_from_length kps : forall base,
  length (valid_indices_from base kps)
  = length (filter (fun kp => valid_keypoint kp = true) kps).
Proof.
  induction kps as [|kp kps IH]; intros base; [done|].
  cbn [valid_indices_from]. destruct (valid_keypoint kp) eqn:Hv.
  - rewrite filter_cons_True by done. cbn [length]. by rewrite IH.
  - rewrite filter_cons_False by (by rewrite Hv). apply IH.
Qed.

(** X14: the keypoint list box shows the valid entries only, and
    [set_selected_keypoint_visibility] maps the selected row back to the
    list: row [row] stands for the valid entry that has exactly [row] valid
    entries before it, and it is that entry whose visibility is set.  A row
    behind the last valid entry changes nothing. *)
Theorem set_selected_keypoint_visibility_row (st : state) (a : annotation)
    (row : nat) (v : Z) :
  cur_record st = Some a ->
  format_mode st = Coco ->
  let st' := fst (V2.set_selected_keypoint_visibility (Some row) v st) in
  let valid := filter (fun kp => valid_keypoint kp = true) in
  (forall i, valid_indices (keypoints a) !! row = Some i ->
     length (valid (take i (keypoints a))) = row
     /\ exists x y rest,
          keypoints a !! i = Some (VList (x :: y :: rest))
          /\ get_keypoints st' = <[i := VList [x; y; vint v]]> (keypoints a))
  /\ ((length (valid (keypoints a)) <= row)%nat -> st' = st).
Proof.
  intros Ha Hfmt st' valid. split.
  - intros i Hrow.
    destruct (valid_indices_from_spec _ _ _ _ Hrow)
      as (_ & (kp & Hkp & Hv) & Hc).
    rewrite Nat.sub_0_r in Hkp, Hc. split; [done|].
    destruct kp as [| |[|x [|y rest]]]; try done.
    exists x, y, rest. split; [done|].
    unfold st', V2.set_selected_keypoint_visibility. rewrite Ha, Hfmt, Hrow.
    rewrite (set_keypoint_visibility_valid st a i x y rest v Ha Hkp).
    by destruct (edit_after_snapshot st a
                   (<[i := VList [x; y; vint v]]> (keypoints a)) Ha)
      as (-> & _).
  - intros Hge. unfold st', V2.set_selected_keypoint_visibility.
    rewrite Ha, Hfmt. rewrite lookup_ge_None_2; [done|].
    unfold valid_indices. by rewrite valid_indices_from_length.
Qed.

Lemma set_selected_keypoint_visibility_row_witness :
  get_keypoints
    (fst (V2.set_selected_keypoint_visibility (Some 1%nat) 1
            (sparse_state ModeMove Coco)))
  = [VList [vint 10; vint 10]; VNone; VList [vint 40; vint 40; vint 1]].
Proof.
  destruct (set_selected_keypoint_visibility_row (sparse_state ModeMove Coco)
              (record_of "f1.jpg" sparse_keypoints) 1 1 eq_refl eq_refl)
    as [H _].
  destruct (H 2%nat eq_refl) as (_ & x & y & rest & Hkp & Hk).
  injection Hkp as <- <- <-. exact Hk.
Defined.

Lemma visible_entry_total kp :
  infinite_visibility kp = false ->
  V2.visible_entry kp
  = Ok (if coco_ready kp then None else Some (made_visible kp)).
Proof.
  destruct kp as [|n|[|x [|y [|v rest]]]]; try reflexivity.
  unfold V2.visible_entry, made_visible, coco_ready, infinite_visibility.
  destruct v as [|[z|f]|l]; cbn [py_int]; try reflexivity.
  - intros _. by destruct (bool_decide _).
  - intros Hf.
    destruct (int_of_float_cases f)
      as [[Hi _]|[(_ & _ & ->)|(_ & _ & ->)]]; [congruence|done|].
    by destruct (bool_decide _).
Qed.

Lemma make_visible_total kps :
  Forall (fun kp => infinite_visibility kp = false) kps ->
  V2.make_visible kps
  = (made_visible <$> kps, existsb (fun kp => negb (coco_ready kp)) kps, None).
Proof.
  induction 1 as [|kp kps Hkp _ IH]; [done|].
  cbn [V2.make_visible]. rewrite (visible_entry_total kp Hkp), IH.
  cbn [fmap list_fmap existsb].
  destruct (coco_ready kp) eqn:E; cbn [default negb orb].
  - rewrite bool_decide_eq_false_2 by (by intros [? ?]).
    unfold made_visible at 2. by rewrite E.
  - by rewrite bool_decide_eq_true_2 by by eexists.
Qed.

Lemma made_visible_id kps :
  existsb (fun kp => negb (coco_ready kp)) kps = false ->
  made_visible <$> kps = kps.
Proof.
  induction kps as [|kp kps IH]; [done|]. cbn [existsb fmap list_fmap].
  intros [Hk Hr]%orb_false_iff. rewrite (IH Hr). unfold made_visible.
  by destruct (coco_ready kp).
Qed.

Lemma made_visible_ready kp : coco_ready (made_visible kp) = true.
Proof.
  unfold made_visible. destruct (coco_ready kp) eqn:E; [done|].
  by destruct kp as [|n|[|x [|y rest]]].
Qed.

Lemma made_visible_idem kp : made_visible (made_visible kp) = made_visible kp.
Proof. unfold made_visible at 1. by rewrite made_visible_ready. Qed.

Lemma made_visible_finite kp :
  infinite_visibility kp = false ->
  infinite_visibility (made_visible kp) = false.
Proof.
  intros Hkp. unfold made_visible. destruct (coco_ready kp); [done|].
  by destruct kp as [|n|[|x [|y rest]]].
Qed.

Lemma on_format_mode_change_to_coco_record st a :
  cur_record st = Some a ->
  format_mode st = Standard ->
  Forall (fun kp => infinite_visibility kp = false) (keypoints a) ->
  cur_record (fst (V2.on_format_mode_change Coco st))
  = Some (with_keypoints (made_visible <$> keypoints a) a)
  /\ undo_stack (fst (V2.on_format_mode_change Coco st)) = undo_stack st
  /\ redo_stack (fst (V2.on_format_mode_change Coco st)) = redo_stack st
  /\ format_mode (fst (V2.on_format_mode_change Coco st)) = Coco.
Proof.
  intros Ha Hfmt Hfin. unfold V2.on_format_mode_change. rewrite Hfmt.
  change (cur_record (set_format_mode Coco st)) with (cur_record st).
  rewrite Ha, (make_visible_total _ Hfin).
  set (s0 := set_format_mode Coco st).
  assert (Hc0 : cur_record s0 = Some a) by exact Ha.
  destruct (existsb _ (keypoints a)) eqn:Hup.
  - set (s1 := set_unsaved_changes true
                 (set_keypoints (made_visible <$> keypoints a) s0)).
    destruct (set_keypoints_spec (made_visible <$> keypoints a) s0 a Hc0)
      as (Hc1 & Hu1 & Hr1 & _).
    assert (Hfm : format_mode s1 = Coco).
    { unfold s1, s0, set_keypoints, set_record_keypoints.
      destruct (current_annotation _) as [[i|t]|]; try done.
      cbn. by destruct (annotations_data st) as [[inf [l|]]|]. }
    assert (Hc : cur_record s1
                 = Some (with_keypoints (made_visible <$> keypoints a) a))
      by exact Hc1.
    assert (Hu : undo_stack s1 = undo_stack st) by exact Hu1.
    assert (Hr : redo_stack s1 = redo_stack st) by exact Hr1.
    destruct (annotation_file s1) as [[|c f]|];
      [done|destruct (truthy_path (coco_annotation_file s1)); done|done].
  - rewrite (made_visible_id _ Hup), with_keypoints_same.
    destruct (annotation_file s0) as [[|c f]|];
      [done|destruct (truthy_path (coco_annotation_file s0)); done|done].
Qed.

(** X15: switching from standard to COCO mode gives every valid entry a
    visibility that converts to 0, 1 or 2: an entry without one, or with one
    out of range or unreadable, becomes [[x, y, 2]]; coordinates, invalid
    entries and the length of the list are kept.  The conversion takes no
    undo snapshot.  Switching back to standard mode keeps the visibilities
    in the list, and a second switch to COCO mode changes nothing more.
    (An infinite float in the place of a visibility is set apart: [int]
    raises [OverflowError] on it, which the conversion does not catch.) *)
Theorem on_format_mode_change_to_coco (st : state) (a : annotation) :
  cur_record st = Some a ->
  format_mode st = Standard ->
  Forall (fun kp => infinite_visibility kp = false) (keypoints a) ->
  let st' := fst (V2.on_format_mode_change Coco st) in
  format_mode st' = Coco
  /\ undo_stack st' = undo_stack st
  /\ redo_stack st' = redo_stack st
  /\ length (get_keypoints st') = length (keypoints a)
  /\ (forall i kp, keypoints a !! i = Some kp ->
      exists kp',
        get_keypoints st' !! i = Some kp'
        /\ coco_ready kp' = true
        /\ (coco_ready kp = true -> kp' = kp)
        /\ (coco_ready kp = false ->
            exists x y rest,
              kp = VList (x :: y :: rest) /\ kp' = VList [x; y; vint 2]))
  /\ get_keypoints (fst (V2.on_format_mode_change Standard st'))
     = get_keypoints st'
  /\ get_keypoints
       (fst (V2.on_format_mode_change Coco
               (fst (V2.on_format_mode_change Standard st'))))
     = get_keypoints st'.
Proof.
  intros Ha Hfmt Hfin st'.
  destruct (on_format_mode_change_to_coco_record st a Ha Hfmt Hfin)
    as (Hc & Hu & Hr & Hf).
  fold st' in Hc, Hu, Hr, Hf.
  assert (Hk : get_keypoints st' = made_visible <$> keypoints a).
  { unfold get_keypoints. by rewrite Hc. }
  split; [done|]. split; [done|]. split; [done|].
  split; [by rewrite Hk, length_fmap|].
  split; [|split].
  - intros i kp Hi. exists (made_visible kp).
    rewrite Hk, list_lookup_fmap, Hi.
    split; [done|]. split; [apply made_visible_ready|].
    split; intros Hrd; unfold made_visible; rewrite Hrd; [done|].
    destruct kp as [|n|[|x [|y rest]]]; try done. by exists x, y, rest.
  - done.
  - set (s2 := fst (V2.on_format_mode_change Standard st')).
    assert (Hc2 : cur_record s2 = cur_record st') by done.
    assert (Hf2 : format_mode s2 = Standard) by done.
    rewrite Hc in Hc2.
    destruct (on_format_mode_change_to_coco_record s2 _ Hc2 Hf2) as (Hc3 & _).
    { cbn [keypoints with_keypoints]. apply Forall_fmap.
      eapply Forall_impl; [exact Hfin|]. apply made_visible_finite. }
    unfold get_keypoints at 1. rewrite Hc3, Hk. cbn [keypoints with_keypoints].
    rewrite <- list_fmap_compose. apply list_fmap_ext.
    intros i x _. apply made_visible_idem.
Qed.

Lemma on_format_mode_change_to_coco_witness :
  get_keypoints
    (fst (V2.on_format_mode_change Coco (sparse_state ModeMove Standard)))
  !! 2%nat
  = Some (VList [vint 40; vint 40; vint 2]).
Proof.
  destruct (on_format_mode_change_to_coco (sparse_state ModeMove Standard)
              (record_of "f1.jpg" sparse_keypoints) eq_refl eq_refl)
    as (_ & _ & _ & _ & H & _); [by repeat constructor|].
  destruct (H 2%nat (VList [vint 40; vint 40; vint 7]) eq_refl)
    as (kp' & Hkp' & _ & _ & Hconv).
  destruct (Hconv eq_refl) as (x & y & rest & Heq & ->).
  injection Heq as <- <- <-. exact Hkp'.
Defined.

(** ** Navigation and loading *)

Lemma load_current_image_frame disk st :
  image_list (fst (load_current_image disk st)) = image_list st
  /\ current_image_index (fst (load_current_image disk st))
     = current_image_index st
  /\ image_folder (fst (load_current_image disk st)) = image_folder st.
Proof.
  unfold load_current_image.
  destruct (image_list st !! current_image_index st) as [p|] eqn:Hp; [|done].
  destruct (image_folder st) as [|f0 fs] eqn:Hf; [done|].
  destruct (disk p) as [| |w h]; [done|done|].
  cbn [fst].
  destruct (doc_truthy _); [|done].
  destruct (resolve_annotation _ _) as [i|].
  - cbn. by destruct (annotations_data st) as [[inf [l|]]|].
  - done.
Qed.

(** X16: with the index inside the image list, [previous_image],
    [next_image] and [go_to_image] keep it inside: previous and next move by
    one step and stop at the two ends, a jump to a number between 1 and the
    number of images lands on that image and any other entry leaves the
    state as it is; a step forward followed by a step back returns to the
    same index, unless the image is the last one (the step forward stays
    there, so that the step back ends one image before).  When the file of
    the next image is missing the index moves on while everything else, the
    current annotation included, stays with the image shown before. *)
Theorem navigation_in_range (disk : string -> image_file) (st : state)
    (entry : option Z) :
  (current_image_index st < length (image_list st))%nat ->
  let idx := current_image_index st in
  let n := length (image_list st) in
  current_image_index (fst (previous_image disk st)) = (idx - 1)%nat
  /\ current_image_index (fst (next_image disk st)) = Nat.min (S idx) (n - 1)
  /\ (current_image_index (fst (go_to_image entry disk st)) < n)%nat
  /\ (forall num, entry = Some num -> (1 <= num <= Z.of_nat n)%Z ->
      Z.of_nat (current_image_index (fst (go_to_image entry disk st)))
      = (num - 1)%Z)
  /\ ((S idx < n)%nat ->
      current_image_index
        (fst (previous_image disk (fst (next_image disk st)))) = idx)
  /\ (forall p, image_list st !! S idx = Some p -> image_folder st <> [] ->
      disk p = Missing ->
      fst (next_image disk st) = set_current_image_index (S idx) st)
  /\ ((forall num, entry = Some num -> ~ (1 <= num <= Z.of_nat n)%Z) ->
      fst (go_to_image entry disk st) = st)
  /\ (S idx = n ->
      current_image_index
        (fst (previous_image disk (fst (next_image disk st))))
      = (idx - 1)%nat).
Proof.
  intros Hin idx n. subst idx n.
  assert (Hne : image_list st <> []).
  { intros E. rewrite E in Hin. cbn in Hin. lia. }
  assert (Hprev : forall s, image_list s <> [] ->
            current_image_index (fst (previous_image disk s))
            = (current_image_index s - 1)%nat).
  { intros s Hs. unfold previous_image.
    destruct (image_list s) as [|p0 ps]; [done|].
    destruct (0 <? current_image_index s)%nat eqn:E.
    - by destruct (load_current_image_frame disk
                     (set_current_image_index (current_image_index s - 1) s))
        as (_ & -> & _).
    - apply Nat.ltb_ge in E. cbn [fst]. lia. }
  assert (Hnext : current_image_index (fst (next_image disk st))
                  = Nat.min (S (current_image_index st))
                      (length (image_list st) - 1)
                  /\ image_list (fst (next_image disk st)) = image_list st).
  { unfold next_image.
    destruct (image_list st) as [|p0 ps] eqn:El; [done|].
    destruct (_ <? _)%nat eqn:E.
    - destruct (load_current_image_frame disk
                  (set_current_image_index (current_image_index st + 1) st))
        as (-> & -> & _).
      apply Nat.ltb_lt in E. cbn [current_image_index set_current_image_index].
      split; [lia|done].
    - apply Nat.ltb_ge in E. cbn [fst]. split; [lia|done]. }
  split; [by apply Hprev|]. split; [apply Hnext|].
  assert (Hgo : forall num, entry = Some num ->
            (1 <= num <= Z.of_nat (length (image_list st)))%Z ->
            Z.of_nat (current_image_index (fst (go_to_image entry disk st)))
            = (num - 1)%Z).
  { intros num -> [H1 H2]. unfold go_to_image, jump.
    destruct (image_list st) as [|p0 ps] eqn:El; [done|].
    rewrite (proj2 (Z.leb_le 1 num) H1), (proj2 (Z.leb_le _ _) H2).
    cbn [andb].
    destruct (load_current_image_frame disk
                (set_current_image_index (Z.to_nat (num - 1)) st))
      as (_ & -> & _).
    cbn [current_image_index set_current_image_index]. lia. }
  split; [|split; [exact Hgo|split]].
  - destruct entry as [num|].
    + destruct (decide (1 <= num <= Z.of_nat (length (image_list st)))%Z)
        as [Hr|Hr].
      * pose proof (Hgo num eq_refl Hr). lia.
      * unfold go_to_image, jump.
        destruct (image_list st) as [|p0 ps] eqn:El; [done|].
        destruct (1 <=? num)%Z eqn:E1; [|done].
        destruct (num <=? _)%Z eqn:E2; [|done].
        exfalso. apply Hr. apply Z.leb_le in E1, E2. lia.
    + unfold go_to_image, jump. by destruct (image_list st).
  - intros Hlt. destruct Hnext as [Hi Hl].
    rewrite Hprev by (by rewrite Hl). rewrite Hi. lia.
  - split; [|split].
    2:{ intros Hbad. unfold go_to_image, jump.
        destruct (image_list st) as [|p0 ps] eqn:El; [done|].
        destruct entry as [num|]; [|done].
        destruct (1 <=? num)%Z eqn:E1; [|done].
        destruct (num <=? _)%Z eqn:E2; [|done].
        exfalso. apply (Hbad num eq_refl).
        apply Z.leb_le in E1, E2. lia. }
    2:{ intros Hlast. destruct Hnext as [Hi Hl].
        rewrite Hprev by (by rewrite Hl). rewrite Hi. lia. }
    intros p Hp Hf Hm. unfold next_image.
    pose proof (lookup_lt_Some _ _ _ Hp) as Hlt.
    destruct (image_list st) as [|p0 ps] eqn:El; [done|].
    rewrite (proj2 (Nat.ltb_lt _ _)) by lia.
    unfold load_current_image.
    cbn [image_list current_image_index set_current_image_index image_folder].
    rewrite El, Nat.add_1_r, Hp.
    destruct (image_folder st); [done|]. by rewrite Hm.
Qed.

Lemma navigation_in_range_witness :
  let st := two_frames [] [] Standard in
  let disk := fun _ : string => Readable 100 100 in
  current_image_index (fst (previous_image disk st)) = 0%nat
  /\ current_image_index (fst (next_image disk st)) = 1%nat
  /\ fst (go_to_image (Some 7%Z) disk st) = st
  /\ current_image_index
       (fst (previous_image disk (fst (next_image disk st)))) = 0%nat.
Proof.
  destruct (navigation_in_range (fun _ : string => Readable 100 100)
              (two_frames [] [] Standard) (Some 7%Z))
    as (H1 & H2 & _ & _ & _ & _ & H7 & H8).
  - simpl. lia.
  - split; [exact H1|]. split; [exact H2|]. split.
    + apply H7. intros num [= <-]. simpl. lia.
    + exact (H8 eq_refl).
Defined.

Lemma dict_get_setdefault {V} (d : list (string * V)) k v k' :
  dict_get (dict_setdefault d k v) k'
  = match dict_get d k with
    | Some _ => dict_get d k'
    | None => if decide (k = k') then Some v else dict_get d k'
    end.
Proof.
  unfold dict_setdefault. destruct (dict_get d k); [done|].
  apply dict_get_set.
Qed.

Lemma created_dict_get d p i k :
  dict_get (created_dict d p i) k = Some i
  \/ dict_get (created_dict d p i) k = dict_get d k.
Proof.
  unfold created_dict. rewrite dict_get_setdefault.
  destruct (truthy_path (get_relative_path p)).
  - rewrite !dict_get_set.
    destruct (decide (default "" (get_relative_path p) = basename _)),
      (decide (default "" (get_relative_path p) = k)); auto;
      destruct (dict_get d _); auto; destruct (decide (_ = k)); auto.
  - destruct (dict_get d (basename p)); auto.
    destruct (decide (_ = k)); auto.
Qed.

Lemma resolve_annotation_ext p s s' :
  annotation_dict s = annotation_dict s' ->
  image_folder s = image_folder s' ->
  resolve_annotation p s = resolve_annotation p s'.
Proof. unfold resolve_annotation. by intros -> ->. Qed.

Lemma resolve_after_create p st s' i :
  resolve_annotation p st = None ->
  annotation_dict s' = created_dict (annotation_dict st) p i ->
  image_folder s' = image_folder st ->
  resolve_annotation p s' = Some i.
Proof.
  unfold resolve_annotation. intros Hnone -> ->.
  set (d := annotation_dict st) in *.
  set (amp := get_annotation_match_path p (image_folder st)) in *.
  set (rel := get_relative_path p) in *.
  set (d' := created_dict d p i).
  destruct (dict_key d amp) as [j|] eqn:H1; [done|].
  destruct (dict_key d rel) as [j|] eqn:H2; [done|].
  destruct (dict_get d (basename _)) as [j|] eqn:H3; [done|].
  assert (H1' : dict_key d' amp = Some i \/ dict_key d' amp = None).
  { destruct (truthy_path amp) eqn:Ht1.
    - rewrite dict_key_truthy by done. apply dict_key_None in H1; [|done].
      unfold d'.
      destruct (created_dict_get d p i (default "" amp)) as [E|E];
        rewrite E; auto.
    - right. unfold dict_key. by rewrite Ht1. }
  assert (Hfin : forall (o : option nat) rest,
            o = Some i -> (if o is Some _ then o else rest) = Some i).
  { by intros o rest ->. }
  destruct (truthy_path rel) eqn:Ht.
  - assert (H2' : dict_key d' rel = Some i).
    { rewrite dict_key_truthy by done. unfold d', created_dict. fold rel.
      rewrite Ht, dict_get_setdefault, !dict_get_set.
      rewrite (decide_True (P := default "" rel = default "" rel)) by done.
      destruct (decide (default "" rel = basename (default "" rel)));
        [done|].
      rewrite H3. by destruct (decide _). }
    destruct H1' as [-> | ->]; [done|]. by rewrite H2'.
  - assert (H3' : dict_get d' (basename p) = Some i).
    { unfold d', created_dict. fold rel. rewrite Ht, dict_get_setdefault.
      rewrite H3. by rewrite decide_True. }
    destruct H1' as [-> | ->]; [done|].
    assert (H2' : dict_key d' rel = None).
    { unfold dict_key. by rewrite Ht. }
    by rewrite H2', H3'.
Qed.

Lemma load_current_image_readable disk st p w h :
  image_list st !! current_image_index st = Some p ->
  image_folder st <> [] ->
  disk p = Readable w h ->
  fst (load_current_image disk st) = loaded p w h st.
Proof.
  intros Hp Hf Hd. unfold load_current_image. rewrite Hp.
  destruct (image_folder st) eqn:E; [congruence|]. rewrite Hd. reflexivity.
Qed.

Lemma alter_with_image_idem rel i (l : list annotation) :
  alter (with_image rel) i (alter (with_image rel) i l)
  = alter (with_image rel) i l.
Proof.
  apply list_eq. intros j. destruct (decide (i = j)) as [<-|Hne].
  - rewrite !list_lookup_alter, !decide_True by done.
    by destruct (l !! i).
  - by rewrite !list_lookup_alter, !decide_False by done.
Qed.

Lemma loaded_idempotent p w h st :
  loaded p w h (loaded p w h st) = loaded p w h st.
Proof.
  destruct st as [ad d f cf ifo il ci cip cis ca u r sel em fm dv vv ds uc sf].
  unfold loaded at 2.
  cbn [annotations_data set_current_image_path set_current_image_size].
  destruct (doc_truthy ad) eqn:Hdoc.
  - destruct (resolve_annotation p _) as [i|] eqn:Hres.
    + (* found *)
      destruct ad as [[inf [l|]]|]; cbn.
      * unfold loaded. cbn. 
        erewrite resolve_annotation_ext; [rewrite Hres| |]; try reflexivity.
        cbn. rewrite alter_with_image_idem. by destruct inf.
      * destruct inf as [inf|]; [|done]. unfold loaded. cbn.
        erewrite resolve_annotation_ext; [rewrite Hres| |]; try reflexivity.
      * done.
    + (* created *)
      unfold append_record. cbn.
      unfold loaded. cbn.
      erewrite (resolve_after_create p _ _ (length (doc_annotations ad)) Hres);
        [| reflexivity | reflexivity].
      rewrite Hdoc, Hres.
      cbn. rewrite alter_app_r_alt by lia. rewrite Nat.sub_diag. cbn.
      unfold with_image, append_record. cbn.
      destruct (ad ≫= info); by destruct p.
  - unfold loaded. cbn. by rewrite Hdoc.
Qed.

Lemma loaded_frame p w h st :
  image_list (loaded p w h st) = image_list st
  /\ current_image_index (loaded p w h st) = current_image_index st
  /\ image_folder (loaded p w h st) = image_folder st
  /\ undo_stack (loaded p w h st) = []
  /\ redo_stack (loaded p w h st) = []
  /\ selected_keypoint (loaded p w h st) = None
  /\ current_image_path (loaded p w h st) = Some p.
Proof.
  unfold loaded. cbn.
  destruct (doc_truthy _); [|done].
  destruct (resolve_annotation _ _) as [i|]; [|done].
  cbn. by destruct (annotations_data st) as [[inf [l|]]|].
Qed.

(** X17: [load_current_image] is idempotent: loading the image on display
    a second time changes nothing, and in particular never enters a second
    record for it, whether the first load found a record through one of the
    five strategies, created one, or made a temporary one.  A load that
    reads the image empties both history stacks and the selection. *)
Theorem load_current_image_idempotent (disk : string -> image_file)
    (st : state) :
  let st' := fst (load_current_image disk st) in
  fst (load_current_image disk st') = st'
  /\ (forall p w h,
        image_list st !! current_image_index st = Some p ->
        image_folder st <> [] ->
        disk p = Readable w h ->
        undo_stack st' = [] /\ redo_stack st' = []
        /\ selected_keypoint st' = None
        /\ current_image_path st' = Some p).
Proof.
  intros st'.
  assert (Hidem : fst (load_current_image disk st') = st').
  { unfold st'.
    destruct (image_list st !! current_image_index st) as [p|] eqn:Hp.
    2: { unfold load_current_image at 2. rewrite Hp. cbn [fst].
         unfold load_current_image. by rewrite Hp. }
    destruct (image_folder st) as [|f0 fs] eqn:Hf.
    { unfold load_current_image at 2. rewrite Hp, Hf. cbn [fst].
      unfold load_current_image. by rewrite Hp, Hf. }
    destruct (disk p) as [| |w h] eqn:Hd.
    - unfold load_current_image at 2. rewrite Hp, Hf, Hd. cbn [fst].
      unfold load_current_image. by rewrite Hp, Hf, Hd.
    - unfold load_current_image at 2. rewrite Hp, Hf, Hd. cbn [fst].
      unfold load_current_image.
      cbn [image_list current_image_index image_folder set_current_image_path].
      rewrite Hp, Hf, Hd. by destruct st.
    - assert (Hf' : image_folder st <> []) by (by rewrite Hf).
      rewrite (load_current_image_readable disk st p w h Hp Hf' Hd).
      destruct (loaded_frame p w h st) as (Hl & Hi & Hfo & _).
      rewrite (load_current_image_readable disk _ p w h).
      + apply loaded_idempotent.
      + by rewrite Hl, Hi.
      + by rewrite Hfo.
      + done. }
  split; [done|].
  intros p w h Hp Hf Hd. unfold st'.
  rewrite (load_current_image_readable disk st p w h Hp Hf Hd).
  by destruct (loaded_frame p w h st) as (_ & _ & _ & -> & -> & -> & ->).
Qed.

(** ** The lookup dict that an import builds *)

Lemma first_index_lt {A} (P : A -> bool) l k :
  first_index P l = Some k ->
  (k < length l)%nat /\ exists x, l !! k = Some x /\ P x = true.
Proof.
  revert k. induction l as [|x l IH]; intros k; [done|]. cbn.
  destruct (P x) eqn:HP.
  - intros [= <-]. split; [lia|]. by exists x.
  - destruct (first_index P l) as [k'|]; [|done]. intros [= <-].
    destruct (IH k' eq_refl) as [Hlt Hx]. split; [lia|done].
Qed.

Lemma last_index_None {A} (P : A -> bool) l :
  last_index P l = None -> forall j y, l !! j = Some y -> P y = false.
Proof.
  induction l as [|x l IH]; intros E j y Hy; [done|].
  cbn in E. destruct (last_index P l) eqn:E'; [done|].
  destruct j as [|j]; cbn in Hy.
  - injection Hy as ->. by destruct (P y).
  - by apply (IH eq_refl j).
Qed.

Lemma last_index_lt {A} (P : A -> bool) l k :
  last_index P l = Some k ->
  (k < length l)%nat
  /\ (exists x, l !! k = Some x /\ P x = true)
  /\ forall j y, (k < j)%nat -> l !! j = Some y -> P y = false.
Proof.
  revert k. induction l as [|x l IH]; intros k; [done|]. cbn.
  destruct (last_index P l) as [k'|] eqn:E.
  - intros [= <-]. destruct (IH k' eq_refl) as (Hlt & Hx & Hlast).
    split; [lia|]. split; [done|].
    intros [|j] y Hj Hy; [lia|]. apply (Hlast j y); [lia|done].
  - destruct (P x) eqn:HP; [|done]. intros [= <-].
    split; [lia|]. split; [by exists x|].
    intros [|j] y Hj Hy; [lia|]. cbn in Hy.
    by apply (last_index_None P l E j).
Qed.

Lemma build_annotation_dict_get key anns : forall i0 d,
  dict_get (build_annotation_dict anns i0 d) key
  = match last_index (has_path key) anns with
    | Some k => Some (i0 + k)%nat
    | None =>
        match dict_get d key with
        | Some v => Some v
        | None => (fun k => (i0 + k)%nat) <$> first_index (has_file_name key) anns
        end
    end.
Proof.
  induction anns as [|a anns IH]; intros i0 d.
  - cbn. by destruct (dict_get d key).
  - cbn [build_annotation_dict last_index first_index]. rewrite IH.
    destruct (last_index (has_path key) anns) as [k|];
      [f_equal; lia|].
    unfold has_path, has_file_name.
    destruct (image a) as [|c s] eqn:Hi.
    + destruct (dict_get d key); [done|].
      destruct (first_index _ anns); cbn; [f_equal; lia|done].
    + set (norm := replace_backslash (String c s)).
      rewrite dict_get_setdefault, !dict_get_set.
      destruct (String.eqb_spec norm key) as [Hn|Hn].
      * rewrite (decide_True (P := norm = key)) by done.
        rewrite Nat.add_0_r.
        by destruct (if decide (norm = basename norm) then _ else _);
          [|destruct (decide _)].
      * rewrite (decide_False (P := norm = key)) by done.
        destruct (String.eqb_spec (basename norm) key) as [Hb|Hb].
        -- rewrite Hb.
           rewrite (decide_False (P := norm = key)) by done.
           rewrite decide_True by done.
           destruct (dict_get d key); [done|]. cbn. by rewrite Nat.add_0_r.
        -- assert (E : (if decide (basename norm = key) then Some i0
                        else dict_get d key) = dict_get d key)
             by (by rewrite decide_False).
           rewrite E.
           destruct (if decide (norm = basename norm) then _ else _);
             destruct (dict_get d key); try done;
             destruct (first_index _ anns); cbn; try done; f_equal; lia.
Qed.

(** X18: the lookup dict that [import_annotations] builds is determined by
    two rules.  Under a key that is the normalized path of some record it
    holds the last record with that path; under any other key it holds the
    first record whose file name is the key.  Records without a path are
    not entered, every entry refers to a record of the imported document,
    and a record with a path can always be found under its normalized
    path. *)
Theorem build_annotation_dict_spec (anns : list annotation) (key : string) :
  let d := build_annotation_dict anns 0 [] in
  dict_get d key
  = match last_index (has_path key) anns with
    | Some k => Some k
    | None => first_index (has_file_name key) anns
    end
  /\ (forall i, dict_get d key = Some i ->
        exists a, anns !! i = Some a /\ image a <> ""
                  /\ (replace_backslash (image a) = key
                      \/ basename (replace_backslash (image a)) = key))
  /\ (forall i a, anns !! i = Some a -> image a <> "" ->
        replace_backslash (image a) = key ->
        exists j b, dict_get d key = Some j /\ (i <= j)%nat
                    /\ anns !! j = Some b
                    /\ replace_backslash (image b) = key).
Proof.
  intros d.
  assert (Hget : dict_get d key
                 = match last_index (has_path key) anns with
                   | Some k => Some k
                   | None => first_index (has_file_name key) anns
                   end).
  { unfold d. rewrite build_annotation_dict_get. cbn.
    destruct (last_index _ anns); [done|].
    by destruct (first_index _ anns). }
  split; [done|]. split.
  - intros i Hi. rewrite Hget in Hi.
    destruct (last_index (has_path key) anns) as [k|] eqn:El.
    + injection Hi as <-.
      destruct (last_index_lt _ _ _ El) as (_ & (a & Ha & HP) & _).
      exists a. split; [done|]. unfold has_path in HP.
      destruct (image a) as [|c s]; [done|]. split; [done|].
      left. by apply String.eqb_eq.
    + destruct (first_index_lt _ _ _ Hi) as (_ & a & Ha & HP).
      exists a. split; [done|]. unfold has_file_name in HP.
      destruct (image a) as [|c s]; [done|]. split; [done|].
      right. by apply String.eqb_eq.
  - intros i a Ha Hne Hkey. rewrite Hget.
    assert (HP : has_path key a = true).
    { unfold has_path. destruct (image a) as [|c s]; [done|].
      by apply String.eqb_eq. }
    destruct (last_index (has_path key) anns) as [k|] eqn:El.
    + destruct (last_index_lt _ _ _ El) as (_ & (b & Hb & HPb) & Hlast).
      exists k, b. split; [done|]. split.
      * destruct (le_lt_dec i k) as [Hle|Hlt]; [done|].
        rewrite (Hlast i a Hlt Ha) in HP. done.
      * split; [done|]. unfold has_path in HPb.
        destruct (image b) as [|c s]; [done|]. by apply String.eqb_eq.
    + by rewrite (last_index_None _ _ El i a Ha) in HP.
Qed.

(** ** Saving: the automatic save and the COCO-mode save of V2 *)

Lemma unsaved_changes_set_keypoints k st :
  unsaved_changes (set_keypoints k st) = unsaved_changes st.
Proof.
  unfold set_keypoints, set_record_keypoints.
  destruct (current_annotation st) as [[i|a]|]; try done.
  by destruct (annotations_data st) as [[inf [l|]]|].
Qed.

Lemma format_files_set_keypoints k st :
  format_mode (set_keypoints k st) = format_mode st
  /\ annotation_file (set_keypoints k st) = annotation_file st
  /\ coco_annotation_file (set_keypoints k st) = coco_annotation_file st.
Proof.
  unfold set_keypoints, set_record_keypoints.
  destruct (current_annotation st) as [[i|a]|]; try done.
  by destruct (annotations_data st) as [[inf [l|]]|].
Qed.

Lemma unsaved_changes_undo_redo st :
  unsaved_changes (fst (undo_action st)) = unsaved_changes st
  /\ unsaved_changes (fst (redo_action st)) = unsaved_changes st.
Proof.
  unfold undo_action, redo_action. split.
  - destruct (pop_last (undo_stack st)) as [[u' previous]|]; [|done].
    destruct (cur_record st); [|done]. cbn [fst].
    by rewrite unsaved_changes_set_keypoints.
  - destruct (pop_last (redo_stack st)) as [[r' next]|]; [|done].
    destruct (cur_record st); [|done]. cbn [fst].
    by rewrite unsaved_changes_set_keypoints.
Qed.

(** X19: the automatic save of V2 writes the document exactly as it is in
    memory, without the counter update of [save_annotations], so the file
    reads back as the in-memory document; in COCO mode it writes the COCO
    file only and in standard mode the standard file only, and every other
    file is left alone.  Undo and redo do not mark the state as changed:
    right after a save, what they restore is never written by
    [check_auto_save]. *)
Theorem auto_save_writes_document (st : state) (fs : filesystem)
    (data : document) (file_path : string) :
  annotations_data st = Some data ->
  doc_truthy (Some data) = true ->
  file_path <> "" ->
  match format_mode st with
  | Coco => coco_annotation_file st
  | Standard => annotation_file st
  end = Some file_path ->
  let '(st', fs') := V2.auto_save st fs in
  json_load fs' file_path = Ok data
  /\ annotations_data st' = Some data
  /\ unsaved_changes st' = false
  /\ (forall other, other <> file_path -> fs' !! other = fs !! other)
  /\ (forall due,
        unsaved_changes st = false ->
        snd (V2.check_auto_save due (fst (undo_action st)) fs) = fs
        /\ snd (V2.check_auto_save due (fst (redo_action st)) fs) = fs).
Proof.
  intros Hd Htruthy Hpath Htarget. unfold V2.auto_save.
  rewrite Hd, Htruthy, Htarget.
  destruct file_path as [|c file_path]; [done|].
  split; [unfold json_load; by rewrite lookup_insert_eq|].
  split; [done|]. split; [done|].
  split; [intros other Ho; by rewrite lookup_insert_ne|].
  intros due Hsaved.
  destruct (unsaved_changes_undo_redo st) as [Hu Hr].
  unfold V2.check_auto_save. by rewrite Hu, Hr, Hsaved.
Qed.

Lemma auto_save_writes_document_witness :
  let st := set_format_mode Coco
              (set_coco_annotation_file (Some "ann_coco.json") stale_state) in
  json_load (snd (V2.auto_save st ∅)) "ann_coco.json" = Ok stale_document
  /\ snd (V2.auto_save st ∅) !! "ann.json" = None.
Proof.
  cbv zeta.
  pose proof (auto_save_writes_document
                (set_format_mode Coco
                   (set_coco_annotation_file (Some "ann_coco.json")
                      stale_state))
                ∅ stale_document "ann_coco.json" eq_refl eq_refl
                ltac:(discriminate) eq_refl) as H.
  destruct (V2.auto_save _ _) as [st' fs'].
  destruct H as (H1 & _ & _ & H4 & _).
  split; [exact H1|]. cbn [snd].
  rewrite (H4 "ann.json" ltac:(discriminate)). reflexivity.
Defined.

(** X20: in COCO mode [save_annotations] of V2 writes one and the same
    document, the native one with its counters brought up to date, to the
    standard file and to the COCO file (whose name it derives from the
    standard file when none is set), touches no other file and never
    consults the save dialog; without a standard file it warns and writes
    nothing. *)
Theorem save_annotations_coco_mode (st : state) (fs : filesystem)
    (data : document) (dialog : option string) :
  annotations_data st = Some data ->
  doc_truthy (Some data) = true ->
  format_mode st = Coco ->
  (forall standard_file,
      annotation_file st = Some standard_file ->
      standard_file <> "" ->
      saveable data = true ->
      let coco_file :=
        if truthy_path (coco_annotation_file st)
        then default "" (coco_annotation_file st)
        else splitext_root standard_file +:+ "_coco.json" in
      let '(st', fs', r) := V2.save_annotations dialog st fs in
      fs' !! standard_file = Some (NativeJson (refresh_info data))
      /\ fs' !! coco_file = Some (NativeJson (refresh_info data))
      /\ (forall other, other <> standard_file -> other <> coco_file ->
          fs' !! other = fs !! other)
      /\ annotations_data st' = Some (refresh_info data)
      /\ coco_annotation_file st' = Some coco_file
      /\ unsaved_changes st' = false)
  /\ (truthy_path (annotation_file st) = false ->
      exists msg, V2.save_annotations dialog st fs = (st, fs, ShowWarning msg)).
Proof.
  intros Hd Htruthy Hfmt. split.
  - intros standard_file Hfile Hne Hsave coco_file.
    unfold V2.save_annotations. rewrite Hd, Htruthy, Hfmt, Hfile.
    cbn [negb]. destruct standard_file as [|c s]; [done|].
    fold coco_file. rewrite (update_info_refresh data Hsave).
    split.
    + destruct (decide (coco_file = String c s)) as [->|Hneq].
      * by rewrite lookup_insert_eq.
      * rewrite lookup_insert_ne by done. by rewrite lookup_insert_eq.
    + split; [by rewrite lookup_insert_eq|].
      split; [|done].
      intros other H1 H2. by rewrite !lookup_insert_ne.
  - intros Hfile. unfold V2.save_annotations.
    rewrite Hd, Htruthy, Hfmt. cbn [negb].
    destruct (annotation_file st) as [[|c s]|]; try done; by eexists.
Qed.

Lemma save_annotations_coco_mode_witness :
  let st := set_format_mode Coco stale_state in
  let fs' := snd (fst (V2.save_annotations None st ∅)) in
  fs' !! "ann.json" = Some (NativeJson (refresh_info stale_document))
  /\ fs' !! "ann_coco.json" = Some (NativeJson (refresh_info stale_document)).
Proof.
  cbv zeta.
  destruct (save_annotations_coco_mode (set_format_mode Coco stale_state) ∅
              stale_document None eq_refl eq_refl eq_refl) as [H _].
  pose proof (H "ann.json" eq_refl ltac:(discriminate) eq_refl) as H'.
  cbv zeta in H'.
  destruct (V2.save_annotations None _ ∅) as [[st' fs'] r].
  destruct H' as (H1 & H2 & _). split; [exact H1|exact H2].
Defined.
